(* ===== verification/_CoqProject ===== *)
-Q . S2P
Prelude.v
Series.v
Frame.v
Csv.v
Header.v
ReadCsv.v
Impute.v
Describe.v
Cut.v
Dates.v
CrossTab.v
Script.v
