(* ===== verification/Prelude.v ===== *)
(** * A verified model of the aviation-accident analysis script

    The repository holds one Python script,
    [src/phase_1__project(adrianna_ndubi).py], a notebook exported to a
    file.  It loads the NTSB accident table with pandas (line 45), drops
    two columns (line 83), imputes [Total.Fatal.Injuries] by its mean and
    [Weather.Condition] by its mode (lines 86 and 89), prints the head
    of the frame and the [Injury.Severity] counts (lines 92 to 103),
    parses [Event.Date] and derives a [year] column (lines 113 to 117),
    buckets the fatalities with [pd.cut] (line 155), and draws five
    charts from five aggregations: accidents per year (line 117), the
    ten makes with most accidents (line 136), the category by severity
    cross-tabulation (line 158), the ten most frequent locations
    (line 175) and the ten most frequent injury severities (line 190).
    Each statement reads the frame the previous ones left; the first
    exception stops the run.

    The development models the script on top of a model of the pandas
    operations it calls, each an executable Rocq function, one file per
    part, in dependency order:

    - [Prelude] (this file): the exceptions the script can raise
      ([exn]), the [result] type with its bind notation [x <- r ;; k],
      the writer-and-error monad [M] (notation [x <-- m ;;; k]) that
      carries the printed and plotted output, [count_of], [present] (the
      non-NaN cells) and the list lemmas the components share, with the
      hint databases [pandas].
    - [Series]: the aggregations, generic in the key type through the
      class [KeyOrder] (the interface [Frame] implements for cells):
      [uniq], [count_pairs], [value_counts], [series_value_counts],
      [groupby_size], the stable insertion sort [isort] behind
      [sort_values_desc], [head] and [mode]. Theorems C8 to C12, C14:
      each aggregation lists every key once with its count and the
      counts add up; [sort_values_desc] meets the contract of a sort, a
      reordering in decreasing order of count (C10), which numpy's
      unstable quicksort meets too; the top-[n] view keeps the largest
      counts, whatever the order of ties (C11, C12); [mode] is the
      sorted list of the most frequent values.
    - [Frame]: cells ([scalar]: string, number, date), dtypes (object,
      float64, int64, datetime64[ns], category), columns and the [frame]
      record; [getitem] ([df[name]], KeyError), [drop_columns]
      ([df.drop(columns=..., errors='ignore')]), [setitem] ([df[name] =
      col], ValueError on a length mismatch), [frame_head], the int64
      range and the calendar ([valid_date], [in_bounds]), and the
      invariant [frame_wf] (distinct names, one length, cells of the
      column's dtype: int64 cells whole numbers in range and never NaN,
      datetime64 cells valid dates in range) that every operation keeps
      (C26, C27); which names each operation leaves and which errors it
      raises.
    - [Csv]: the C tokenizer of [pd.read_csv] (pandas'
      [_libs/src/parser/tokenizer.c]) with the script's options: the
      record [tok] holds the parser state ([tstate], the states
      [START_RECORD] to [EAT_CRNL] of the C code), the field, record and
      lines read so far; [tok_step] is the switch on one character and
      [tok_eof] is [parser_handle_eof], raising [ParserError] on an open
      quote. C35: every table written with quoted fields and LF or CR LF
      line ends reads back to itself; the invariant [tok_inv] shows that
      every record read has a field.
    - [Header]: the naming of the columns in [_get_header]
      ([parsers.pyx]): [Unnamed: i] for empty fields, then the loop that
      renames a repeated name to [name.1], [name.2], ... while the name
      is taken. C36: that while loop exits within its fuel at every
      column; the names are distinct and one per field; C37: a header of
      distinct non-empty names is kept.
    - [ReadCsv]: [read_csv] (line 45): tokenize, raise [EmptyDataError]
      when there is no record, take the implicit index when the first
      data record is longer, skip longer records
      ([on_bad_lines='skip']), pad shorter ones, and infer each column's
      dtype from its fields ([NA_VALUES], [str_to_int64] as [parse_int],
      [xstrtod] as [parse_number]). C6: the frame is well formed; C38
      its shape (the implicit index, the skipped bad lines, the padded
      short ones); C39 the dtype inference; C40 the two load errors.
    - [Impute]: lines 83 to 89 ([drop_unreliable], [impute_fatalities],
      [impute_weather], [clean]) over [series_mean], [mode],
      [fillna_cells] and the chained in-place fill [fillna_chained]. C1
      to C3 give the filled columns and the preserved mean; C18 and C19
      the edge cases: an all-NaN column stays NaN (line 86) or raises
      [KeyError: 0] (line 89); the names each step leaves and the
      [KeyError]s it can raise. Under copy-on-write no fill reaches the
      frame: [fillna_chained] with [cow = true] leaves it as it was.
    - [Describe]: the exploration statements of lines 52 to 80:
      [df.describe()] ([describe], with numpy's linear [quantile] and
      its two-branch [lerp]) and [df.isnull().sum()] ([isnull_sum]). C7:
      the numeric summary is ordered, min <= 25% <= 50% <= 75% <= max
      with the mean between min and max, and its counts add up; on a
      frame [read_csv] returns, [describe] never raises. C34: on an
      object column, count, unique, and a most frequent value with its
      count as top and freq, whatever the order of ties.
    - [Cut]: [pd.cut] with right-closed bins through numpy's binary
      search [bsearch_left], proved equal to the reference [count_below]
      and to the interval reading of the bins (C21), the severity
      buckets of line 155 (C22), the argument checks in pandas' order
      (C23), [add_severity] (C24) and the logarithmic step bound of the
      search (C25).
    - [Dates]: [pd.to_datetime] on [YYYY-MM-DD] strings ([parse_date]),
      [.dt.year] ([dt_year], int64 without NaT, float64 with) and
      [add_year]; the parse/print round trip of the date strings, the
      error on a string that does not match the [%Y-%m-%d] format
      inferred from the first date (C28), the conversion exactly within
      the datetime64[ns] range (C29) and the invariant with the year
      range (C30); the per-year counts of line 117, which lose no dated
      row (C33).
    - [CrossTab]: [groupby([k1, k2]).size().unstack().fillna(0)] with
      [observed=False] as a [table]: after line 155, the three severity
      labels as columns whether observed or not, the sorted categories
      as rows and each count read off the frame (C31); its total (C32).
    - [Script]: [script], the run from line 82 on, and [program], the
      whole file: [read_csv], the [df.info()] table ([info]),
      [describe], then [script], in the monad [M], emitting [PrintInfo],
      [PrintFrame], [PrintCounts] and one [ShowChart] per plot with the
      arguments of its plotting calls. C4: on a frame with the columns
      the run needs ([script_ready]) the script runs to its end, and
      C16: a run that ends had every column it reads ([script_columns]);
      C5: every [KeyError] the run raises names a missing column it
      reads, but for the [KeyError: 0] of [mode()[0]]; C15: the
      exploration statements do not change the run; C17: a file holding
      only a header stops the run at line 89 with [KeyError: 0]; C20:
      the manufacturer chart of line 136 shows the ten makes with most
      rows, each with its count, whatever the order of ties; the example
      [program_sample_run] runs the whole program on the text of a
      sample file; C13: the script refines the staged pipeline of the
      specification ([pipeline]: clean, derive, then aggregate): it
      completes exactly when the pipeline does and shows the charts of
      the pipeline's views, although it derives [severity] after two
      charts.

    Witnesses.  Every theorem with a hypothesis has a closed lemma
    [<name>_witness] that applies it on a small concrete frame, column
    or text, the hypotheses discharged by evaluation.

    Fuel.  Two loops of the code are not structural.  numpy's
    [searchsorted] halves the window [hi - lo] at each step;
    [bsearch_left] takes its fuel as an argument, [searchsorted_left]
    gives it [length bins], enough since the window shrinks by one at
    least ([bsearch_left_correct] holds for any fuel at least
    [hi - lo]), and C25 shows that [log2 n + 1] steps already give the
    same result, the bound of the C code.  The renaming loop of
    [_get_header] runs [while cur_count > 0]; [mangle_loop] gets fuel
    one more than the number of columns, and C36 shows the loop
    exits by its own condition within it: each step tries a new name
    [old.k] and only the names of the columns can be taken (a pigeonhole
    argument).  Everything else is structural recursion.

    Numbers.  pandas keeps [Total.Fatal.Injuries] as float64 (int64
    when every field is a whole number in range); the model keeps
    exact rationals [Q], normalised by [Qred] so that equal numbers are
    equal cells, with int64 columns holding whole numbers between
    [-2^63] and [2^63 - 1].  A mean is therefore the exact quotient of
    the sum by the count, not its rounded float, and the std row of
    [describe()] is kept as its square, the sample variance.  Dates are kept as
    year, month, day in [Z], and the datetime64[ns] range as the int64
    bound on nanoseconds since the epoch, written out.

    Ordering.  [sort_values(ascending=False)] and [value_counts()] are
    modelled with a stable sort.  pandas sorts there with numpy's
    quicksort, which keeps ties in input order on arrays of at most
    sixteen entries and not in general.  The claims about sorted views
    (C10, C11, C12, C20, C34) are stated so that they hold for any order
    of ties; the model's order of tied labels in the bar charts (which
    of two makes with equal counts comes first) is the one behaviour of
    the charts it fixes where pandas does not.

    Versions.  The model follows pandas 2.x: groupby on a categorical
    key with [observed=False], and chained [fillna(inplace=True)]
    updating the frame when copy-on-write is off.  The flag [cow] of
    [Impute] and [Script] turns copy-on-write on (the default of pandas
    3), under which that update is lost.  It models that change only,
    not pandas 3's other new defaults ([observed=True], the string
    dtype): [cow = true] is pandas 2 with copy-on-write enabled.

    Not modelled, and why.  Reading the bytes of the file from disk
    and their ISO-8859-1 decoding: pure I/O, every byte being one
    character, so the model starts from the text.  The index values of
    the frame: the script never reads them (only the number of index
    columns matters, and it is kept).  The float spellings [inf] and
    [infinity]: exact rationals have no infinity.  Boolean and uint64
    columns of the dtype inference, and integers beyond the uint64
    range: they need cells (booleans, objects mixing booleans with NaN,
    integers of twenty digits) that no column of the script holds; the
    model reads booleans as strings and every integer outside the int64
    range as float64, where pandas reads [2^63] to [2^64 - 1] as uint64
    and larger integers as strings.  The rendering of the charts into pixels: pure output of
    matplotlib and seaborn; every argument the script passes to the
    plotting calls (figure size, kind, marker, title, labels, grid,
    data, legend, tick rotation) is modelled.  The memory-usage line of
    [df.info()]: a property of the Python process, not of the data.
    The mean and quantile rows of [describe()] on a datetime column:
    timestamps with a time of day, outside the [date] cells, and a
    branch line 58 does not reach.  Date strings other than
    [YYYY-MM-DD]: pandas infers a format from the first non-NaN string
    ([guess_datetime_format]) and parses the others with it; the model
    fixes the format to [%Y-%m-%d], the one inferred from the NTSB
    file's dates, and rejects every other string, including a first
    string of another format (pandas would convert the column) and the
    strings pandas still reads under [%Y-%m-%d] (one-digit months or
    days, blanks, [NaT], [now], [today]).  [pd.cut] of a column that is
    not numeric: the model raises [TypeError] for any such column, as
    searchsorted does on strings; pandas cuts an object column holding
    only NaN to NaN.  The imports (lines
    38 to 41) and the Markdown text of the notebook: no behaviour. *)

From stdpp Require Export base list sets strings sorting.
From Stdlib Require Export QArith Qreduction.
From Stdlib Require Qcanon.

Declare Scope pd_scope.
Delimit Scope pd_scope with pd.
Open Scope nat_scope.
Open Scope pd_scope.

(** ** Exceptions raised by the pandas calls of the script *)

Inductive exn : Type :=
| KeyError (key : string)
| ValueError (msg : string)
| TypeError (msg : string)
| OutOfBoundsDatetime (msg : string)
| AttributeError (msg : string)
| ParserError (msg : string)     (** [pandas.errors.ParserError] *)
| EmptyDataError (msg : string)  (** [pandas.errors.EmptyDataError] *).

#[export] Instance exn_eq_dec : EqDecision exn.
Proof. solve_decision. Defined.

(** Rationals compared by representation; the cells keep them reduced. *)
#[export] Instance Q_eq_dec : EqDecision Q.
Proof.
  intros [a b] [c d]. unfold Decision. decide equality; [apply Pos.eq_dec | apply Z.eq_dec].
Defined.

(** A computation that returns a value or raises. *)
Inductive result (A : Type) : Type :=
| Ok (a : A)
| Err (e : exn).
Arguments Ok {A} a.
Arguments Err {A} e.

Definition res_bind {A B} (r : result A) (k : A -> result B) : result B :=
  match r with
  | Ok a => k a
  | Err e => Err e
  end.

Notation "x <- r ;; k" := (res_bind r (fun x => k))
  (at level 100, r at next level, right associativity) : pd_scope.

Definition is_ok {A} (r : result A) : bool :=
  match r with Ok _ => true | Err _ => false end.

(** ** Output of the script and the writer-and-error monad

    The script prints two values and shows five charts; an exception
    stops it, but what it printed or showed before stays on screen.
    [M O A] is a computation that emits a list of outputs of type [O] and
    then returns an [A] or raises. *)

Definition M (O A : Type) : Type := (list O * result A)%type.

Definition mret {O A} (a : A) : M O A := ([], Ok a).
Definition mraise {O A} (e : exn) : M O A := ([], Err e).
Definition mlift {O A} (r : result A) : M O A := ([], r).
Definition emit {O} (o : O) : M O unit := ([o], Ok tt).

Definition mbind {O A B} (m : M O A) (k : A -> M O B) : M O B :=
  match m with
  | (w, Ok a) => let '(w', r) := k a in (w ++ w', r)
  | (w, Err e) => (w, Err e)
  end.

Notation "x <-- m ;;; k" := (mbind m (fun x => k))
  (at level 100, m at next level, right associativity) : pd_scope.

(** ** Counting *)

Definition count_of {A} `{EqDecision A} (x : A) (l : list A) : nat :=
  length (filter (fun y => y = x) l).

(** The non-missing cells of a column, in order. *)
Definition present {A} (s : list (option A)) : list A := omap (fun o => o) s.

Create HintDb pandas.
Create Rewrite HintDb pandas.

(** ** Shared lemmas *)

Lemma res_bind_Ok {A B} (a : A) (k : A -> result B) : res_bind (Ok a) k = k a.
Proof. reflexivity. Qed.

Lemma res_bind_Err {A B} (e : exn) (k : A -> result B) : res_bind (Err e) k = Err e.
Proof. reflexivity. Qed.

Lemma res_bind_eq_Ok {A B} (r : result A) (k : A -> result B) (b : B) :
  res_bind r k = Ok b -> exists a, r = Ok a /\ k a = Ok b.
Proof. destruct r; simpl; [eauto | discriminate]. Qed.

Lemma res_bind_eq_Err {A B} (r : result A) (k : A -> result B) (e : exn) :
  res_bind r k = Err e -> r = Err e \/ exists a, r = Ok a /\ k a = Err e.
Proof. destruct r; simpl; [eauto | intros [= ->]; auto]. Qed.

Lemma mbind_Err_emitted {O A B} (w : list O) (e : exn) (k : A -> M O B) :
  mbind (w, Err e) k = (w, Err e).
Proof. reflexivity. Qed.

Lemma mbind_prefix {O A B} (m : M O A) (k : A -> M O B) :
  exists w', (mbind m k).1 = m.1 ++ w'.
Proof.
  destruct m as [w [a|e]]; simpl.
  - destruct (k a) as [w' r]. eauto.
  - exists []. by rewrite app_nil_r.
Qed.

#[export] Hint Rewrite @res_bind_Ok @res_bind_Err @mbind_Err_emitted : pandas.

Section Counting.
Context {A : Type} `{EqDecision A}.

Lemma count_of_nil (x : A) : count_of x [] = 0.
Proof. reflexivity. Qed.

Lemma count_of_cons (x y : A) (l : list A) :
  count_of x (y :: l) = (if decide (y = x) then 1 else 0) + count_of x l.
Proof. unfold count_of. rewrite filter_cons. by case_decide. Qed.

Lemma count_of_app (x : A) (l1 l2 : list A) :
  count_of x (l1 ++ l2) = count_of x l1 + count_of x l2.
Proof. unfold count_of. by rewrite filter_app, length_app. Qed.

Lemma count_of_not_elem (x : A) (l : list A) : x ∉ l -> count_of x l = 0.
Proof.
  induction l as [|y l IH]; intros Hx; [done|].
  rewrite count_of_cons, IH by set_solver.
  case_decide; subst; [set_solver | done].
Qed.

Lemma count_of_pos (x : A) (l : list A) : x ∈ l -> 0 < count_of x l.
Proof.
  induction l as [|y l IH]; intros Hx; [set_solver|].
  rewrite count_of_cons. apply elem_of_cons in Hx as [->|Hx].
  - rewrite decide_True by done. lia.
  - specialize (IH Hx). lia.
Qed.

Lemma count_of_elem (x : A) (l : list A) : 0 < count_of x l -> x ∈ l.
Proof.
  intros H. destruct (decide (x ∈ l)) as [|Hn]; [done|]. rewrite count_of_not_elem in H by done. lia.
Qed.

Lemma count_of_le_length (x : A) (l : list A) : count_of x l <= length l.
Proof. apply length_filter. Qed.

Lemma count_of_Permutation (x : A) (l1 l2 : list A) :
  l1 ≡ₚ l2 -> count_of x l1 = count_of x l2.
Proof. intros Hp. unfold count_of. by rewrite Hp. Qed.

Lemma sum_list_with_ext {B} (f g : B -> nat) (l : list B) :
  (forall x, f x = g x) -> sum_list_with f l = sum_list_with g l.
Proof. intros E. induction l; simpl; congruence. Qed.

Lemma sum_list_with_plus {B} (f g : B -> nat) (l : list B) :
  sum_list_with (fun k => f k + g k) l = sum_list_with f l + sum_list_with g l.
Proof. induction l; simpl; lia. Qed.

Lemma sum_indicator_not_elem (y : A) (ks : list A) :
  y ∉ ks -> sum_list_with (fun k => if decide (y = k) then 1 else 0) ks = 0.
Proof.
  induction ks as [|k ks IH]; intros Hy; [done|]. simpl.
  rewrite decide_False, IH; [done | |]; intros ?; apply Hy; subst; constructor; done.
Qed.

Lemma sum_indicator_NoDup (y : A) (ks : list A) :
  NoDup ks -> y ∈ ks ->
  sum_list_with (fun k => if decide (y = k) then 1 else 0) ks = 1.
Proof.
  induction ks as [|k ks IH]; intros Hnd Hy; [set_solver|].
  apply NoDup_cons in Hnd as [Hk Hnd]. simpl.
  case_decide as E.
  - subst. by rewrite sum_indicator_not_elem.
  - rewrite IH; [done | done |]. apply elem_of_cons in Hy as [->|]; done.
Qed.

(** Counting every value of a duplicate-free list of keys that covers [l]
    accounts for every element of [l] exactly once. *)
Lemma sum_counts_NoDup (ks l : list A) :
  NoDup ks -> (forall x, x ∈ l -> x ∈ ks) ->
  sum_list_with (fun k => count_of k l) ks = length l.
Proof.
  intros Hnd. induction l as [|y l IH]; intros Hcov.
  - simpl. clear Hcov Hnd. induction ks; simpl; auto.
  - rewrite (sum_list_with_ext _ (fun k => (if decide (y = k) then 1 else 0) + count_of k l))
      by (intros; apply count_of_cons).
    rewrite sum_list_with_plus.
    rewrite sum_indicator_NoDup, IH by set_solver. simpl. lia.
Qed.

Lemma present_elem (s : list (option A)) (x : A) : x ∈ present s <-> Some x ∈ s.
Proof.
  unfold present. rewrite list_elem_of_omap. split.
  - by intros (o & Ho & ->).
  - eauto.
Qed.

End Counting.

(** Counting a value among the non-NaN cells counts the rows holding it. *)
Lemma count_of_present {A} `{EqDecision A} (x : A) (s : list (option A)) : count_of x (present s) = count_of (Some x) s.
Proof.
  induction s as [|[a|] s IH]; [done| |]; unfold present in *; csimpl; rewrite ?count_of_cons, IH.
  - destruct (decide (a = x)) as [->|Hne]; [by rewrite decide_True|].
    by rewrite decide_False by congruence.
  - by rewrite decide_False by congruence.
Qed.

Lemma NoDup_take {A} (l : list A) (k : nat) : NoDup l -> NoDup (take k l).
Proof. intros H. rewrite <- (take_drop k l) in H. by apply NoDup_app in H as [? _]. Qed.

Lemma StronglySorted_take {A} (R : A -> A -> Prop) (l : list A) (k : nat) :
  StronglySorted R l -> StronglySorted R (take k l).
Proof.
  revert k. induction l as [|x l IH]; intros [|k] Hs; csimpl; [constructor..|].
  apply StronglySorted_inv in Hs as [Hs Hx]. constructor; [by apply IH|].
  rewrite Forall_forall in Hx |- *. intros y Hy. apply Hx. rewrite <- (take_drop k l). apply elem_of_app. by left.
Qed.

Lemma present_app {A} (s1 s2 : list (option A)) :
  present (s1 ++ s2) = present s1 ++ present s2.
Proof. unfold present. by rewrite omap_app. Qed.

Lemma length_present {A} (s : list (option A)) : length (present s) <= length s.
Proof. induction s as [|[a|] s IH]; simpl; lia. Qed.

#[export] Hint Resolve count_of_le_length length_present : pandas.
#[export] Hint Rewrite @count_of_cons @count_of_app @present_app : pandas.

Lemma Sorted_weaken {A} (R S : A -> A -> Prop) (l : list A) :
  (forall a b, R a b -> S a b) -> Sorted R l -> Sorted S l.
Proof.
  intros HRS. induction 1 as [|x l _ IH Hhd]; constructor; [done|].
  destruct Hhd; constructor. by apply HRS.
Qed.

Lemma Sorted_cons2_iff {A} (R : A -> A -> Prop) (a b : A) (l : list A) :
  Sorted R (a :: b :: l) <-> R a b /\ Sorted R (b :: l).
Proof.
  split; [intros H; inversion H as [|? ? Hs Hh]; inversion Hh; auto|].
  intros [Hab Hs]. by constructor; [|constructor].
Qed.

Lemma sum_list_with_fmap {A B} (f : A -> B) (g : B -> nat) (l : list A) :
  sum_list_with g (f <$> l) = sum_list_with (fun x => g (f x)) l.
Proof. induction l as [|a l IH]; csimpl; [done|]. by rewrite IH. Qed.

Lemma sorted_strongly {A} (R : A -> A -> Prop) (l : list A) :
  (forall a b c, R a b -> R b c -> R a c) -> Sorted R l -> StronglySorted R l.
Proof. intros Htr. apply Sorted_StronglySorted. intros ???. apply Htr. Qed.

Lemma sorted_strongly_iff {A} {R : A -> A -> Prop} (Htr : forall a b c, R a b -> R b c -> R a c)
    (l : list A) : Sorted R l <-> StronglySorted R l.
Proof. split; [by apply sorted_strongly | apply StronglySorted_Sorted]. Qed.

(** A sorted list without duplicates is strictly sorted. *)
Lemma StronglySorted_NoDup_strict {A} (R : A -> A -> Prop) (l : list A) :
  StronglySorted R l -> NoDup l -> StronglySorted (fun a b => R a b /\ a <> b) l.
Proof.
  induction 1 as [|x l _ IH Hx]; intros Hnd; [constructor|].
  apply NoDup_cons in Hnd as [Hn Hnd]. constructor; [by apply IH|].
  rewrite Forall_forall in Hx |- *. intros y Hy. split; [by apply Hx|]. intros ->. done.
Qed.

Lemma foldr_max_ge (x : nat) (xs : list nat) : x ∈ xs -> x <= foldr Nat.max 0 xs.
Proof.
  induction xs as [|y xs IH]; simpl; [set_solver|].
  intros [->|Hx]%elem_of_cons; [lia|]. specialize (IH Hx). lia.
Qed.

Lemma foldr_max_elem (xs : list nat) : xs <> [] -> foldr Nat.max 0 xs ∈ xs.
Proof.
  induction xs as [|y xs IH]; simpl; [done|]. intros _.
  destruct xs as [|z xs]; simpl in *.
  - rewrite Nat.max_0_r. set_solver.
  - destruct (Nat.max_spec y (Nat.max z (foldr Nat.max 0 xs))) as [[_ ->]|[_ ->]].
    + apply elem_of_cons. right. by apply IH.
    + set_solver.
Qed.

Lemma length_filter_is_Some {A} (s : list (option A)) :
  length (filter (fun o => is_Some o) s) = length (present s).
Proof.
  induction s as [|o s IH]; [done|]. rewrite filter_cons.
  destruct o as [a|]; case_decide as Hd; simpl; rewrite ?IH; try done.
  exfalso. apply Hd. eauto.
Qed.

(** Case analysis on the boolean comparisons of [Z] in the goal and the
    hypotheses, closed by [lia]. *)
Ltac zbool_cases :=
  repeat match goal with
  | |- context [(?x <? ?y)%Z] => destruct (Z.ltb_spec x y)
  | |- context [(?x <=? ?y)%Z] => destruct (Z.leb_spec x y)
  | |- context [(?x =? ?y)%Z] => destruct (Z.eqb_spec x y)
  | H : context [(?x <? ?y)%Z] |- _ => destruct (Z.ltb_spec x y)
  | H : context [(?x <=? ?y)%Z] |- _ => destruct (Z.leb_spec x y)
  | H : context [(?x =? ?y)%Z] |- _ => destruct (Z.eqb_spec x y)
  end; simpl in *; try discriminate; try lia; try tauto.

(** Split the [result] equations of a run into those of its steps: a
    bind that returned [Ok] ran every step with [Ok]; a bind that raised
    had a step that raised. *)
Ltac res_inv :=
  repeat match goal with
  | H : res_bind _ _ = Ok _ |- _ => apply res_bind_eq_Ok in H as (? & ? & H)
  | H : res_bind _ _ = Err _ |- _ => apply res_bind_eq_Err in H as [H | (? & ? & H)]
  | H : Ok _ = Ok _ |- _ => injection H as H
  | H : Ok _ = Err _ |- _ => discriminate H
  | H : Err _ = Ok _ |- _ => discriminate H
  | H : Err _ = Err _ |- _ => injection H as H
  end.
