(* ===== verification/Series.v ===== *)
(** * Series: the counting and sorting operations of pandas

    A pandas Series of a key type [K] is a list of [option K], [None]
    standing for NaN.  This file models, generically in [K], the
    operations the script applies to Series:
    - [uniq]: the distinct values in order of first appearance (the
      hash-table order of [value_counts]);
    - [value_counts] ([Series.value_counts], lines 102, 175, 190) and
      [groupby_size] ([DataFrame.groupby(key).size()], lines 117, 136);
    - [isort], the stable insertion sort behind [sort_values] and the
      descending order of [value_counts];
    - [head] ([Series.head(n)], lines 136, 175, 190) and [mode]
      ([Series.mode()], line 89).
    [groupby_size] and [mode] sort keys, so they require the interface
    [KeyOrder]: a decidable total order on keys, which [Frame]
    implements for cells. *)

From S2P Require Import Prelude.
Open Scope nat_scope.

(** The order on keys that groupby and mode sort by: a decidable total
    preorder (pandas compares float keys by value). *)
Class KeyOrder (K : Type) := {
  key_leb : K -> K -> bool;
  key_leb_total : forall a b, key_leb a b = true \/ key_leb b a = true;
  key_leb_trans : forall a b c,
    key_leb a b = true -> key_leb b c = true -> key_leb a c = true
}.


(** ** Definitions *)

Section SortDefs.
Context {A : Type} (le : A -> A -> bool).

(** Stable insertion: [x] goes before the first element it is [le] to,
    hence after every element it is strictly greater than, and before
    the elements it ties with. *)
Fixpoint insert_by (x : A) (l : list A) : list A :=
  match l with
  | [] => [x]
  | y :: l' => if le x y then x :: l else y :: insert_by x l'
  end.

Fixpoint isort (l : list A) : list A :=
  match l with
  | [] => []
  | x :: l' => insert_by x (isort l')
  end.
End SortDefs.

(** Descending order by a count [m]: [a] goes before [b] when [m b <= m a]. *)
Definition desc_leb {A} (m : A -> nat) (a b : A) : bool := Nat.leb (m b) (m a).

Definition sorted_desc {A} (m : A -> nat) (l : list A) : Prop :=
  Sorted (fun a b => m b <= m a) l.

(** The elements of count [c], in their order. *)
Definition ties {A} (m : A -> nat) (c : nat) (l : list A) : list A :=
  filter (fun a => m a = c) l.

(** The distinct values of [l] in order of first appearance. *)
Fixpoint uniq {K} `{EqDecision K} (l : list K) : list K :=
  match l with
  | [] => []
  | x :: l' => x :: filter (fun y => y <> x) (uniq l')
  end.

(** Every distinct value with its number of occurrences, in order of
    first appearance (the order of pandas' hash table). *)
Definition count_pairs {K} `{EqDecision K} (l : list K) : list (K * nat) :=
  (fun k => (k, count_of k l)) <$> uniq l.

(** [Series.value_counts]: the counts in decreasing order, ties in order
    of first appearance. *)
Definition value_counts {K} `{EqDecision K} (l : list K) : list (K * nat) :=
  isort (desc_leb snd) (count_pairs l).

(** [value_counts(dropna=...)] on a Series: with [dropna] the NaN cells
    are not counted; without it NaN is a key of its own. *)
Definition series_value_counts {K} `{EqDecision K} (dropna : bool)
    (s : list (option K)) : list (option K * nat) :=
  value_counts (if dropna then filter (fun o => is_Some o) s else s).

(** [sort_values(ascending=False)] on a Series of counts. *)
Definition sort_values_desc {A} (l : list (A * nat)) : list (A * nat) :=
  isort (desc_leb snd) l.

(** [Series.head(n)]: the first [n] entries, all of them when fewer. *)
Definition head {A} (n : nat) (l : list A) : list A := take n l.

Definition key_pair_leb {K} `{KeyOrder K} (a b : K * nat) : bool := key_leb a.1 b.1.

(** [df.groupby(key).size()]: the NaN keys are dropped and the groups
    come out sorted by key (groupby's default [sort=True]). *)
Definition groupby_size {K} `{EqDecision K} `{KeyOrder K} (s : list (option K))
    : list (K * nat) :=
  isort key_pair_leb (count_pairs (present s)).

(** The highest number of occurrences of a value of [l]. *)
Definition max_count {K} `{EqDecision K} (l : list K) : nat :=
  foldr Nat.max 0 ((fun k => count_of k l) <$> uniq l).

(** [Series.mode()]: the values of highest count, sorted; NaN is not a
    value (dropna=True). *)
Definition mode {K} `{EqDecision K} `{KeyOrder K} (s : list (option K)) : list K :=
  let p := present s in
  isort key_leb (filter (fun k => count_of k p = max_count p) (uniq p)).

(** ** Sorting lemmas *)

Section SortLemmas.
Context {A : Type} (le : A -> A -> bool).

Lemma insert_by_perm (x : A) (l : list A) : insert_by le x l ≡ₚ x :: l.
Proof.
  induction l as [|y l IH]; simpl; [done|].
  destruct (le x y); [done|]. rewrite IH. by constructor.
Qed.

Lemma isort_perm (l : list A) : isort le l ≡ₚ l.
Proof.
  induction l as [|x l IH]; simpl; [done|].
  by rewrite insert_by_perm, IH.
Qed.

Lemma length_isort (l : list A) : length (isort le l) = length l.
Proof. apply Permutation_length, isort_perm. Qed.

Lemma elem_of_isort (x : A) (l : list A) : x ∈ isort le l <-> x ∈ l.
Proof. by rewrite isort_perm. Qed.

Context (le_total : forall a b, le a b = true \/ le b a = true).

Lemma insert_by_sorted (x : A) (l : list A) :
  Sorted (fun a b => le a b = true) l ->
  Sorted (fun a b => le a b = true) (insert_by le x l).
Proof.
  induction 1 as [|y l Hs IH Hhd]; simpl; [by repeat constructor|].
  destruct (le x y) eqn:Exy; [by repeat constructor|].
  constructor; [done|].
  assert (le y x = true) by (destruct (le_total x y); congruence).
  destruct l as [|z l]; simpl; [by repeat constructor|].
  inversion Hhd; subst. simpl in IH.
  destruct (le x z); by constructor.
Qed.

Lemma isort_sorted (l : list A) : Sorted (fun a b => le a b = true) (isort le l).
Proof. induction l; simpl; [constructor | by apply insert_by_sorted]. Qed.
End SortLemmas.

#[export] Hint Resolve isort_perm insert_by_perm : pandas.
#[export] Hint Rewrite @length_isort @elem_of_isort : pandas.

Section DescLemmas.
Context {A : Type} (m : A -> nat).

Lemma desc_leb_total a b : desc_leb m a b = true \/ desc_leb m b a = true.
Proof.
  unfold desc_leb. destruct (m b <=? m a) eqn:E; [by left|right].
  apply Nat.leb_gt in E. apply Nat.leb_le. lia.
Qed.

Lemma isort_desc_sorted (l : list A) : sorted_desc m (isort (desc_leb m) l).
Proof.
  eapply Sorted_weaken; [|apply isort_sorted, desc_leb_total].
  intros a b H. unfold desc_leb in H. by apply Nat.leb_le in H.
Qed.

Lemma ties_insert (c : nat) (x : A) (l : list A) :
  ties m c (insert_by (desc_leb m) x l) =
  if decide (m x = c) then x :: ties m c l else ties m c l.
Proof.
  unfold ties. induction l as [|y l IH]; simpl.
  - by rewrite filter_cons, filter_nil.
  - destruct (desc_leb m x y) eqn:E.
    + rewrite filter_cons. by case_decide.
    + unfold desc_leb in E. apply Nat.leb_gt in E.
      rewrite !filter_cons, IH. repeat case_decide; try lia; done.
Qed.

(** Stability: within each count, the sort keeps the input order. *)
Lemma isort_desc_ties (c : nat) (l : list A) :
  ties m c (isort (desc_leb m) l) = ties m c l.
Proof.
  induction l as [|x l IH]; simpl; [done|].
  rewrite ties_insert, IH. unfold ties. rewrite filter_cons. by case_decide.
Qed.

Lemma sorted_desc_strongly (l : list A) :
  sorted_desc m l -> StronglySorted (fun a b => m b <= m a) l.
Proof. apply sorted_strongly. intros ???; lia. Qed.

Lemma sorted_desc_max (x : A) (l : list A) :
  sorted_desc m (x :: l) -> forall y, y ∈ x :: l -> m y <= m x.
Proof.
  intros Hs%sorted_desc_strongly y Hy.
  apply elem_of_cons in Hy as [->|Hy]; [lia|].
  inversion Hs as [|? ? _ Hall]; subst. rewrite Forall_forall in Hall. by apply Hall.
Qed.

Lemma ties_elem (c : nat) (x : A) (l : list A) : x ∈ ties m c l <-> x ∈ l /\ m x = c.
Proof. unfold ties. rewrite list_elem_of_filter. tauto. Qed.

(** Two lists sorted by decreasing count, with the same ties in the
    same order for every count, are equal. *)
Lemma sorted_desc_ties_unique (l1 l2 : list A) :
  sorted_desc m l1 -> sorted_desc m l2 -> (forall c, ties m c l1 = ties m c l2) -> l1 = l2.
Proof.
  revert l2. induction l1 as [|x l1 IH]; intros [|y l2] H1 H2 Ht; try done.
  - specialize (Ht (m y)). unfold ties in Ht. rewrite filter_cons, decide_True in Ht; done.
  - specialize (Ht (m x)). unfold ties in Ht. rewrite filter_cons, decide_True in Ht; done.
  - assert (m x = m y) as Exy.
    { pose proof (Ht (m x)) as Hx. pose proof (Ht (m y)) as Hy.
      assert (x ∈ ties m (m x) (y :: l2)) as Ix by (rewrite <- Hx; apply ties_elem; set_solver).
      assert (y ∈ ties m (m y) (x :: l1)) as Iy by (rewrite Hy; apply ties_elem; set_solver).
      apply ties_elem in Ix as [Ix _]. apply ties_elem in Iy as [Iy _].
      pose proof (sorted_desc_max _ _ H2 _ Ix). pose proof (sorted_desc_max _ _ H1 _ Iy). lia. }
    assert (x = y) as <-.
    { specialize (Ht (m x)). unfold ties in Ht.
      rewrite !filter_cons, !decide_True in Ht by lia. by injection Ht. }
    f_equal. apply IH.
    + by apply Sorted_inv in H1 as [? _].
    + by apply Sorted_inv in H2 as [? _].
    + intros c. specialize (Ht c). unfold ties in *. rewrite !filter_cons in Ht.
      case_decide; [by injection Ht | done].
Qed.

Lemma sorted_desc_take_drop (l : list A) (n : nat) (a b : A) :
  sorted_desc m l -> a ∈ take n l -> b ∈ drop n l -> m b <= m a.
Proof.
  intros Hs%sorted_desc_strongly Ha Hb. rewrite <- (take_drop n l) in Hs.
  exact (StronglySorted_app_1_elem_of _ _ _ _ _ Hs Ha Hb).
Qed.

Lemma sorted_desc_fmap (l : list A) :
  sorted_desc m l -> StronglySorted (fun x y : nat => y <= x) (m <$> l).
Proof.
  intros Hs. apply sorted_strongly; [intros ???; lia|].
  by apply (Sorted_fmap m (fun a b => m b <= m a)).
Qed.
End DescLemmas.

(** ** Counting lemmas *)

Section CountLemmas.
Context {K : Type} `{EqDecision K}.

Lemma elem_of_uniq (x : K) (l : list K) : x ∈ uniq l <-> x ∈ l.
Proof.
  induction l as [|y l IH]; simpl; [done|].
  rewrite !elem_of_cons, list_elem_of_filter, IH.
  destruct (decide (x = y)); naive_solver.
Qed.

Lemma NoDup_uniq (l : list K) : NoDup (uniq l).
Proof.
  induction l as [|y l IH]; simpl; [constructor|].
  apply NoDup_cons. split.
  - rewrite list_elem_of_filter. naive_solver.
  - by apply NoDup_filter.
Qed.

Lemma uniq_nil (l : list K) : uniq l = [] <-> l = [].
Proof. destruct l; simpl; done. Qed.

Lemma elem_of_count_pairs (k : K) (c : nat) (l : list K) :
  (k, c) ∈ count_pairs l <-> k ∈ l /\ c = count_of k l.
Proof.
  unfold count_pairs. rewrite list_elem_of_fmap. split.
  - intros (k' & [= -> ->] & Hk). by rewrite elem_of_uniq in Hk.
  - intros [Hk ->]. exists k. by rewrite elem_of_uniq.
Qed.

Lemma NoDup_count_pairs_keys (l : list K) : NoDup (fst <$> count_pairs l).
Proof.
  unfold count_pairs. rewrite <- list_fmap_compose.
  rewrite (list_fmap_ext _ (fun k => k)) by done. rewrite list_fmap_id.
  apply NoDup_uniq.
Qed.

Lemma count_pairs_total (l : list K) : sum_list_with snd (count_pairs l) = length l.
Proof.
  unfold count_pairs. rewrite sum_list_with_fmap. simpl.
  apply sum_counts_NoDup; [apply NoDup_uniq|]. intros x. by rewrite elem_of_uniq.
Qed.

Lemma isort_sum (le : K * nat -> K * nat -> bool) (l : list (K * nat)) :
  sum_list_with snd (isort le l) = sum_list_with snd l.
Proof. apply sum_list_with_Permutation_proper, isort_perm. Qed.

Lemma isort_keys_NoDup (le : K * nat -> K * nat -> bool) (l : list K) :
  NoDup (fst <$> isort le (count_pairs l)).
Proof. rewrite isort_perm. apply NoDup_count_pairs_keys. Qed.

Lemma count_le_max_count (k : K) (l : list K) : k ∈ l -> count_of k l <= max_count l.
Proof.
  intros Hk. apply foldr_max_ge, list_elem_of_fmap. exists k. by rewrite elem_of_uniq.
Qed.

Lemma max_count_attained (l : list K) :
  l <> [] -> exists k, k ∈ l /\ count_of k l = max_count l.
Proof.
  intros Hl. unfold max_count.
  destruct (list_elem_of_fmap_1 (fun k => count_of k l) (uniq l)
    (foldr Nat.max 0 ((fun k => count_of k l) <$> uniq l)))
    as (k & Hk & Ek).
  { apply foldr_max_elem. intros E. apply fmap_nil_inv in E. rewrite uniq_nil in E. contradiction. }
  exists k. rewrite elem_of_uniq in Ek. by rewrite <- Hk.
Qed.
End CountLemmas.

Section OrderLemmas.
Context {K : Type} `{EqDecision K} `{KeyOrder K}.

Lemma key_pair_leb_total (a b : K * nat) :
  key_pair_leb a b = true \/ key_pair_leb b a = true.
Proof. apply key_leb_total. Qed.

Lemma max_count_spec (p : list K) (x : K) :
  (x ∈ p /\ count_of x p = max_count p) <->
  (x ∈ p /\ forall y, y ∈ p -> count_of y p <= count_of x p).
Proof.
  split.
  - intros [Hx E]. split; [done|]. intros y Hy. rewrite E. by apply count_le_max_count.
  - intros [Hx Hmax]. split; [done|].
    destruct (max_count_attained p) as (k & Hk & Ek); [intros ->; set_solver|].
    pose proof (count_le_max_count x p Hx). specialize (Hmax k Hk). lia.
Qed.
End OrderLemmas.

(** ** Properties of the aggregation operations *)

(** C8. [value_counts] lists every value of the Series exactly once, with
    its number of occurrences, and nothing else. *)
Theorem value_counts_spec {K} `{EqDecision K} (l : list K) :
  (forall k c, (k, c) ∈ value_counts l <-> k ∈ l /\ c = count_of k l) /\
  NoDup (fst <$> value_counts l).
Proof.
  split; [intros k c | apply isort_keys_NoDup].
  unfold value_counts. by rewrite elem_of_isort, elem_of_count_pairs.
Qed.

(** The counts of [value_counts] add up to the number of counted
    records: the non-NaN cells with [dropna=True], every cell without. *)
Theorem series_value_counts_total {K} `{EqDecision K} (dropna : bool) (s : list (option K)) :
  sum_list_with snd (series_value_counts dropna s) =
  if dropna then length (present s) else length s.
Proof.
  unfold series_value_counts, value_counts. rewrite isort_sum, count_pairs_total.
  destruct dropna; [apply length_filter_is_Some | done].
Qed.

(** C9. [groupby(key).size()] has one entry per distinct non-NaN key,
    with the number of records of that key, sorted by key, and its
    counts add up to the number of records whose key is not NaN. *)
Theorem groupby_size_spec {K} `{EqDecision K} `{KeyOrder K} (s : list (option K)) :
  (forall k c, (k, c) ∈ groupby_size s <-> Some k ∈ s /\ c = count_of k (present s)) /\
  NoDup (fst <$> groupby_size s) /\
  Sorted (fun a b => key_leb a.1 b.1 = true) (groupby_size s) /\
  sum_list_with snd (groupby_size s) = length (present s).
Proof.
  unfold groupby_size. split_and!.
  - intros k c. by rewrite elem_of_isort, elem_of_count_pairs, present_elem.
  - apply isort_keys_NoDup.
  - apply (isort_sorted key_pair_leb key_pair_leb_total).
  - by rewrite isort_sum, count_pairs_total.
Qed.

(** The model's tie order: the stable descending sort, the unique list
    that is sorted by decreasing count and keeps, for every count, the
    entries of that count in input order.  pandas sorts with numpy's
    quicksort, which does not keep ties in order on longer arrays; the
    properties below hold whatever the order of ties. *)
Lemma sort_values_desc_stable {A} (l l' : list (A * nat)) :
  (sorted_desc snd l' /\ forall c, ties snd c l' = ties snd c l) <->
  l' = sort_values_desc l.
Proof.
  unfold sort_values_desc. split.
  - intros [Hs Ht]. apply (sorted_desc_ties_unique snd); [done | apply isort_desc_sorted |].
    intros c. by rewrite Ht, isort_desc_ties.
  - intros ->. split; [apply isort_desc_sorted | intros c; apply isort_desc_ties].
Qed.

(** C10. [sort_values(ascending=False)] meets the contract of a sort,
    the one numpy's unstable quicksort meets too: its result is a
    reordering of the entries, each pair of them in decreasing order of
    count. *)
Theorem sort_values_desc_spec {A} (l : list (A * nat)) :
  sort_values_desc l ≡ₚ l /\ StronglySorted (fun a b => b.2 <= a.2) (sort_values_desc l).
Proof.
  split; [apply isort_perm|]. apply sorted_strongly; [intros; lia | apply isort_desc_sorted].
Qed.

(** C11. [head(n)] after [sort_values(ascending=False)] keeps [min n len]
    entries, every kept entry has a count at least that of every dropped
    one, and kept and dropped entries together are the input. *)
Theorem head_top_n {A} (n : nat) (l : list (A * nat)) :
  length (head n (sort_values_desc l)) = Nat.min n (length l) /\
  (forall a b, a ∈ head n (sort_values_desc l) -> b ∈ drop n (sort_values_desc l) ->
     b.2 <= a.2) /\
  head n (sort_values_desc l) ++ drop n (sort_values_desc l) ≡ₚ l.
Proof.
  unfold head, sort_values_desc. split_and!.
  - by rewrite length_take, length_isort.
  - intros a b. apply sorted_desc_take_drop, isort_desc_sorted.
  - by rewrite take_drop, isort_perm.
Qed.

(** C12. The counts shown by a top-[n] view do not depend on how ties are
    ordered: any descending reordering of the same entries has the same
    first [n] counts as the stable sort. *)
Theorem top_counts_tie_independent {A} (n : nat) (l l' : list (A * nat)) :
  l' ≡ₚ l -> sorted_desc snd l' ->
  snd <$> head n l' = snd <$> head n (sort_values_desc l).
Proof.
  intros Hp Hs. unfold head. rewrite !fmap_take. f_equal.
  apply (StronglySorted_unique_strong (fun x y : nat => y <= x)).
  - intros x1 x2 _ _. lia.
  - by apply sorted_desc_fmap.
  - apply sorted_desc_fmap, isort_desc_sorted.
  - unfold sort_values_desc. by rewrite isort_perm, Hp.
Qed.

Section ModeLemmas.
Context {K : Type} `{EqDecision K} `{KeyOrder K}.

Lemma elem_of_mode (s : list (option K)) (x : K) :
  x ∈ mode s <->
  Some x ∈ s /\ forall y, Some y ∈ s -> count_of y (present s) <= count_of x (present s).
Proof.
  unfold mode. rewrite elem_of_isort, list_elem_of_filter, elem_of_uniq, <- present_elem.
  rewrite (and_comm (count_of _ _ = _)), max_count_spec.
  setoid_rewrite present_elem. done.
Qed.

Lemma mode_sorted (s : list (option K)) : Sorted (fun a b => key_leb a b = true) (mode s).
Proof. apply isort_sorted, key_leb_total. Qed.

Lemma mode_nil (s : list (option K)) : mode s = [] <-> present s = [].
Proof.
  split.
  - intros E. destruct (present s) as [|p0 p] eqn:Ep; [done|].
    destruct (max_count_attained (p0 :: p)) as (k & Hk & Ek); [done|].
    assert (k ∈ mode s) as Hin.
    { unfold mode. rewrite Ep. by rewrite elem_of_isort, list_elem_of_filter, elem_of_uniq. }
    rewrite E in Hin. set_solver.
  - intros Ep. unfold mode. by rewrite Ep.
Qed.

(** The first value of the mode is the least of the modes. *)
Lemma mode_head_least (s : list (option K)) (v : K) (rest : list K) :
  mode s = v :: rest -> forall y, y ∈ mode s -> key_leb v y = true.
Proof.
  intros E y Hy. pose proof (mode_sorted s) as Hs. rewrite E in Hs, Hy.
  apply (sorted_strongly _ _ key_leb_trans) in Hs.
  apply elem_of_cons in Hy as [->|Hy].
  - destruct (key_leb_total v v); done.
  - inversion Hs as [|? ? _ Hall]; subst. rewrite Forall_forall in Hall. by apply Hall.
Qed.
End ModeLemmas.

(** C14. [mode()] returns the non-NaN values of highest count, sorted, and
    is empty exactly when every cell is NaN. *)
Theorem mode_spec {K} `{EqDecision K} `{KeyOrder K} (s : list (option K)) :
  (forall x, x ∈ mode s <->
     Some x ∈ s /\ forall y, Some y ∈ s -> count_of y (present s) <= count_of x (present s)) /\
  Sorted (fun a b => key_leb a b = true) (mode s) /\
  (mode s = [] <-> present s = []).
Proof. split_and!; [apply elem_of_mode | apply mode_sorted | apply mode_nil]. Qed.

(** ** Witnesses *)

Lemma top_counts_tie_independent_witness :
  snd <$> head 2 [(3, 2); (2, 2); (1, 1)] =
  snd <$> head 2 (sort_values_desc [(1, 1); (2, 2); (3, 2)]).
Proof.
  apply top_counts_tie_independent.
  - solve_Permutation.
  - repeat constructor; simpl; lia.
Defined.
