(* ===== verification/Frame.v ===== *)
(** * Frame: cells, columns and the DataFrame the script mutates

    A pandas DataFrame is modelled as its number of rows and an
    association list from column names to columns, in column order.  A
    column has a dtype and a list of cells, [None] standing for NaN (or
    NaT).  The script reads columns with [df[name]] (lines 86, 89, 102,
    113, 116, 155, 175, 190), assigns them with [df[name] = ...] (lines
    113, 116, 155) and drops two with [df.drop(columns=...,
    errors='ignore')] (line 83); [getitem], [setitem] and
    [drop_columns] model these.  [frame_wf] is the invariant pandas
    maintains: distinct column names, every column as long as the
    frame, every cell of its column's dtype.  The dtypes are those the
    script meets: object, float64, int64 (whole numbers in the signed
    64-bit range, never NaN), datetime64[ns] (valid dates whose
    nanosecond count fits in int64, [valid_date] and [in_bounds]) and
    category.  The file also gives cells
    the [KeyOrder] of [Series], the order pandas sorts keys in. *)

From S2P Require Import Prelude Series.
Open Scope nat_scope.

(** ** Data *)

(** A calendar day, as [Timestamp.year], [.month], [.day] give it. *)
Record date := mkDate { ts_year : Z; ts_month : Z; ts_day : Z }.

(** A non-missing cell: a string of an object column, a number of a
    float64 or int64 column (an exact rational, kept reduced), or a
    datetime64 day. *)
Inductive scalar : Type :=
| SStr (s : string)
| SNum (q : Q)
| SDate (d : date).

(** The dtypes the script's columns take: object (strings), float64,
    datetime64, the categorical dtype [pd.cut] produces with its
    ordered list of categories, and the integer dtype [read_csv] gives a
    column of whole numbers without NaN ([Int64]; [.dt.year] gives
    int32, whose values and grouping are the same). *)
Inductive dtype : Type :=
| Object
| Float64
| Datetime64
| Category (cats : list string)
| Int64.

Record column := mkColumn { col_dtype : dtype; col_cells : list (option scalar) }.

Record frame := mkFrame { nrows : nat; cols : list (string * column) }.

#[export] Instance date_eq_dec : EqDecision date.
Proof. intros [y1 m1 d1] [y2 m2 d2]. unfold Decision. decide equality; apply Z.eq_dec. Defined.

#[export] Instance scalar_eq_dec : EqDecision scalar.
Proof. solve_decision. Defined.

#[export] Instance dtype_eq_dec : EqDecision dtype.
Proof. solve_decision. Defined.

Definition col_names (f : frame) : list string := fst <$> cols f.

(** ** Cells and their dtype *)

(** The range of a signed 64-bit integer. *)
Definition INT64_MIN : Z := (- 2 ^ 63)%Z.
Definition INT64_MAX : Z := (2 ^ 63 - 1)%Z.

Definition int64_ok (z : Z) : bool := (INT64_MIN <=? z)%Z && (z <=? INT64_MAX)%Z.

(** ** Calendar days and the datetime64[ns] range *)

Definition is_leap (y : Z) : bool :=
  ((Z.modulo y 4 =? 0) && negb (Z.modulo y 100 =? 0) || (Z.modulo y 400 =? 0))%Z.

Definition days_in_month (y m : Z) : Z :=
  match m with
  | 2%Z => if is_leap y then 29 else 28
  | 4%Z | 6%Z | 9%Z | 11%Z => 30
  | _ => 31
  end.

Definition valid_date (d : date) : bool :=
  ((1 <=? ts_month d) && (ts_month d <=? 12) &&
   (1 <=? ts_day d) && (ts_day d <=? days_in_month (ts_year d) (ts_month d)))%Z.

(** Days from 1970-01-01 to [d] (H. Hinnant's [days_from_civil]). *)
Definition days_from_civil (d : date) : Z :=
  let y := (if ts_month d <=? 2 then ts_year d - 1 else ts_year d)%Z in
  let era := (y / 400)%Z in
  let yoe := (y - era * 400)%Z in
  let mp := (if 2 <? ts_month d then ts_month d - 3 else ts_month d + 9)%Z in
  let doy := ((153 * mp + 2) / 5 + ts_day d - 1)%Z in
  let doe := (yoe * 365 + yoe / 4 - yoe / 100 + doy)%Z in
  (era * 146097 + doe - 719468)%Z.

Definition NS_PER_DAY : Z := (86400 * 1000000000)%Z.

(** datetime64[ns] holds the day when its nanosecond count is an int64. *)
Definition in_bounds (d : date) : bool := int64_ok (days_from_civil d * NS_PER_DAY).

(** A cell fits its column's dtype: an integer column holds whole
    numbers of the int64 range and, having no NaN, no missing cell; a
    datetime64[ns] column holds days of the calendar within its range. *)
Definition scalar_has_dtype (t : dtype) (v : scalar) : bool :=
  match t, v with
  | Object, SStr _ => true
  | Float64, SNum q => bool_decide (Qred q = q)
  | Int64, SNum q => bool_decide (Qden q = 1%positive) && int64_ok (Qnum q)
  | Datetime64, SDate d => valid_date d && in_bounds d
  | Category cats, SStr s => bool_decide (s ∈ cats)
  | _, _ => false
  end.

Definition cell_ok (t : dtype) (o : option scalar) : bool :=
  match o with
  | Some v => scalar_has_dtype t v
  | None => if decide (t = Int64) then false else true
  end.

Definition column_wf (n : nat) (c : column) : Prop :=
  length (col_cells c) = n /\ Forall (fun o => cell_ok (col_dtype c) o = true) (col_cells c).

Definition frame_wf (f : frame) : Prop :=
  NoDup (col_names f) /\ Forall (fun p => column_wf (nrows f) p.2) (cols f).

#[export] Instance column_wf_dec n c : Decision (column_wf n c).
Proof. unfold column_wf. apply _. Defined.

#[export] Instance frame_wf_dec f : Decision (frame_wf f).
Proof. unfold frame_wf. apply _. Defined.

(** ** The order pandas sorts keys in

    Within a dtype: numbers by value, strings by code point (the file is
    decoded as ISO-8859-1, so a character is one byte), days by date.
    Keys of one column share a dtype; the order across kinds only makes
    the relation total. *)

Definition date_leb (a b : date) : bool :=
  (ts_year a <? ts_year b)%Z ||
  ((ts_year a =? ts_year b)%Z &&
   ((ts_month a <? ts_month b)%Z ||
    ((ts_month a =? ts_month b)%Z && (ts_day a <=? ts_day b)%Z))).

Definition scalar_rank (v : scalar) : nat :=
  match v with SNum _ => 0 | SStr _ => 1 | SDate _ => 2 end.

Definition scalar_leb (a b : scalar) : bool :=
  match a, b with
  | SNum x, SNum y => Qle_bool x y
  | SStr x, SStr y => String.leb x y
  | SDate x, SDate y => date_leb x y
  | _, _ => Nat.ltb (scalar_rank a) (scalar_rank b)
  end.

(** ** Operations *)

(** The column called [name], the first one when names repeat. *)
Fixpoint col_lookup (name : string) (cs : list (string * column)) : option column :=
  match cs with
  | [] => None
  | (n, c) :: cs' => if decide (n = name) then Some c else col_lookup name cs'
  end.

(** Replace the column called [name] in place, or append it at the end. *)
Fixpoint col_assign (name : string) (c : column) (cs : list (string * column))
    : list (string * column) :=
  match cs with
  | [] => [(name, c)]
  | (n, c0) :: cs' =>
      if decide (n = name) then (n, c) :: cs' else (n, c0) :: col_assign name c cs'
  end.

(** [df[name]]: a missing column raises [KeyError]. *)
Definition getitem (f : frame) (name : string) : result column :=
  match col_lookup name (cols f) with
  | Some c => Ok c
  | None => Err (KeyError name)
  end.

(** [df.drop(columns=names, errors='ignore')]: names that are not
    columns are skipped. *)
Definition drop_columns (names : list string) (f : frame) : frame :=
  mkFrame (nrows f) (filter (fun p => p.1 ∉ names) (cols f)).

(** [df[name] = c]: a column of another length raises [ValueError]; the
    script only assigns Series computed from the frame itself. *)
Definition setitem (f : frame) (name : string) (c : column) : result frame :=
  if decide (length (col_cells c) = nrows f)
  then Ok (mkFrame (nrows f) (col_assign name c (cols f)))
  else Err (ValueError "Length of values does not match length of index").

(** [df.head(n)]: the first [n] rows. *)
Definition frame_head (n : nat) (f : frame) : frame :=
  mkFrame (Nat.min n (nrows f))
    ((fun p => (p.1, mkColumn (col_dtype p.2) (take n (col_cells p.2)))) <$> cols f).

(** A two-column frame, for the witnesses. *)
Definition frame_sample : frame :=
  mkFrame 2 [("Make", mkColumn Object [Some (SStr "Boeing"); None]);
             ("Aircraft.damage", mkColumn Object [None; Some (SStr "Destroyed")])].

(** ** The key order on cells *)

Lemma date_leb_spec (a b : date) :
  date_leb a b = true <->
  (ts_year a < ts_year b \/ ts_year a = ts_year b /\
   (ts_month a < ts_month b \/ ts_month a = ts_month b /\ ts_day a <= ts_day b))%Z.
Proof.
  unfold date_leb. rewrite orb_true_iff, andb_true_iff, orb_true_iff, andb_true_iff.
  rewrite Z.ltb_lt, Z.eqb_eq, Z.ltb_lt, Z.eqb_eq, Z.leb_le. done.
Qed.

Lemma date_leb_total (a b : date) : date_leb a b = true \/ date_leb b a = true.
Proof. rewrite !date_leb_spec. lia. Qed.

Lemma date_leb_trans (a b c : date) :
  date_leb a b = true -> date_leb b c = true -> date_leb a c = true.
Proof. rewrite !date_leb_spec. lia. Qed.

Lemma Qle_bool_total (x y : Q) : Qle_bool x y = true \/ Qle_bool y x = true.
Proof.
  rewrite !Qle_bool_iff. destruct (Qlt_le_dec x y); [left; by apply Qlt_le_weak | by right].
Qed.

Lemma Qle_bool_trans (x y z : Q) :
  Qle_bool x y = true -> Qle_bool y z = true -> Qle_bool x z = true.
Proof. rewrite !Qle_bool_iff. apply Qle_trans. Qed.

Lemma string_leb_trans (x y z : string) :
  String.leb x y = true -> String.leb y z = true -> String.leb x z = true.
Proof.
  intros Hxy Hyz. apply Is_true_true_1. change (String.le x z).
  transitivity y; by apply Is_true_true_2.
Qed.

#[export] Instance scalar_key_order : KeyOrder scalar.
Proof.
  refine {| key_leb := scalar_leb |}.
  - intros [a|a|a] [b|b|b]; simpl; auto using String.leb_total, Qle_bool_total, date_leb_total.
  - intros [a|a|a] [b|b|b] [c|c|c]; simpl; try done;
      eauto using string_leb_trans, Qle_bool_trans, date_leb_trans.
Defined.

(** ** Lemmas on the association list of columns *)

Lemma col_lookup_elem (name : string) (c : column) (cs : list (string * column)) :
  col_lookup name cs = Some c -> (name, c) ∈ cs.
Proof.
  induction cs as [|[n c0] cs IH]; simpl; [done|].
  case_decide; [intros [= ->]; subst; set_solver | set_solver].
Qed.

Lemma col_lookup_assign (name name' : string) (c : column) (cs : list (string * column)) :
  col_lookup name' (col_assign name c cs) =
  if decide (name = name') then Some c else col_lookup name' cs.
Proof.
  induction cs as [|[n c0] cs IH]; simpl.
  - by repeat case_decide.
  - repeat (case_decide; simpl); subst; try done.
Qed.

Lemma col_assign_names (name : string) (c : column) (cs : list (string * column)) :
  fst <$> col_assign name c cs =
  if decide (name ∈ fst <$> cs) then fst <$> cs else (fst <$> cs) ++ [name].
Proof.
  induction cs as [|[n c0] cs IH].
  - rewrite decide_False; [done | apply not_elem_of_nil].
  - cbn [col_assign]. destruct (decide (n = name)) as [->|Hne]; rewrite !fmap_cons; cbn [fst].
    + rewrite decide_True; [done | by left].
    + rewrite IH. destruct (decide (name ∈ fst <$> cs)) as [Hin|Hin].
      * rewrite decide_True; [done | by right].
      * rewrite decide_False; [done|]. intros [->|?]%elem_of_cons; done.
Qed.

Lemma col_assign_Forall (P : string * column -> Prop) (name : string) (c : column)
    (cs : list (string * column)) :
  Forall P cs -> P (name, c) -> Forall P (col_assign name c cs).
Proof.
  induction 1 as [|[n c0] cs Hp Hcs IH]; simpl; intros Hc; [by constructor|].
  case_decide; subst; constructor; auto.
Qed.

Lemma NoDup_col_assign (name : string) (c : column) (cs : list (string * column)) :
  NoDup (fst <$> cs) -> NoDup (fst <$> col_assign name c cs).
Proof.
  intros Hnd. rewrite col_assign_names. case_decide; [done|].
  apply NoDup_app. split_and!; [done| |by apply NoDup_singleton]. set_solver.
Qed.

Lemma column_wf_take (n k : nat) (t : dtype) (cells : list (option scalar)) :
  column_wf n (mkColumn t cells) -> column_wf (Nat.min k n) (mkColumn t (take k cells)).
Proof.
  intros [Hl Hok]. unfold column_wf in *; cbn [col_cells col_dtype] in *.
  split; [by rewrite length_take, Hl|].
  by apply Forall_take.
Qed.

Lemma names_filter (names : list string) (cs : list (string * column)) :
  fst <$> filter (fun p => p.1 ∉ names) cs = filter (fun n => n ∉ names) (fst <$> cs).
Proof.
  induction cs as [|[n c] cs IH]; [done|].
  rewrite fmap_cons, !filter_cons. cbn [fst]. case_decide; by rewrite ?fmap_cons, IH.
Qed.

Lemma filter_all_true {A} (P : A -> Prop) `{forall x, Decision (P x)} (l : list A) :
  (forall x, x ∈ l -> P x) -> filter P l = l.
Proof.
  induction l as [|x l IH]; intros HP; [done|].
  rewrite filter_cons, decide_True by (apply HP; by left).
  f_equal. apply IH. intros y Hy. apply HP. by right.
Qed.

Lemma Forall_filter_sub {A} (P : A -> Prop) (Q : A -> Prop) `{forall x, Decision (Q x)}
    (l : list A) :
  Forall P l -> Forall P (filter Q l).
Proof.
  rewrite !Forall_forall. intros HP x Hx. apply list_elem_of_filter in Hx as [_ Hx]. by apply HP.
Qed.

Lemma getitem_wf (f : frame) (name : string) (c : column) :
  frame_wf f -> getitem f name = Ok c -> column_wf (nrows f) c.
Proof.
  intros [_ Hcols]. unfold getitem. destruct (col_lookup name (cols f)) eqn:E; [|done].
  intros [= <-]. apply col_lookup_elem in E. rewrite Forall_forall in Hcols.
  by apply (Hcols (name, c0)).
Qed.

Lemma setitem_ok (f : frame) (name : string) (c : column) :
  length (col_cells c) = nrows f ->
  exists f', setitem f name c = Ok f' /\ nrows f' = nrows f /\
    forall name', getitem f' name' = if decide (name = name') then Ok c else getitem f name'.
Proof.
  intros Hl. unfold setitem. rewrite decide_True by done.
  eexists. split_and!; [done | done |]. intros name'. unfold getitem. cbn [cols].
  rewrite col_lookup_assign. by case_decide.
Qed.

Lemma setitem_wf (f f' : frame) (name : string) (c : column) :
  frame_wf f -> column_wf (nrows f) c -> setitem f name c = Ok f' -> frame_wf f'.
Proof.
  intros [Hnd Hcols] Hc. unfold setitem. case_decide; [|done]. intros [= <-].
  split; cbn [cols nrows col_names]; [by apply NoDup_col_assign | by apply col_assign_Forall].
Qed.

Lemma drop_columns_wf (names : list string) (f : frame) :
  frame_wf f -> frame_wf (drop_columns names f).
Proof.
  intros [Hnd Hcols]. split; unfold drop_columns; cbn [nrows].
  - unfold col_names. cbn [cols]. rewrite names_filter. by apply NoDup_filter.
  - by apply Forall_filter_sub.
Qed.

(** A column that is not dropped reads the same. *)
Lemma getitem_drop_columns (names : list string) (f : frame) (name : string) :
  name ∉ names -> getitem (drop_columns names f) name = getitem f name.
Proof.
  intros Hn. unfold getitem, drop_columns. cbn [cols]. f_equal.
  induction (cols f) as [|[n c] cs IH]; [done|]. rewrite filter_cons. cbn [fst].
  case_decide as Hnn; cbn [col_lookup]; rewrite ?IH; case_decide; subst; done.
Qed.

(** What a successful [df[name] = c] did. *)
Lemma setitem_Ok (f f' : frame) (name : string) (c : column) :
  setitem f name c = Ok f' ->
  length (col_cells c) = nrows f /\ nrows f' = nrows f /\
  forall name', getitem f' name' = if decide (name = name') then Ok c else getitem f name'.
Proof.
  intros Hs. assert (length (col_cells c) = nrows f) as Hl by (unfold setitem in Hs; by case_decide).
  destruct (setitem_ok f name c Hl) as (f'' & Hs' & Hn & Hg). rewrite Hs in Hs'.
  by injection Hs' as <-.
Qed.

(** A column of the frame can be read. *)
Lemma getitem_elem (f : frame) (name : string) :
  name ∈ col_names f -> exists c, getitem f name = Ok c.
Proof.
  unfold getitem, col_names. induction (cols f) as [|[n c] cs IH]; [set_solver|].
  cbn. intros Hin. case_decide; [by exists c|]. apply IH.
  apply elem_of_cons in Hin as [->|]; [done | done].
Qed.

(** ** Which names a step leaves, which errors it raises *)

Lemma getitem_Ok_elem (f : frame) (name : string) (c : column) :
  getitem f name = Ok c -> name ∈ col_names f.
Proof.
  unfold getitem. case_match eqn:E; [intros [= <-] | done]. apply col_lookup_elem in E.
  unfold col_names. apply list_elem_of_fmap. by exists (name, c0).
Qed.

(** [df[name]] raises only [KeyError name], and only for a missing name. *)
Lemma getitem_Err (f : frame) (name : string) (e : exn) :
  getitem f name = Err e -> e = KeyError name /\ name ∉ col_names f.
Proof.
  intros H. split; [unfold getitem in H; case_match; congruence|].
  intros Hin. destruct (getitem_elem f name Hin) as [c Hc]. congruence.
Qed.

Lemma setitem_Err (f : frame) (name : string) (c : column) (e : exn) :
  setitem f name c = Err e -> e = ValueError "Length of values does not match length of index".
Proof. unfold setitem. case_decide; congruence. Qed.

Lemma setitem_names (f f' : frame) (name : string) (c : column) :
  setitem f name c = Ok f' -> forall x, x ∈ col_names f' <-> x ∈ col_names f \/ x = name.
Proof.
  unfold setitem. case_decide; [intros [= <-] | done]. intros x. unfold col_names. cbn [cols].
  rewrite col_assign_names. case_decide; set_solver.
Qed.

Lemma drop_columns_names (names : list string) (f : frame) (x : string) :
  x ∈ col_names (drop_columns names f) <-> x ∈ col_names f /\ x ∉ names.
Proof.
  unfold col_names, drop_columns. cbn [cols]. rewrite names_filter, list_elem_of_filter. tauto.
Qed.

(** ** Properties of the frame operations *)

(** [df.drop(columns=names, errors='ignore')] removes exactly the
    named columns that exist, keeps the others in order and the rows,
    and leaves the frame unchanged when none of the names is a column. *)
Theorem drop_columns_spec (names : list string) (f : frame) :
  col_names (drop_columns names f) = filter (fun n => n ∉ names) (col_names f) /\
  nrows (drop_columns names f) = nrows f /\
  ((forall n, n ∈ names -> n ∉ col_names f) -> drop_columns names f = f).
Proof.
  unfold drop_columns, col_names; cbn [cols nrows]. split_and!; [apply names_filter | done |].
  intros Habs. destruct f as [n cs]. cbn [cols nrows] in *. f_equal.
  apply filter_all_true. intros [nm c] Hin Hnm. apply (Habs nm Hnm).
  apply list_elem_of_fmap. by exists (nm, c).
Qed.

(** C26. [df[name] = c] then [df[name']] reads [c] back at [name] and
    the old column anywhere else; the assignment succeeds exactly when
    [c] has the frame's length, and keeps the rows. *)
Theorem setitem_getitem (f : frame) (name : string) (c : column) :
  (is_ok (setitem f name c) = true <-> length (col_cells c) = nrows f) /\
  forall f', setitem f name c = Ok f' ->
    nrows f' = nrows f /\
    forall name', getitem f' name' = if decide (name = name') then Ok c else getitem f name'.
Proof.
  split.
  - unfold setitem. case_decide; simpl; split; done.
  - intros f' Hs. by destruct (setitem_Ok f f' name c Hs) as (_ & ? & ?).
Qed.

(** C27. The frame invariant (distinct names, equal lengths, cells of
    the column's dtype) is kept by [drop], by [setitem] of a well-formed
    column and by [head], and [getitem] reads well-formed columns. *)
Theorem frame_ops_wf (f : frame) :
  frame_wf f ->
  (forall names, frame_wf (drop_columns names f)) /\
  (forall name c f', column_wf (nrows f) c -> setitem f name c = Ok f' -> frame_wf f') /\
  (forall name c, getitem f name = Ok c -> column_wf (nrows f) c) /\
  (forall n, frame_wf (frame_head n f)).
Proof.
  intros Hwf. pose proof Hwf as [Hnd Hcols]. split_and!.
  - intros names. by apply drop_columns_wf.
  - intros name c f' Hc. by apply setitem_wf.
  - intros name c. by apply getitem_wf.
  - intros n. split; unfold frame_head, col_names; cbn [cols nrows].
    + by rewrite <- list_fmap_compose.
    + apply Forall_fmap. eapply Forall_impl; [apply Hcols|]. intros [nm [t cells]] Hw.
      by apply column_wf_take.
Qed.

(** ** Witnesses *)

Lemma frame_ops_wf_witness :
  frame_wf (drop_columns ["Aircraft.damage"] frame_sample) /\ frame_wf (frame_head 1 frame_sample).
Proof.
  destruct (frame_ops_wf frame_sample) as (Hd & _ & _ & Hh).
  - apply (bool_decide_unpack _). vm_compute. exact I.
  - split; [apply Hd | apply Hh].
Defined.
