(* ===== verification/Csv.v ===== *)
(** * Csv: the tokenizer of [pd.read_csv], line 45

    Line 45 reads [AviationData.csv] with pandas' C engine.  Its first
    stage, [tokenizer.c], is a state machine over the characters of the
    file that cuts it into records of fields.  The script uses the
    defaults: delimiter [,], the double quote as quote character with
    [doublequote=True] (two quotes inside a quoted field stand for one),
    no escape character, no comment character, [skip_blank_lines=True]
    and the line terminators LF, CR LF and a lone CR.  The file is read
    as ISO-8859-1, where every byte is one character: a Rocq [ascii] is
    that byte, so decoding is the identity and the model reads the file
    as a [string].

    [tstate] has the states of [tokenizer.c] that these options reach,
    [tok] the tokenizer's buffers (the field being read, the fields of
    the record being read and the records read, each in reverse), and
    [tok_step] one character's transition, written case by case after
    the C [switch]; the C code re-reads a character in a few states
    (the fall through from START_RECORD to START_FIELD, the character
    after a lone CR), which [tok_step] does by calling the other state's
    case.  [tok_eof] is [parser_handle_eof]: a quoted field still open
    at the end of the file raises [ParserError].

    The theorems: the tokenizer inverts a writer that quotes every field
    (for LF and for CR LF line ends), blank and whitespace-only lines
    between records are skipped, and an unclosed quote raises. *)

From S2P Require Import Prelude.
From Stdlib Require Import Ascii.
Open Scope nat_scope.

(** ** Characters *)

Definition QUOTE : ascii := Ascii.ascii_of_nat 34.
Definition DELIM : ascii := ","%char.
Definition LF : ascii := Ascii.ascii_of_nat 10.
Definition CR : ascii := Ascii.ascii_of_nat 13.

(** [IS_WHITESPACE]: a space or a tab. *)
Definition is_ws (c : ascii) : bool :=
  (c =? " ")%char || (c =? Ascii.ascii_of_nat 9)%char.

(** ** The state machine *)

Inductive tstate : Type :=
| StartRecord | StartField | InField | InQuotedField | QuoteInQuotedField
| EatCRNL | EatCRNLNop | WhitespaceLine.

Record tok := mkTok {
  t_state : tstate;
  t_field : list ascii;           (** the current field, reversed *)
  t_record : list string;         (** the fields of the current record, reversed *)
  t_rows : list (list string)     (** the records so far, reversed *)
}.

Definition tok_init : tok := mkTok StartRecord [] [] [].

Definition set_state (st : tstate) (tk : tok) : tok :=
  mkTok st (t_field tk) (t_record tk) (t_rows tk).

(** [PUSH_CHAR]. *)
Definition push_char (c : ascii) (tk : tok) : tok :=
  mkTok (t_state tk) (c :: t_field tk) (t_record tk) (t_rows tk).

(** [END_FIELD]. *)
Definition end_field (tk : tok) : tok :=
  mkTok (t_state tk) [] (String.string_of_list_ascii (rev (t_field tk)) :: t_record tk) (t_rows tk).

(** [END_LINE]: the record is stored and the next one starts. *)
Definition end_line (tk : tok) : tok :=
  mkTok StartRecord (t_field tk) [] (rev (t_record tk) :: t_rows tk).

(** A skipped line leaves no field behind. *)
Definition skip_line (st : tstate) (tk : tok) : tok :=
  mkTok st [] (t_record tk) (t_rows tk).

(** case START_FIELD *)
Definition start_field (tk : tok) (c : ascii) : tok :=
  if (c =? LF)%char then end_line (end_field tk)
  else if (c =? CR)%char then set_state EatCRNL (end_field tk)
  else if (c =? QUOTE)%char then set_state InQuotedField tk
  else if (c =? DELIM)%char then set_state StartField (end_field tk)
  else set_state InField (push_char c tk).

(** case IN_FIELD *)
Definition in_field (tk : tok) (c : ascii) : tok :=
  if (c =? LF)%char then end_line (end_field tk)
  else if (c =? CR)%char then set_state EatCRNL (end_field tk)
  else if (c =? DELIM)%char then set_state StartField (end_field tk)
  else push_char c tk.

(** case START_RECORD: a blank line is skipped, a line that starts with
    blanks may be a whitespace line, anything else starts a field. *)
Definition start_record (tk : tok) (c : ascii) : tok :=
  if (c =? LF)%char then tk
  else if (c =? CR)%char then set_state EatCRNLNop tk
  else if is_ws c then set_state WhitespaceLine (push_char c tk)
  else start_field (set_state StartField tk) c.

(** One character.  In WHITESPACE_LINE the blanks read so far are kept
    in the field buffer: a line of blanks is skipped, and otherwise the C
    code backtracks to the start of the line and reads it from
    START_FIELD, which pushes the blanks into the field; the model
    continues in IN_FIELD with them. *)
Definition tok_step (tk : tok) (c : ascii) : tok :=
  match t_state tk with
  | StartRecord => start_record tk c
  | StartField => start_field tk c
  | InField => in_field tk c
  | InQuotedField =>
      if (c =? QUOTE)%char then set_state QuoteInQuotedField tk else push_char c tk
  | QuoteInQuotedField =>
      if (c =? QUOTE)%char then set_state InQuotedField (push_char c tk)
      else if (c =? DELIM)%char then set_state StartField (end_field tk)
      else if (c =? LF)%char then end_line (end_field tk)
      else if (c =? CR)%char then set_state EatCRNL (end_field tk)
      else set_state InField (push_char c tk)
  | EatCRNL =>
      if (c =? LF)%char then end_line tk
      else if (c =? DELIM)%char then set_state StartField (end_line tk)
      else start_record (end_line tk) c
  | EatCRNLNop =>
      if (c =? LF)%char || (c =? DELIM)%char then set_state StartRecord tk
      else start_record (set_state StartRecord tk) c
  | WhitespaceLine =>
      if (c =? LF)%char then skip_line StartRecord tk
      else if (c =? CR)%char then skip_line EatCRNLNop tk
      else if is_ws c then push_char c tk
      else in_field (set_state InField tk) c
  end.

(** [parser_handle_eof]. *)
Definition tok_eof (tk : tok) : result (list (list string)) :=
  match t_state tk with
  | StartRecord | WhitespaceLine | EatCRNLNop => Ok (rev (t_rows tk))
  | InQuotedField => Err (ParserError "Error tokenizing data. C error: EOF inside string")
  | StartField | InField | QuoteInQuotedField => Ok (rev (t_rows (end_line (end_field tk))))
  | EatCRNL => Ok (rev (t_rows (end_line tk)))
  end.

Definition tokenize (s : string) : result (list (list string)) :=
  tok_eof (fold_left tok_step (String.list_ascii_of_string s) tok_init).

(** ** A writer that quotes every field *)

Fixpoint escape (cs : list ascii) : list ascii :=
  match cs with
  | [] => []
  | c :: cs' => if (c =? QUOTE)%char then QUOTE :: QUOTE :: escape cs' else c :: escape cs'
  end.

Definition quote_field (f : string) : list ascii :=
  QUOTE :: escape (String.list_ascii_of_string f) ++ [QUOTE].

Fixpoint render_fields (fs : list string) : list ascii :=
  match fs with
  | [] => []
  | [f] => quote_field f
  | f :: fs' => quote_field f ++ DELIM :: render_fields fs'
  end.

(** A record with its line end [eol] (LF or CR LF). *)
Definition render_row (eol : list ascii) (r : list string) : list ascii :=
  render_fields r ++ eol.

Definition render (eol : list ascii) (rows : list (list string)) : string :=
  String.string_of_list_ascii (concat (render_row eol <$> rows)).

(** A line end the writer uses. *)
Definition eol_ok (eol : list ascii) : Prop := eol = [LF] \/ eol = [CR; LF].

(** The tokenizer's invariant: every record stored has a field, and in
    EAT_CRNL, where the record is stored on the next character without
    an [END_FIELD], the record being read has one already. *)
Definition tok_inv (tk : tok) : Prop :=
  Forall (fun r => r <> []) (t_rows tk) /\ (t_state tk = EatCRNL -> t_record tk <> []).

(** ** Lemmas *)

Lemma fold_tok_app (l1 l2 : list ascii) (tk : tok) :
  fold_left tok_step (l1 ++ l2) tk = fold_left tok_step l2 (fold_left tok_step l1 tk).
Proof. apply fold_left_app. Qed.

Lemma is_ws_cases (c : ascii) : is_ws c = true -> c = " "%char \/ c = Ascii.ascii_of_nat 9.
Proof. unfold is_ws. intros [E|E]%orb_true_iff; apply Ascii.eqb_eq in E; auto. Qed.

Lemma snoc_ne {A} (l : list A) (x : A) : l ++ [x] <> [].
Proof. by intros [_ ?]%app_eq_nil. Qed.

Lemma rev_ne {A} (l : list A) : l <> [] -> rev l <> [].
Proof. intros Hl Hr. apply Hl. by rewrite <- (rev_involutive l), Hr. Qed.

#[local] Hint Resolve snoc_ne rev_ne : core.

Lemma tok_step_inv (tk : tok) (c : ascii) : tok_inv tk -> tok_inv (tok_step tk c).
Proof.
  destruct tk as [st f r rs]. intros [Hrs Hst]. cbn in Hrs, Hst.
  destruct st; cbn in Hst |- *;
    unfold start_record, start_field, in_field, end_line, end_field, set_state,
      push_char, skip_line, tok_inv in *; cbn;
    repeat (case_match; cbn); split; try done; constructor; auto.
Qed.

Lemma fold_tok_inv (cs : list ascii) (tk : tok) :
  tok_inv tk -> tok_inv (fold_left tok_step cs tk).
Proof. revert tk. induction cs; intros tk H; cbn; [done|]. by apply IHcs, tok_step_inv. Qed.

(** Every record the tokenizer returns has at least one field. *)
Lemma tokenize_nonempty (s : string) (rows : list (list string)) :
  tokenize s = Ok rows -> Forall (fun r => r <> []) rows.
Proof.
  unfold tokenize. destruct (fold_tok_inv (String.list_ascii_of_string s) tok_init)
    as [Hrs Hst]; [split; [constructor | done]|].
  destruct (fold_left _ _ _) as [[] f r rs]; cbn in *; intros [=]; subst;
    try done; repeat (apply Forall_app_2 || apply Forall_rev || constructor); auto.
Qed.

(** Inside a quoted field the escaped text is read back character by
    character. *)
Lemma escape_run (cs : list ascii) (f : list ascii) (r : list string) (rows : list (list string)) :
  fold_left tok_step (escape cs) (mkTok InQuotedField f r rows) =
  mkTok InQuotedField (rev cs ++ f) r rows.
Proof.
  revert f. induction cs as [|c cs IH]; intros f; [done|]. cbn [escape].
  destruct (Ascii.eqb_spec c QUOTE) as [->|Hne]; cbn [fold_left rev].
  - change (tok_step (tok_step (mkTok InQuotedField f r rows) QUOTE) QUOTE) with
      (mkTok InQuotedField (QUOTE :: f) r rows).
    rewrite IH. by rewrite <- app_assoc.
  - replace (tok_step _ c) with (mkTok InQuotedField (c :: f) r rows)
      by (cbn; apply Ascii.eqb_neq in Hne; by rewrite Hne).
    rewrite IH. by rewrite <- app_assoc.
Qed.

(** A quoted field, from the start of a record or of a field. *)
Lemma field_run (st : tstate) (fld : string) (r : list string) (rows : list (list string)) :
  st = StartRecord \/ st = StartField ->
  fold_left tok_step (quote_field fld) (mkTok st [] r rows) =
  mkTok QuoteInQuotedField (rev (String.list_ascii_of_string fld)) r rows.
Proof.
  intros Hst. unfold quote_field. cbn [fold_left].
  replace (tok_step (mkTok st [] r rows) QUOTE) with (mkTok InQuotedField [] r rows)
    by (destruct Hst as [->| ->]; reflexivity).
  rewrite fold_tok_app, escape_run, app_nil_r. reflexivity.
Qed.

(** The transitions the writer's output takes after a quoted field. *)
Lemma step_quote_delim (f : list ascii) (r : list string) (rows : list (list string)) :
  tok_step (mkTok QuoteInQuotedField f r rows) DELIM =
  mkTok StartField [] (String.string_of_list_ascii (rev f) :: r) rows.
Proof. reflexivity. Qed.

Lemma step_quote_lf (f : list ascii) (r : list string) (rows : list (list string)) :
  tok_step (mkTok QuoteInQuotedField f r rows) LF =
  mkTok StartRecord [] [] (rev (String.string_of_list_ascii (rev f) :: r) :: rows).
Proof. reflexivity. Qed.

Lemma step_quote_cr (f : list ascii) (r : list string) (rows : list (list string)) :
  tok_step (mkTok QuoteInQuotedField f r rows) CR =
  mkTok EatCRNL [] (String.string_of_list_ascii (rev f) :: r) rows.
Proof. reflexivity. Qed.

Lemma step_crnl_lf (f : list ascii) (r : list string) (rows : list (list string)) :
  tok_step (mkTok EatCRNL f r rows) LF = mkTok StartRecord f [] (rev r :: rows).
Proof. reflexivity. Qed.

Lemma string_of_rev_rev (fld : string) :
  String.string_of_list_ascii (rev (rev (String.list_ascii_of_string fld))) = fld.
Proof. by rewrite rev_involutive, String.string_of_list_ascii_of_string. Qed.

(** A whole record with its line end. *)
Lemma row_run (eol : list ascii) (fs : list string) (fld : string) (st : tstate)
    (r : list string) (rows : list (list string)) :
  eol_ok eol -> st = StartRecord \/ st = StartField ->
  fold_left tok_step (render_row eol (fld :: fs)) (mkTok st [] r rows) =
  mkTok StartRecord [] [] ((rev r ++ fld :: fs) :: rows).
Proof.
  intros Heol. unfold render_row. revert fld st r.
  induction fs as [|g fs IH]; intros fld st r Hst.
  - change (render_fields [fld]) with (quote_field fld).
    rewrite fold_tok_app, field_run by done.
    destruct Heol as [-> | ->]; cbn [fold_left];
      by rewrite ?step_quote_cr, ?step_crnl_lf, ?step_quote_lf, string_of_rev_rev.
  - change (render_fields (fld :: g :: fs)) with (quote_field fld ++ DELIM :: render_fields (g :: fs)).
    rewrite <- app_assoc, fold_tok_app, field_run by done. cbn [app fold_left].
    rewrite step_quote_delim, string_of_rev_rev.
    rewrite IH by auto. cbn [rev]. by rewrite <- app_assoc.
Qed.

Lemma rows_run (eol : list ascii) (rows acc : list (list string)) :
  eol_ok eol -> Forall (fun r => r <> []) rows ->
  fold_left tok_step (concat (render_row eol <$> rows)) (mkTok StartRecord [] [] acc) =
  mkTok StartRecord [] [] (rev rows ++ acc).
Proof.
  intros Heol Hne. revert acc. induction Hne as [|[|fld fs] rows Hr Hne IH]; intros acc;
    [done | done |]. cbn [fmap list_fmap concat]. rewrite fold_tok_app, row_run by auto.
  rewrite IH. cbn [rev]. by rewrite <- app_assoc.
Qed.

(** Blanks in [WHITESPACE_LINE] are kept in the field buffer. *)
Lemma blanks_run (b : list ascii) (f : list ascii) (r : list string) (rows : list (list string)) :
  Forall (fun c => is_ws c = true) b ->
  fold_left tok_step b (mkTok WhitespaceLine f r rows) = mkTok WhitespaceLine (rev b ++ f) r rows.
Proof.
  intros Hb. revert f. induction Hb as [|c b Hc Hb IH]; intros f; [done|]. cbn [fold_left].
  replace (tok_step _ c) with (mkTok WhitespaceLine (c :: f) r rows)
    by (destruct (is_ws_cases c Hc) as [-> | ->]; reflexivity).
  rewrite IH. cbn [rev]. by rewrite <- app_assoc.
Qed.

(** A line of blanks, possibly empty, between records is skipped. *)
Lemma blank_line_run (eol b : list ascii) (rows : list (list string)) :
  eol_ok eol -> Forall (fun c => is_ws c = true) b ->
  fold_left tok_step (b ++ eol) (mkTok StartRecord [] [] rows) = mkTok StartRecord [] [] rows.
Proof.
  intros Heol Hb. rewrite fold_tok_app. destruct Hb as [|c b Hc Hb].
  - destruct Heol as [-> | ->]; reflexivity.
  - cbn [fold_left].
    replace (tok_step _ c) with (mkTok WhitespaceLine [c] [] rows)
      by (destruct (is_ws_cases c Hc) as [-> | ->]; reflexivity).
    rewrite blanks_run by done. destruct Heol as [-> | ->]; reflexivity.
Qed.

(** ** Properties of the tokenizer *)

(** C35. Round trip: the tokenizer reads back every list of non-empty
    records written with every field quoted (inner quotes doubled),
    commas between fields and LF or CR LF line ends, whatever the fields
    hold (commas, quotes, line breaks, blanks or nothing). *)
Theorem tokenize_render (eol : list ascii) (rows : list (list string)) :
  eol_ok eol -> Forall (fun r => r <> []) rows -> tokenize (render eol rows) = Ok rows.
Proof.
  intros Heol Hne. unfold tokenize, render, tok_init.
  rewrite String.list_ascii_of_string_of_list_ascii, rows_run by done.
  cbn. by rewrite app_nil_r, rev_involutive.
Qed.

(** [skip_blank_lines=True]: lines that are empty or hold only
    spaces and tabs, before any record, are skipped. *)
Theorem tokenize_skips_blank_lines (eol : list ascii) (blanks : list (list ascii))
    (rows : list (list string)) :
  eol_ok eol -> Forall (Forall (fun c => is_ws c = true)) blanks ->
  Forall (fun r => r <> []) rows -> length blanks = length rows ->
  tokenize (String.string_of_list_ascii
    (concat (zip_with (fun b r => b ++ eol ++ render_row eol r) blanks rows))) = Ok rows.
Proof.
  intros Heol Hb Hne Hlen. unfold tokenize, tok_init.
  rewrite String.list_ascii_of_string_of_list_ascii.
  enough (forall acc, fold_left tok_step
    (concat (zip_with (fun b r => b ++ eol ++ render_row eol r) blanks rows))
    (mkTok StartRecord [] [] acc) = mkTok StartRecord [] [] (rev rows ++ acc)) as ->.
  { cbn. by rewrite app_nil_r, rev_involutive. }
  revert blanks Hb Hlen. induction Hne as [|[|fld fs] rows Hr Hne IH];
    intros [|b blanks] Hb Hlen acc; try done; simpl in Hlen.
  inversion Hb as [|? ? Hb0 Hbs]; subst. cbn [zip_with concat].
  rewrite fold_tok_app, app_assoc, fold_tok_app, blank_line_run, row_run by auto.
  rewrite IH by (done || lia). cbn [rev]. by rewrite <- app_assoc.
Qed.

(** A quote that opens a field and is never closed raises
    [ParserError] (EOF inside string), whatever records come before. *)
Theorem tokenize_unclosed_quote (eol : list ascii) (rows : list (list string)) (t : list ascii) :
  eol_ok eol -> Forall (fun r => r <> []) rows -> Forall (fun c => c <> QUOTE) t ->
  tokenize (String.string_of_list_ascii (concat (render_row eol <$> rows) ++ QUOTE :: t)) =
  Err (ParserError "Error tokenizing data. C error: EOF inside string").
Proof.
  intros Heol Hne Ht. unfold tokenize, tok_init.
  rewrite String.list_ascii_of_string_of_list_ascii, fold_tok_app, rows_run by done.
  cbn [fold_left]. change (tok_step _ QUOTE) with (mkTok InQuotedField [] [] (rev rows ++ [])).
  enough (forall f, t_state (fold_left tok_step t (mkTok InQuotedField f [] (rev rows ++ []))) =
    InQuotedField) as Hs.
  { unfold tok_eof. by rewrite Hs. }
  induction Ht as [|c t Hc Ht IH]; intros f; [done|]. cbn [fold_left tok_step t_state].
  apply Ascii.eqb_neq in Hc. rewrite Hc. apply IH.
Qed.

(** ** Witnesses *)

Lemma tokenize_render_witness :
  tokenize (render [CR; LF] [["a"; ""]; ["x,y"]]) = Ok [["a"; ""]; ["x,y"]].
Proof.
  apply tokenize_render; [unfold eol_ok; right; reflexivity |].
  apply (bool_decide_unpack _). vm_compute. exact I.
Defined.
