(* ===== verification/Header.v ===== *)
(** * Header: the column names [read_csv] gives, line 45

    The first record of the file names the columns.  pandas' C engine
    ([TextReader._get_header] in [parsers.pyx]) names an empty header
    field [Unnamed: i] after its position [i], then makes the names
    distinct: it visits the named columns first and the unnamed ones
    after, and renames a column whose name was already taken to
    [name.k], trying [k] from the number of times [name] was seen and
    stepping past every [name.k] that is a column name of the header.
    The counts are a dict from names to numbers ([gmap string nat]), the
    header a list updated in place ([<[i := col]>]).

    The renaming loop is a [while] that the model runs on fuel, one
    more step than there are columns.  The theorems show that this fuel
    is never exhausted (the loop leaves with its condition false), that
    the names it gives are distinct, and that a header of distinct
    non-empty names is kept as it is. *)

From S2P Require Import Prelude.
From stdpp Require Import gmap pretty.
Open Scope nat_scope.

(** [f"{old_col}.{cur_count}"] *)
Definition suffixed (old : string) (m : nat) : string := old +:+ "." +:+ pretty m.

(** [while cur_count > 0: counts[old_col] = cur_count + 1;
    col = f"{old_col}.{cur_count}"; if col in this_header: cur_count += 1
    else: cur_count = counts.get(col, 0)]. *)
Fixpoint mangle_loop (fuel : nat) (hdr : list string) (counts : gmap string nat)
    (old col : string) (cur : nat) : gmap string nat * string * nat :=
  match fuel with
  | O => (counts, col, cur)
  | S fuel' =>
      match cur with
      | O => (counts, col, cur)
      | S _ =>
          let counts' := <[old := S cur]> counts in
          let col' := suffixed old cur in
          let cur' := if decide (col' ∈ hdr) then S cur else default 0 (counts' !! col') in
          mangle_loop fuel' hdr counts' old col' cur'
      end
  end.

(** One column [i] of the loop: [col = this_header[i]; cur_count =
    counts.get(col, 0)], the [while], then [this_header[i] = col;
    counts[col] = cur_count + 1]. *)
Definition mangle_step (st : list string * gmap string nat) (i : nat) : list string * gmap string nat :=
  let col := default "" (st.1 !! i) in
  match mangle_loop (S (length st.1)) st.1 st.2 col col (default 0 (st.2 !! col)) with
  | (counts', col', cur') => (<[i := col']> st.1, <[col' := S cur']> counts')
  end.

(** [name = f"Unnamed: {i}"] for an empty header field. *)
Definition unnamed_name (i : nat) (name : string) : string :=
  if decide (name = "") then "Unnamed: " +:+ pretty i else name.

(** [col_loop_order]: the named columns, then the unnamed ones. *)
Definition col_loop_order (raw : list string) : list nat :=
  filter (fun i => raw !! i <> Some "") (seq 0 (length raw)) ++
  filter (fun i => raw !! i = Some "") (seq 0 (length raw)).

Definition header_names (raw : list string) : list string :=
  (foldl mangle_step (imap unnamed_name raw, ∅) (col_loop_order raw)).1.

(** The invariant of the loop over the columns, [vis] being the
    columns already visited: every count is positive and belongs to the
    name of a visited column, every visited column's name is counted,
    and visited columns have distinct names. *)
Definition hdr_inv (vis : list nat) (hdr : list string) (counts : gmap string nat) : Prop :=
  (forall k v, counts !! k = Some v -> 0 < v /\ exists j, j ∈ vis /\ hdr !! j = Some k) /\
  (forall j, j ∈ vis -> exists k, hdr !! j = Some k /\ is_Some (counts !! k)) /\
  (forall j1 j2 k, j1 ∈ vis -> j2 ∈ vis -> hdr !! j1 = Some k -> hdr !! j2 = Some k -> j1 = j2).

(** ** Lemmas *)

#[export] Instance suffixed_inj (old : string) : Inj (=) (=) (suffixed old).
Proof.
  intros m1 m2 E. unfold suffixed in E.
  apply (inj (String.append old)), (inj (String.append ".")) in E. by apply (inj pretty).
Qed.

Lemma mangle_loop_zero (fuel : nat) (hdr : list string) (counts : gmap string nat) (old col : string) :
  mangle_loop fuel hdr counts old col 0 = (counts, col, 0).
Proof. by destruct fuel. Qed.

(** Pigeonhole: among [length hdr + 1] consecutive suffixes one is not a
    name of the header. *)
Lemma suffix_free (hdr : list string) (old : string) (cur : nat) :
  exists m, cur <= m < cur + S (length hdr) /\ suffixed old m ∉ hdr.
Proof.
  destruct (decide (Forall (fun m => suffixed old m ∈ hdr) (seq cur (S (length hdr))))) as [Hall|Hn].
  - exfalso. rewrite Forall_forall in Hall.
    assert (suffixed old <$> seq cur (S (length hdr)) ⊆+ hdr) as Hsub.
    { apply NoDup_submseteq.
      - apply (NoDup_fmap_2 (suffixed old)), NoDup_seq.
      - intros s Hs. apply list_elem_of_fmap in Hs as (m & -> & Hm). by apply Hall. }
    apply submseteq_length in Hsub. rewrite length_fmap, length_seq in Hsub. lia.
  - apply not_Forall_Exists, Exists_exists in Hn as (m & Hm & Hnot); [|apply _].
    apply elem_of_seq in Hm. exists m. split; [lia | done].
Qed.

(** The [while] leaves with [cur_count = 0] and a name that is not in
    the header, once some suffix within its fuel is free; it only
    updates the count of [old_col], which is already counted. *)
Lemma mangle_loop_exit (fuel : nat) (hdr : list string) (counts : gmap string nat)
    (old col : string) (cur : nat) :
  (forall k, is_Some (counts !! k) -> k ∈ hdr) -> old ∈ hdr -> 0 < cur ->
  (exists m, cur <= m < cur + fuel /\ suffixed old m ∉ hdr) ->
  exists counts' col', mangle_loop fuel hdr counts old col cur = (counts', col', 0) /\
    col' ∉ hdr /\
    (forall k, is_Some (counts' !! k) <-> is_Some (counts !! k) \/ k = old) /\
    (forall k v, counts' !! k = Some v -> counts !! k = Some v \/ (k = old /\ 0 < v)).
Proof.
  revert counts col cur. induction fuel as [|fuel IH]; intros counts col cur Hk Hold Hcur Hm.
  { destruct Hm as (m & Hm & _). lia. }
  destruct cur as [|c]; [lia|]. cbn [mangle_loop]. case_decide as Hin.
  - destruct (IH (<[old := S (S c)]> counts) (suffixed old (S c)) (S (S c))) as
      (counts' & col' & E & Hcol & Hdom & Hval).
    + intros k. rewrite lookup_insert_is_Some'. intros [<-|]; auto.
    + done.
    + lia.
    + destruct Hm as (m & Hm & Hnot). exists m. split; [|done].
      assert (m <> S c) by (intros ->; done). lia.
    + exists counts', col'. split_and!; [done | done | |].
      * intros k. rewrite Hdom, lookup_insert_is_Some'. naive_solver.
      * intros k v Hv. destruct (Hval k v Hv) as [Hv'|]; [|by right].
        rewrite lookup_insert_Some in Hv'. naive_solver lia.
  - assert (suffixed old (S c) <> old) as Hne by (intros E; rewrite E in Hin; done).
    rewrite lookup_insert_ne by done.
    destruct (counts !! suffixed old (S c)) as [v|] eqn:Ev.
    { exfalso. apply Hin, Hk. by rewrite Ev. }
    cbn [default]. rewrite mangle_loop_zero.
    exists (<[old := S (S c)]> counts), (suffixed old (S c)). split_and!; [done | done | |].
    + intros k. rewrite lookup_insert_is_Some'. naive_solver.
    + intros k v. rewrite lookup_insert_Some. naive_solver lia.
Qed.

Lemma hdr_inv_ext (d1 d2 : list nat) (hdr : list string) (counts : gmap string nat) :
  (forall j, j ∈ d1 <-> j ∈ d2) -> hdr_inv d1 hdr counts -> hdr_inv d2 hdr counts.
Proof.
  intros Hd (H1 & H2 & H3). split_and!.
  - intros k v Hv. destruct (H1 k v Hv) as (Hpos & j & Hj & Hl). split; [done|].
    exists j. by rewrite <- Hd.
  - intros j Hj. apply H2. by apply Hd.
  - intros j1 j2 k Hj1 Hj2. apply H3; by apply Hd.
Qed.

(** Where no name is counted yet the loop does not run. *)
Lemma mangle_step_fresh (hdr : list string) (counts : gmap string nat) (i : nat) (old : string) :
  hdr !! i = Some old -> counts !! old = None ->
  mangle_step (hdr, counts) i = (hdr, <[old := 1]> counts).
Proof.
  intros Hi Hc. unfold mangle_step. cbn [fst snd]. rewrite Hi. cbn [default id]. rewrite Hc. cbn [default].
  rewrite mangle_loop_zero. by rewrite list_insert_id.
Qed.

(** Where the name is counted the loop renames the column to a name
    outside the header. *)
Lemma mangle_step_renamed (vis : list nat) (hdr : list string) (counts : gmap string nat)
    (i : nat) (old : string) (v : nat) :
  hdr_inv vis hdr counts -> hdr !! i = Some old -> counts !! old = Some v ->
  exists counts' col', mangle_step (hdr, counts) i = (<[i := col']> hdr, <[col' := 1]> counts') /\
    col' ∉ hdr /\
    (forall k, is_Some (counts' !! k) <-> is_Some (counts !! k)) /\
    (forall k w, counts' !! k = Some w -> 0 < w /\ is_Some (counts !! k)).
Proof.
  intros (H1 & _ & _) Hi Hc. destruct (H1 old v Hc) as [Hv _].
  assert (forall k, is_Some (counts !! k) -> k ∈ hdr) as Hk.
  { intros k [w Hw]. destruct (H1 k w Hw) as (_ & j & _ & Hj). by apply list_elem_of_lookup_2 in Hj. }
  destruct (mangle_loop_exit (S (length hdr)) hdr counts old old v) as (counts' & col' & E & Hcol & Hdom & Hval).
  - done.
  - by apply list_elem_of_lookup_2 in Hi.
  - done.
  - apply suffix_free.
  - exists counts', col'. unfold mangle_step. cbn [fst snd]. rewrite Hi. cbn [default id].
    rewrite Hc. cbn [default id].
    rewrite E. split_and!; [done | done | |].
    + intros k. rewrite Hdom. split; [|by left]. intros [Hk'| ->]; [done | by exists v].
    + intros k w Hw. destruct (Hval k w Hw) as [Hw'|[-> Hpos]].
      * split; [by apply (H1 k w Hw') | by exists w].
      * split; [done | by exists v].
Qed.

(** One column keeps the invariant. *)
Lemma mangle_step_inv (vis : list nat) (hdr : list string) (counts : gmap string nat) (i : nat) :
  hdr_inv vis hdr counts -> i ∉ vis -> i < length hdr ->
  hdr_inv (i :: vis) (mangle_step (hdr, counts) i).1 (mangle_step (hdr, counts) i).2 /\
  length (mangle_step (hdr, counts) i).1 = length hdr.
Proof.
  intros Hinv Hi Hlt. destruct (lookup_lt_is_Some_2 hdr i Hlt) as [old Hold].
  pose proof Hinv as (H1 & H2 & H3).
  destruct (counts !! old) as [v|] eqn:Hc.
  - destruct (mangle_step_renamed vis hdr counts i old v Hinv Hold Hc)
      as (counts' & col' & -> & Hcol & Hdom & Hval). cbn [fst snd].
    split; [|by rewrite length_insert]. split_and!.
    + intros k w. rewrite lookup_insert_Some. intros [[<- <-]|[Hne Hw]].
      * split; [lia|]. exists i. split; [set_solver | by rewrite list_lookup_insert_eq].
      * destruct (Hval k w Hw) as [Hpos [w' Hw']]. destruct (H1 k w' Hw') as (_ & j & Hj & Hl).
        split; [done|]. exists j. split; [by right|].
        rewrite list_lookup_insert_ne; [done|]. intros ->. done.
    + intros j [->|Hj]%elem_of_cons.
      * exists col'. rewrite list_lookup_insert_eq by done. split; [done|].
        rewrite lookup_insert_is_Some'. by left.
      * destruct (H2 j Hj) as (k & Hl & Hk). exists k.
        rewrite list_lookup_insert_ne by (intros ->; done). split; [done|].
        rewrite lookup_insert_is_Some', Hdom. by right.
    + assert (forall j, j ∈ vis -> <[i := col']> hdr !! j = hdr !! j) as Hsame.
      { intros j Hj. apply list_lookup_insert_ne. intros ->. done. }
      assert (<[i := col']> hdr !! i = Some col') as Hnew by (by rewrite list_lookup_insert_eq).
      intros j1 j2 k [->|Hj1]%elem_of_cons [->|Hj2]%elem_of_cons; try done.
      * rewrite Hnew, Hsame by done. intros [= <-] Hl. exfalso. apply Hcol.
        by apply list_elem_of_lookup_2 in Hl.
      * rewrite Hnew, Hsame by done. intros Hl [= <-]. exfalso. apply Hcol.
        by apply list_elem_of_lookup_2 in Hl.
      * rewrite !Hsame by done. by apply H3.
  - rewrite mangle_step_fresh with (old := old) by done. cbn [fst snd]. split; [|done]. split_and!.
    + intros k w. rewrite lookup_insert_Some. intros [[<- <-]|[Hne Hw]].
      * split; [lia|]. exists i. split; [left | done].
      * destruct (H1 k w Hw) as (Hpos & j & Hj & Hl). split; [done|]. exists j. split; [by right | done].
    + intros j [->|Hj]%elem_of_cons.
      * exists old. split; [done|]. rewrite lookup_insert_is_Some'. by left.
      * destruct (H2 j Hj) as (k & Hl & Hk). exists k. split; [done|].
        rewrite lookup_insert_is_Some'. by right.
    + assert (forall j, j ∈ vis -> hdr !! j <> Some old) as Hnot.
      { intros j Hj Hl. destruct (H2 j Hj) as (k & Hl' & Hk). rewrite Hl in Hl'.
        injection Hl' as <-. rewrite Hc in Hk. by destruct Hk. }
      intros j1 j2 k [->|Hj1]%elem_of_cons [->|Hj2]%elem_of_cons; try done.
      * rewrite Hold. intros [= <-] Hl. by destruct (Hnot j2 Hj2).
      * rewrite Hold. intros Hl [= <-]. by destruct (Hnot j1 Hj1).
      * by apply H3.
Qed.

(** The loop over the columns, in any order that visits each column of
    the header once. *)
Lemma mangle_fold_inv (order vis : list nat) (hdr : list string) (counts : gmap string nat) :
  NoDup order -> Forall (fun i => i < length hdr /\ i ∉ vis) order -> hdr_inv vis hdr counts ->
  hdr_inv (order ++ vis) (foldl mangle_step (hdr, counts) order).1
    (foldl mangle_step (hdr, counts) order).2 /\
  length (foldl mangle_step (hdr, counts) order).1 = length hdr.
Proof.
  revert vis hdr counts. induction order as [|i order IH]; intros vis hdr counts Hnd Hall Hinv;
    [done|].
  apply NoDup_cons in Hnd as [Hi Hnd]. apply Forall_cons in Hall as [[Hlt Hid] Hall].
  cbn [foldl]. destruct (mangle_step_inv vis hdr counts i Hinv Hid Hlt) as [Hinv' Hlen].
  destruct (mangle_step (hdr, counts) i) as [hdr' counts'] eqn:E. cbn [fst snd] in *.
  destruct (IH (i :: vis) hdr' counts') as [Hinv'' Hlen'']; [done | | done |].
  - rewrite Forall_forall in Hall |- *. intros j Hj. destruct (Hall j Hj) as [Hlt' Hjd].
    rewrite Hlen. split; [done|]. intros [->|]%elem_of_cons; [by apply Hi | done].
  - split; [|lia]. eapply hdr_inv_ext; [|exact Hinv'']. intros j. set_solver.
Qed.

Lemma hdr_inv_nil (hdr : list string) : hdr_inv [] hdr ∅.
Proof. split_and!; [intros k v; by rewrite lookup_empty | set_solver | set_solver]. Qed.

Lemma col_loop_order_perm (raw : list string) : col_loop_order raw ≡ₚ seq 0 (length raw).
Proof.
  unfold col_loop_order. rewrite Permutation_app_comm.
  apply (filter_app_complement (fun i => raw !! i = Some "")).
Qed.

Lemma col_loop_order_elem (raw : list string) (i : nat) : i ∈ col_loop_order raw <-> i < length raw.
Proof. rewrite col_loop_order_perm, elem_of_seq. lia. Qed.

(** The state of the loop over the columns after its first [k] columns. *)
Lemma header_prefix_inv (raw : list string) (k : nat) :
  let st := foldl mangle_step (imap unnamed_name raw, ∅) (take k (col_loop_order raw)) in
  hdr_inv (take k (col_loop_order raw)) st.1 st.2 /\ length st.1 = length raw.
Proof.
  cbv zeta. pose proof (col_loop_order_perm raw) as Hp.
  destruct (mangle_fold_inv (take k (col_loop_order raw)) [] (imap unnamed_name raw) ∅) as [Hinv Hlen].
  - apply NoDup_take. rewrite Hp. apply NoDup_seq.
  - apply Forall_forall. intros i Hi. apply elem_of_take in Hi as (j & Hj & _).
    apply list_elem_of_lookup_2, col_loop_order_elem in Hj. rewrite length_imap. set_solver.
  - apply hdr_inv_nil.
  - rewrite app_nil_r in Hinv. split; [done|]. by rewrite Hlen, length_imap.
Qed.

(** Under the invariant the [while] of a column leaves with its
    condition false. *)
Lemma mangle_loop_cur0 (vis : list nat) (hdr : list string) (counts : gmap string nat)
    (i : nat) (old : string) :
  hdr_inv vis hdr counts -> hdr !! i = Some old ->
  (mangle_loop (S (length hdr)) hdr counts old old (default 0 (counts !! old))).2 = 0.
Proof.
  intros Hinv Hi. destruct (counts !! old) as [v|] eqn:Hc; cbn [default id];
    [|by rewrite mangle_loop_zero].
  pose proof Hinv as (H1 & _). destruct (H1 old v Hc) as [Hv _].
  destruct (mangle_loop_exit (S (length hdr)) hdr counts old old v) as (counts' & col' & E' & _);
    [| by apply list_elem_of_lookup_2 in Hi | done | apply suffix_free |].
  - intros k [w Hw]. destruct (H1 k w Hw) as (_ & j & _ & Hj). by apply list_elem_of_lookup_2 in Hj.
  - by rewrite E'.
Qed.

(** A header of distinct non-empty names runs through the loop without
    a renaming. *)
Lemma mangle_fold_id (order vis : list nat) (raw : list string) (counts : gmap string nat) :
  NoDup raw -> NoDup order -> Forall (fun i => i < length raw /\ i ∉ vis) order ->
  hdr_inv vis raw counts -> (foldl mangle_step (raw, counts) order).1 = raw.
Proof.
  intros Hraw. revert vis counts. induction order as [|i order IH]; intros vis counts Hnd Hall Hinv;
    [done|].
  apply NoDup_cons in Hnd as [Hi Hnd]. apply Forall_cons in Hall as [[Hlt Hid] Hall].
  destruct (lookup_lt_is_Some_2 raw i Hlt) as [old Hold].
  assert (counts !! old = None) as Hc.
  { destruct (counts !! old) as [v|] eqn:Hc; [|done]. exfalso.
    destruct Hinv as (H1 & _). destruct (H1 old v Hc) as (_ & j & Hj & Hl).
    assert (j = i) as -> by (by apply (NoDup_lookup raw j i old)). done. }
  cbn [foldl]. rewrite (mangle_step_fresh raw counts i old Hold Hc).
  destruct (mangle_step_inv vis raw counts i Hinv Hid Hlt) as [Hinv' _].
  rewrite (mangle_step_fresh raw counts i old Hold Hc) in Hinv'. cbn [fst snd] in Hinv'.
  apply (IH (i :: vis)); [done | | done]. rewrite Forall_forall in Hall |- *.
  intros j Hj. destruct (Hall j Hj) as [? ?]. split; [done|]. intros [->|]%elem_of_cons; [done|done].
Qed.

(** ** Properties of the header *)

(** C36. Termination of the renaming loop: in the run on any header, at
    every column the [while] leaves because its condition turned false
    ([cur_count = 0]), never because the model's fuel of one more step
    than there are columns ran out. *)
Theorem header_loop_terminates (raw : list string) (k i : nat) :
  col_loop_order raw !! k = Some i ->
  let st := foldl mangle_step (imap unnamed_name raw, ∅) (take k (col_loop_order raw)) in
  let old := default "" (st.1 !! i) in
  (mangle_loop (S (length st.1)) st.1 st.2 old old (default 0 (st.2 !! old))).2 = 0.
Proof.
  intros Hk. cbv zeta. destruct (header_prefix_inv raw k) as [Hinv Hlen].
  apply list_elem_of_lookup_2, col_loop_order_elem in Hk.
  destruct (lookup_lt_is_Some_2 (foldl mangle_step (imap unnamed_name raw, ∅)
    (take k (col_loop_order raw))).1 i) as [old Hold]; [lia|].
  rewrite Hold. cbn [default id]. by eapply mangle_loop_cur0.
Qed.

(** The names are distinct, one per field of the header. *)
Lemma header_names_distinct (raw : list string) :
  NoDup (header_names raw) /\ length (header_names raw) = length raw.
Proof.
  destruct (header_prefix_inv raw (length (col_loop_order raw))) as [(_ & _ & H3) Hlen].
  rewrite take_ge in H3, Hlen by done. unfold header_names. split; [|done].
  apply NoDup_alt. intros i j x Hi Hj.
  assert (forall m y, (foldl mangle_step (imap unnamed_name raw, ∅) (col_loop_order raw)).1 !! m = Some y ->
    m ∈ col_loop_order raw) as Hin.
  { intros m y Hm. apply col_loop_order_elem. rewrite <- Hlen. by eapply lookup_lt_Some. }
  apply (H3 i j x); eauto.
Qed.

(** C37. A header of distinct, non-empty names is taken as it is. *)
Theorem header_names_id (raw : list string) :
  NoDup raw -> "" ∉ raw -> header_names raw = raw.
Proof.
  intros Hnd Hne.
  assert (imap unnamed_name raw = raw) as Hid.
  { apply list_eq. intros i. rewrite list_lookup_imap. destruct (raw !! i) as [x|] eqn:Hx; [|done].
    cbn. unfold unnamed_name. rewrite decide_False; [done|]. intros ->. apply Hne.
    by apply list_elem_of_lookup_2 in Hx. }
  unfold header_names. rewrite Hid. apply (mangle_fold_id _ []); [done | | | apply hdr_inv_nil].
  - rewrite col_loop_order_perm. apply NoDup_seq.
  - apply Forall_forall. intros i Hi. apply col_loop_order_elem in Hi. set_solver.
Qed.

(** The renaming of the C engine: named columns are visited
    first, a taken name [A] becomes [A.k] for the first [k] such that
    [A.k] is no name of the header, and empty fields are named after
    their position. *)
Example header_names_examples :
  header_names ["A"; "A"; "A.1"] = ["A"; "A.2"; "A.1"] /\
  header_names [""; "Make"; ""] = ["Unnamed: 0"; "Make"; "Unnamed: 2"] /\
  header_names ["x"; ""; "Unnamed: 1"] = ["x"; "Unnamed: 1.1"; "Unnamed: 1"].
Proof. split_and!; vm_compute; reflexivity. Qed.

(** ** Witnesses *)

Lemma header_loop_terminates_witness :
  let st := foldl mangle_step (imap unnamed_name ["A"; "A"; "A.1"], ∅)
              (take 1 (col_loop_order ["A"; "A"; "A.1"])) in
  let old := default "" (st.1 !! 1) in
  (mangle_loop (S (length st.1)) st.1 st.2 old old (default 0 (st.2 !! old))).2 = 0.
Proof. apply (header_loop_terminates ["A"; "A"; "A.1"] 1 1). reflexivity. Defined.

Lemma header_names_id_witness :
  header_names ["Event.Id"; "Make"; "Location"] = ["Event.Id"; "Make"; "Location"].
Proof.
  apply header_names_id; apply (bool_decide_unpack _); vm_compute; exact I.
Defined.
