(* ===== verification/ReadCsv.v ===== *)
(** * ReadCsv: [pd.read_csv('AviationData.csv', on_bad_lines='skip',
    encoding='ISO-8859-1')], line 45

    After the tokenizer ([Csv]) the C engine takes the first record as
    the header ([Header]) and the others as data.  A data record with
    more fields than expected is a bad line, skipped under
    [on_bad_lines='skip']; a record with fewer fields is padded with
    empty fields.  The expected number is that of the header, unless the
    first data record is longer: its extra leading fields then form the
    index (the implicit index of [read_csv]), which the model does not
    keep, and every record is measured against that longer count.

    Each column is then converted as [_convert_column_data] does: a
    field equal to one of the default NA strings is NaN; a column whose
    fields are all integers of the int64 range, none NaN, is int64; a
    column whose non-NaN fields are all numbers (or that is all NaN) is
    float64; any other column is object and keeps its strings.  Numbers
    follow [str_to_int64] and [xstrtod]: optional blanks, an optional
    sign, digits with an optional decimal point and an optional exponent,
    optional blanks.  The model keeps numbers exact ([Q]); the spellings
    [inf] and [infinity] (read as infinite floats), the boolean spellings
    [True] and [False] (read as bool), and integers from 2^63 to 2^64-1
    without a negative one in the column (read as uint64) are outside it:
    the model reads the first two as strings and the last as float64. *)

From S2P Require Import Prelude Series Frame Csv Header.
From Stdlib Require Import Ascii.
Open Scope nat_scope.

(** ** Fields *)

(** [STR_NA_VALUES] of pandas 2. *)
Definition NA_VALUES : list string :=
  [""; "#N/A"; "#N/A N/A"; "#NA"; "-1.#IND"; "-1.#QNAN"; "-NaN"; "-nan"; "1.#IND";
   "1.#QNAN"; "<NA>"; "N/A"; "NA"; "NULL"; "NaN"; "None"; "n/a"; "nan"; "null"].

Definition na_field (s : string) : bool := bool_decide (s ∈ NA_VALUES).

(** [isspace_ascii]. *)
Definition is_space (c : ascii) : bool :=
  let n := nat_of_ascii c in (n =? 32) || ((9 <=? n) && (n <=? 13)).

Definition digit_val (c : ascii) : option Z :=
  let n := nat_of_ascii c in
  if (48 <=? n) && (n <=? 57) then Some (Z.of_nat (n - 48)) else None.

Fixpoint drop_spaces (cs : list ascii) : list ascii :=
  match cs with
  | c :: cs' => if is_space c then drop_spaces cs' else cs
  | [] => []
  end.

(** The digits at the front, as a number with their count, and the rest. *)
Fixpoint take_digits (cs : list ascii) : Z * nat * list ascii :=
  match cs with
  | c :: cs' =>
      match digit_val c with
      | Some d => let '(v, k, rest) := take_digits cs' in (d * 10 ^ Z.of_nat k + v, S k, rest)%Z
      | None => (0%Z, 0, cs)
      end
  | [] => (0%Z, 0, [])
  end.

Definition take_sign (cs : list ascii) : Z * list ascii :=
  match cs with
  | c :: cs' =>
      if (c =? "-")%char then (-1, cs')%Z else if (c =? "+")%char then (1, cs')%Z else (1%Z, cs)
  | [] => (1%Z, [])
  end.

(** [str_to_int64]: the integer a field spells, before the range check. *)
Definition parse_int (s : string) : option Z :=
  let '(sg, cs) := take_sign (drop_spaces (String.list_ascii_of_string s)) in
  let '(v, k, rest) := take_digits cs in
  if (k =? 0) || negb (forallb is_space rest) then None else Some (sg * v)%Z.

(** The exponent part [e-3] of a float, if there is one with digits. *)
Definition take_exponent (cs : list ascii) : Z * list ascii :=
  match cs with
  | c :: cs' =>
      if (c =? "e")%char || (c =? "E")%char then
        let '(sg, r) := take_sign cs' in
        let '(v, k, rest) := take_digits r in
        if k =? 0 then (0%Z, cs) else ((sg * v)%Z, rest)
      else (0%Z, cs)
  | [] => (0%Z, [])
  end.

Definition pow10 (e : Z) : Q :=
  if (0 <=? e)%Z then inject_Z (10 ^ e) else (1 / inject_Z (10 ^ (- e)))%Q.

(** [xstrtod]: the number a field spells. *)
Definition parse_number (s : string) : option Q :=
  let '(sg, cs) := take_sign (drop_spaces (String.list_ascii_of_string s)) in
  let '(ip, ki, cs1) := take_digits cs in
  let '(fp, kf, cs2) :=
    match cs1 with
    | c :: cs' => if (c =? ".")%char then take_digits cs' else (0%Z, 0, cs1)
    | [] => (0%Z, 0, [])
    end in
  let '(ex, cs3) := take_exponent cs2 in
  if (ki + kf =? 0) || negb (forallb is_space cs3) then None
  else Some (inject_Z sg * (inject_Z ip + inject_Z fp / inject_Z (10 ^ Z.of_nat kf)) * pow10 ex)%Q.

(** A field that is an int64 integer. *)
Definition int64_field (s : string) : option Z :=
  match parse_int s with Some z => if int64_ok z then Some z else None | None => None end.

(** ** Columns *)

Definition na_cell (s : string) : option string := if na_field s then None else Some s.

Definition int_cell (o : option string) : option scalar :=
  o ≫= fun s => (fun z => SNum (inject_Z z)) <$> int64_field s.

Definition float_cell (o : option string) : option scalar :=
  o ≫= fun s => (fun q => SNum (Qred q)) <$> parse_number s.

(** The dtype inference of the C engine on one column's fields. *)
Definition infer_column (fields : list string) : column :=
  let cells := na_cell <$> fields in
  if decide (fields = []) then mkColumn Object []
  else if forallb (fun o => match o with Some s => bool_decide (is_Some (int64_field s)) | None => false end) cells
  then mkColumn Int64 (int_cell <$> cells)
  else if forallb (fun o => match o with Some s => bool_decide (is_Some (parse_number s)) | None => true end) cells
  then mkColumn Float64 (float_cell <$> cells)
  else mkColumn Object (option_map SStr <$> cells).

(** ** The frame *)

(** Missing trailing fields are empty fields. *)
Definition pad_to (w : nat) (r : list string) : list string := r ++ replicate (w - length r) "".

(** The number of leading fields that form the implicit index. *)
Definition leading_cols (header : list string) (data : list (list string)) : nat :=
  match data with r :: _ => length r - length header | [] => 0 end.

(** The records kept under [on_bad_lines='skip'], padded. *)
Definition kept_rows (width : nat) (data : list (list string)) : list (list string) :=
  pad_to width <$> filter (fun r => length r <= width) data.

Definition read_csv (text : string) : result frame :=
  rows <- tokenize text ;;
  match rows with
  | [] => Err (EmptyDataError "No columns to parse from file")
  | header :: data =>
      let lead := leading_cols header data in
      let kept := kept_rows (lead + length header) data in
      Ok (mkFrame (length kept)
            (zip (header_names header)
                 ((fun j => infer_column ((fun r => nth (lead + j) r "") <$> kept))
                    <$> seq 0 (length header))))
  end.

(** A small file: a duplicated header name, a bad line (three fields
    for two columns) and a short line. *)
Definition csv_sample_text : string :=
  String.string_of_list_ascii (concat (render_row [LF] <$>
    [["a"; "a"]; ["1"; "x"]; ["2"; "y"; "z"]; ["3"]])).

(** ** Lemmas *)

(** Padding adds empty fields only. *)
Lemma nth_pad_to (w k : nat) (r : list string) : nth k (pad_to w r) "" = nth k r "".
Proof.
  unfold pad_to. destruct (decide (k < length r)); [by rewrite app_nth1|].
  rewrite app_nth2, (nth_overflow r) by lia. generalize (k - length r) (w - length r).
  intros i m. revert i. induction m as [|m IH]; intros [|i]; simpl; auto.
Qed.

Lemma int64_field_ok (s : string) (z : Z) : int64_field s = Some z -> int64_ok z = true.
Proof. unfold int64_field. destruct (parse_int s); [|done]. by case_match; [intros [= <-]|]. Qed.

Lemma int_cell_ok (s : string) :
  is_Some (int64_field s) -> cell_ok Int64 (int_cell (Some s)) = true.
Proof.
  intros [z Hz]. unfold int_cell. cbn. rewrite Hz. cbn.
  rewrite (int64_field_ok s z Hz). reflexivity.
Qed.

Lemma float_cell_ok (o : option string) : cell_ok Float64 (float_cell o) = true.
Proof.
  destruct o as [s|]; [|reflexivity]. unfold float_cell. cbn.
  destruct (parse_number s) as [q|]; [|reflexivity]. cbn. apply bool_decide_eq_true, Qred_complete, Qred_correct.
Qed.

Lemma object_cell_ok (o : option string) : cell_ok Object (option_map SStr o) = true.
Proof. by destruct o. Qed.

(** Every inferred column is well formed and as long as its fields. *)
Lemma infer_column_wf (fields : list string) : column_wf (length fields) (infer_column fields).
Proof.
  unfold infer_column. case_decide as Hnil; [subst; split; [done | constructor]|].
  case_match eqn:Hint; [|case_match eqn:Hfl];
    (split; [cbn; by rewrite !length_fmap|]); cbn [col_dtype col_cells]; apply Forall_fmap;
    apply Forall_forall; intros o Ho.
  - apply forallb_forall with (x := o) in Hint; [|by apply list_elem_of_In].
    destruct o as [s|]; [|done]. apply bool_decide_eq_true in Hint. by apply int_cell_ok.
  - apply float_cell_ok.
  - apply object_cell_ok.
Qed.

Lemma na_cell_None (s : string) : na_cell s = None <-> na_field s = true.
Proof. unfold na_cell. destruct (na_field s); naive_solver. Qed.

(** A file holding only a header is read as a frame without rows whose
    columns are empty object columns. *)
Lemma read_csv_header_only (header : list string) :
  header <> [] ->
  read_csv (render [LF] [header]) =
    Ok (mkFrame 0 (zip (header_names header) ((fun _ => mkColumn Object []) <$> seq 0 (length header)))).
Proof.
  intros Hh. unfold read_csv.
  assert (tokenize (render [LF] [header]) = Ok [header]) as ->.
  { unfold tokenize, render, tok_init.
    rewrite String.list_ascii_of_string_of_list_ascii, rows_run; [done | by left | by repeat constructor]. }
  reflexivity.
Qed.

(** ** Properties of [read_csv] *)

(** C6. The frame [read_csv] returns is well formed: its column names
    are distinct, every column is as long as the frame and every cell
    has its column's dtype (integers of an int64 column in range and
    never NaN). *)
Theorem read_csv_wf (text : string) (f : frame) : read_csv text = Ok f -> frame_wf f.
Proof.
  unfold read_csv. destruct (tokenize text) as [rows|e]; cbn [res_bind]; [|done].
  destruct rows as [|header data]; [done|]. intros [= <-].
  destruct (header_names_distinct header) as [Hnd Hlen]. split.
  - unfold col_names. cbn [cols]. rewrite fst_zip; [done|]. rewrite length_fmap, length_seq. lia.
  - apply Forall_forall. intros [nm c] Hin. apply elem_of_zip_r in Hin. cbn [snd nrows].
    apply list_elem_of_fmap in Hin as (j & -> & _).
    set (kept := kept_rows _ _). pose proof (infer_column_wf ((fun r => nth (leading_cols header data + j) r "") <$> kept)) as Hw.
    by rewrite length_fmap in Hw.
Qed.

(** C38. The shape of the frame: with [n] header fields and a first data
    record of [m] fields, the first [m - n] fields of every record are
    the implicit index and are not columns; the first data record is
    always kept; a later record is a bad line, skipped, exactly when it
    has more than [max n m] fields; the others are kept in order, their
    missing trailing fields read as empty (NaN); and column [j], named
    by [header_names], is inferred from field [m - n + j] of each kept
    record. *)
Theorem read_csv_shape (text : string) (header r0 : list string) (data : list (list string)) :
  tokenize text = Ok (header :: r0 :: data) ->
  let kept := r0 :: filter (fun r => length r <= Nat.max (length header) (length r0)) data in
  exists f, read_csv text = Ok f /\ nrows f = length kept /\
    cols f = zip (header_names header)
      ((fun j => infer_column ((fun r => nth (length r0 - length header + j) r "") <$> kept))
         <$> seq 0 (length header)).
Proof.
  intros Ht kept. unfold read_csv. rewrite Ht. cbn [res_bind]. eexists. split; [reflexivity|].
  assert (kept_rows (leading_cols header (r0 :: data) + length header) (r0 :: data) =
          pad_to (Nat.max (length header) (length r0)) <$> kept) as Hk.
  { unfold kept_rows, leading_cols, kept.
    replace (length r0 - length header + length header) with (Nat.max (length header) (length r0)) by lia.
    by rewrite filter_cons_True by lia. }
  cbn [nrows cols]. rewrite Hk, length_fmap. split; [done|]. f_equal.
  apply list_fmap_ext. intros _ j _. f_equal. rewrite <- list_fmap_compose.
  apply list_fmap_ext. intros _ r _. apply nth_pad_to.
Qed.

(** C39. The dtype inference: a column is int64 exactly when it has
    fields and every field is an int64 integer that is no NA string;
    an NA string is always NaN; and an object column keeps each field as
    written. *)
Theorem infer_column_spec (fields : list string) :
  (col_dtype (infer_column fields) = Int64 <->
     fields <> [] /\ forall s, s ∈ fields -> na_field s = false /\ is_Some (int64_field s)) /\
  (forall i s, fields !! i = Some s -> na_field s = true -> col_cells (infer_column fields) !! i = Some None) /\
  (col_dtype (infer_column fields) = Object ->
     forall i s, fields !! i = Some s -> na_field s = false ->
       col_cells (infer_column fields) !! i = Some (Some (SStr s))).
Proof.
  unfold infer_column. case_decide as Hnil.
  { subst. split_and!; [split; [done | by intros []] | done | done]. }
  assert (forall i s, fields !! i = Some s -> (na_cell <$> fields) !! i = Some (na_cell s)) as Hl
    by (intros i s Hs; by rewrite list_lookup_fmap, Hs).
  split_and!.
  - case_match eqn:Hint; cbn [col_dtype].
    + split; [intros _; split; [done|] | done]. intros s Hs.
      apply forallb_forall with (x := na_cell s) in Hint;
        [|apply list_elem_of_In, list_elem_of_fmap; by exists s].
      unfold na_cell in Hint. destruct (na_field s); [done|]. split; [done|].
      by apply bool_decide_eq_true in Hint.
    + split; [by case_match|]. intros [_ Hall]. exfalso.
      apply not_true_iff_false in Hint. apply Hint, forallb_forall. intros o Ho.
      apply list_elem_of_In, list_elem_of_fmap in Ho as (s & -> & Hs).
      destruct (Hall s Hs) as [Hna Hi]. unfold na_cell. rewrite Hna.
      by apply bool_decide_eq_true.
  - intros i s Hs Hna. assert (na_cell s = None) as Hn by (by apply na_cell_None).
    specialize (Hl i s Hs). rewrite Hn in Hl.
    repeat case_match; cbn [col_cells]; by rewrite list_lookup_fmap, Hl.
  - intros Ht i s Hs Hna. specialize (Hl i s Hs).
    assert (na_cell s = Some s) as Hn by (unfold na_cell; by rewrite Hna). rewrite Hn in Hl.
    repeat case_match; cbn [col_dtype] in Ht; try discriminate.
    cbn [col_cells]. by rewrite list_lookup_fmap, Hl.
Qed.

(** Bounds of the int64 dtype: a column holding 2^63 - 1 or -2^63
    is int64, one holding 2^63 or -2^63 - 1 does not fit and is read
    as float64. *)
Example infer_column_int64_bounds :
  col_dtype (infer_column ["9223372036854775807"; "-9223372036854775808"]) = Int64 /\
  col_dtype (infer_column ["9223372036854775808"]) = Float64 /\
  col_dtype (infer_column ["-9223372036854775809"]) = Float64.
Proof. split_and!; vm_compute; reflexivity. Qed.

(** C40. The errors of [read_csv]: a file with no record (empty, or
    blank lines only) raises [EmptyDataError], and a quote left open at
    the end of the file raises [ParserError]. *)
Theorem read_csv_errors (eol : list ascii) (rows : list (list string)) (t : list ascii) :
  eol_ok eol -> Forall (fun r => r <> []) rows -> Forall (fun c => c <> QUOTE) t ->
  read_csv "" = Err (EmptyDataError "No columns to parse from file") /\
  read_csv (String.string_of_list_ascii eol) = Err (EmptyDataError "No columns to parse from file") /\
  read_csv (String.string_of_list_ascii (concat (render_row eol <$> rows) ++ QUOTE :: t)) =
    Err (ParserError "Error tokenizing data. C error: EOF inside string").
Proof.
  intros Heol Hne Ht. split_and!; [reflexivity | by destruct Heol as [-> | ->] |].
  unfold read_csv. by rewrite tokenize_unclosed_quote.
Qed.

(** ** Witnesses *)

Lemma read_csv_wf_witness : exists f, read_csv csv_sample_text = Ok f /\ frame_wf f.
Proof.
  destruct (read_csv csv_sample_text) as [f|e] eqn:E; [|vm_compute in E; discriminate].
  exists f. split; [done|]. exact (read_csv_wf csv_sample_text f E).
Defined.

Lemma read_csv_shape_witness :
  exists f, read_csv csv_sample_text = Ok f /\ nrows f = 2 /\
    cols f = [("a", mkColumn Int64 [Some (SNum 1); Some (SNum 3)]);
              ("a.1", mkColumn Object [Some (SStr "x"); None])].
Proof.
  destruct (read_csv_shape csv_sample_text ["a"; "a"] ["1"; "x"] [["2"; "y"; "z"]; ["3"]])
    as (f & E & Hn & Hc); [vm_compute; reflexivity|].
  exists f. split_and!; [done | rewrite Hn; reflexivity | rewrite Hc; vm_compute; reflexivity].
Defined.

Lemma read_csv_errors_witness :
  read_csv (String.string_of_list_ascii (concat (render_row [LF] <$> [["a"]]) ++ QUOTE :: ["x"%char])) =
  Err (ParserError "Error tokenizing data. C error: EOF inside string").
Proof.
  apply (read_csv_errors [LF] [["a"]] ["x"%char]);
    [unfold eol_ok; left; reflexivity | apply (bool_decide_unpack _); vm_compute; exact I |
     apply (bool_decide_unpack _); vm_compute; exact I].
Defined.
