(* ===== verification/Impute.v ===== *)
(** * Impute: the cleaning stage, lines 83 to 89

    Line 83 drops two columns; line 86 fills the NaN cells of
    [Total.Fatal.Injuries] with the column's mean; line 89 fills those of
    [Weather.Condition] with the first value of the column's mode.  Both
    fills are chained assignments, [df[name].fillna(v, inplace=True)]:
    in pandas 2 without copy-on-write, [df[name]] is a view of the frame
    and the fill updates it; under copy-on-write (the default of
    pandas 3) [df[name]] is a copy and the frame is left as it was.
    [fillna_chained] takes the copy-on-write flag [cow] and models both.
    [mean] follows [Series.mean] (NaN skipped, NaN when no value) and
    [mode]/[first_or_keyerror] follow [Series.mode()[0]] (the smallest
    of the most frequent values; [KeyError: 0] when every cell is NaN). *)

From S2P Require Import Prelude Series Frame.
From Stdlib Require Import Lqa.
Open Scope nat_scope.

Definition TFI : string := "Total.Fatal.Injuries".
Definition WEATHER : string := "Weather.Condition".

(** ** Mean *)

Definition cell_num (o : option scalar) : option Q :=
  match o with Some (SNum q) => Some q | _ => None end.

(** The numbers of a float64 column, NaN skipped. *)
Definition nums (cells : list (option scalar)) : list Q := omap cell_num cells.

Definition Qsum (qs : list Q) : Q := foldr Qplus 0%Q qs.

Definition nan_count (cells : list (option scalar)) : nat :=
  length (filter (fun o => o = None) cells).

(** [Series.mean()] on float64 cells: the sum of the numbers over their
    count, or NaN ([None]) when there is none. *)
Definition series_mean (cells : list (option scalar)) : option Q :=
  match nums cells with
  | [] => None
  | qs => Some (Qred (Qsum qs / inject_Z (Z.of_nat (length qs))))
  end.

(** [df[name].mean()] ([nanops.nanmean]): float64 and int64 columns
    are averaged.  An object column is summed with [+] and the sum
    converted to a number: a string sum raises [TypeError] (pandas 2
    refuses to convert strings), and a column without values sums to 0
    over a count of 0, NaN.  A categorical column raises [TypeError].
    The mean of a datetime64 column (a timestamp) is not a cell of this
    model and is reported as [TypeError] too; the script takes the mean
    of [Total.Fatal.Injuries], which [read_csv] reads as float64 or
    int64, or as object when a field is not a number or the file has no
    data row. *)
Definition col_mean (c : column) : result (option scalar) :=
  match col_dtype c with
  | Float64 | Int64 => Ok (SNum <$> series_mean (col_cells c))
  | Object =>
      if decide (present (col_cells c) = []) then Ok None
      else Err (TypeError "Could not convert string to numeric")
  | _ => Err (TypeError "mean of a non-numeric column")
  end.

(** ** Fill *)

(** [Series.fillna(v)]: every NaN cell becomes [v]; filling with NaN
    ([v = None]) changes nothing. *)
Definition fillna_cells (v : option scalar) (cells : list (option scalar))
    : list (option scalar) :=
  (fun o => match o with None => v | Some x => Some x end) <$> cells.

(** [df[name].fillna(v, inplace=True)]: the receiver [df[name]] is
    evaluated first (KeyError when missing); without copy-on-write the
    fill writes through to the frame, with it the frame is unchanged. *)
Definition fillna_chained (cow : bool) (f : frame) (name : string) (v : option scalar)
    : result frame :=
  c <- getitem f name ;;
  if cow then Ok f
  else setitem f name (mkColumn (col_dtype c) (fillna_cells v (col_cells c))).

(** [s.mode()[0]]: positional access to an empty result raises
    [KeyError: 0]. *)
Definition first_or_keyerror {A} (l : list A) : result A :=
  match l with
  | x :: _ => Ok x
  | [] => Err (KeyError "0")
  end.

(** ** The three statements *)

(** Line 83. *)
Definition drop_unreliable (f : frame) : frame :=
  drop_columns ["Aircraft.damage"; "Registration.Number"] f.

(** Line 86: [df['Total.Fatal.Injuries'].fillna(df['Total.Fatal.Injuries'].mean(), inplace=True)]. *)
Definition impute_fatalities (cow : bool) (f : frame) : result frame :=
  _ <- getitem f TFI ;;
  c <- getitem f TFI ;;
  m <- col_mean c ;;
  fillna_chained cow f TFI m.

(** Line 89: [df['Weather.Condition'].fillna(df['Weather.Condition'].mode()[0], inplace=True)]. *)
Definition impute_weather (cow : bool) (f : frame) : result frame :=
  _ <- getitem f WEATHER ;;
  c <- getitem f WEATHER ;;
  v <- first_or_keyerror (mode (col_cells c)) ;;
  fillna_chained cow f WEATHER (Some v).

(** Lines 83 to 89 in order. *)
Definition clean (cow : bool) (f : frame) : result frame :=
  f1 <- Ok (drop_unreliable f) ;;
  f2 <- impute_fatalities cow f1 ;;
  impute_weather cow f2.

(** ** Samples for the witnesses *)

Definition tfi_sample : column :=
  mkColumn Float64 [Some (SNum 0%Q); Some (SNum 2%Q); None; None].

Definition weather_sample : column :=
  mkColumn Object [Some (SStr "VMC"); None; Some (SStr "IMC"); Some (SStr "VMC")].

Definition impute_sample : frame :=
  mkFrame 4 [(TFI, tfi_sample); (WEATHER, weather_sample)].

(** A frame whose two imputed columns are all NaN. *)
Definition nan_sample : frame :=
  mkFrame 2 [(TFI, mkColumn Float64 [None; None]); (WEATHER, mkColumn Object [None; None])].

(** ** Lemmas *)

Definition float_cells (cells : list (option scalar)) : Prop :=
  Forall (fun o => cell_ok Float64 o = true) cells.

Lemma fillna_none (cells : list (option scalar)) : fillna_cells None cells = cells.
Proof. induction cells as [|[v|] cells IH]; csimpl; by rewrite ?IH. Qed.

Lemma fillna_no_nan (v : scalar) (cells : list (option scalar)) :
  None ∉ fillna_cells (Some v) cells.
Proof.
  unfold fillna_cells. rewrite list_elem_of_fmap. intros ([o|] & Ho & _); done.
Qed.

Lemma length_fillna (v : option scalar) (cells : list (option scalar)) :
  length (fillna_cells v cells) = length cells.
Proof. apply length_fmap. Qed.

Lemma fillna_present (v : scalar) (cells : list (option scalar)) (x : scalar) :
  Some x ∈ fillna_cells (Some v) cells <-> Some x ∈ cells \/ (x = v /\ None ∈ cells).
Proof.
  unfold fillna_cells. rewrite list_elem_of_fmap. split.
  - intros ([o|] & Ho & Hin); simplify_eq; auto.
  - intros [Hx | [-> Hn]]; [by exists (Some x) | by exists None].
Qed.

Lemma fillna_cells_cons (v o : option scalar) (cells : list (option scalar)) :
  fillna_cells v (o :: cells) =
  (match o with None => v | Some x => Some x end) :: fillna_cells v cells.
Proof. reflexivity. Qed.

Lemma nums_cons (o : option scalar) (cells : list (option scalar)) :
  nums (o :: cells) = match cell_num o with Some q => q :: nums cells | None => nums cells end.
Proof. reflexivity. Qed.

Lemma Qsum_cons (q : Q) (qs : list Q) : Qsum (q :: qs) = (q + Qsum qs)%Q.
Proof. reflexivity. Qed.

Lemma inject_Z_S (k : nat) : inject_Z (Z.of_nat (S k)) == inject_Z (Z.of_nat k) + 1.
Proof. rewrite Nat2Z.inj_succ, <- Z.add_1_r, inject_Z_plus. reflexivity. Qed.

(** Filling the NaN cells of a float64 column with [m] adds [m] once per
    NaN cell to the sum, and one to the count per NaN cell. *)
Lemma fillna_nums (m : Q) (cells : list (option scalar)) :
  float_cells cells ->
  length (nums (fillna_cells (Some (SNum m)) cells)) = length (nums cells) + nan_count cells /\
  Qsum (nums (fillna_cells (Some (SNum m)) cells)) ==
    Qsum (nums cells) + inject_Z (Z.of_nat (nan_count cells)) * m.
Proof.
  unfold nan_count. induction 1 as [|o cells Ho Hcells [IHl IHs]].
  - split; [done|]. simpl. ring.
  - rewrite fillna_cells_cons, filter_cons.
    destruct o as [[s|q|d]|]; try discriminate Ho; rewrite !nums_cons; cbn [cell_num].
    + rewrite decide_False by done. cbn [length]. split; [lia|].
      rewrite !Qsum_cons, IHs. ring.
    + rewrite decide_True by done. cbn [length]. split; [lia|].
      rewrite inject_Z_S, Qsum_cons, IHs. ring.
Qed.

Lemma nums_length_pos (cells : list (option scalar)) :
  nums cells <> [] -> (0 < length (nums cells))%nat.
Proof. destruct (nums cells); simpl; [done | lia]. Qed.

Lemma inject_Z_nat_pos (n : nat) : (0 < n)%nat -> ~ inject_Z (Z.of_nat n) == 0.
Proof. intros Hn E. unfold Qeq in E. simpl in E. lia. Qed.

Lemma inject_Z_nat_sum_pos (n k : nat) :
  (0 < n)%nat -> ~ inject_Z (Z.of_nat n) + inject_Z (Z.of_nat k) == 0.
Proof. intros Hn. rewrite <- inject_Z_plus, <- Nat2Z.inj_add. apply inject_Z_nat_pos. lia. Qed.

Lemma mean_fill_arith (S N K : Q) :
  ~ N == 0 -> ~ N + K == 0 -> (S + K * (S / N)) / (N + K) == S / N.
Proof. intros HN HNK. field. auto. Qed.

Lemma float_cells_of_wf (n : nat) (c : column) :
  column_wf n c -> col_dtype c = Float64 -> float_cells (col_cells c).
Proof. intros [_ Hok] Ht. unfold float_cells. by rewrite <- Ht. Qed.


Lemma fillna_chained_update (f : frame) (name : string) (c : column) (v : option scalar) :
  frame_wf f -> getitem f name = Ok c ->
  exists f', fillna_chained false f name v = Ok f' /\
    forall name', getitem f' name' =
      if decide (name = name') then Ok (mkColumn (col_dtype c) (fillna_cells v (col_cells c)))
      else getitem f name'.
Proof.
  intros Hwf Hc. pose proof (getitem_wf f name c Hwf Hc) as [Hl _].
  destruct (setitem_ok f name (mkColumn (col_dtype c) (fillna_cells v (col_cells c))))
    as (f' & Hs & _ & Hg); [simpl; by rewrite length_fillna|].
  exists f'. unfold fillna_chained. by rewrite Hc; simpl; rewrite Hs.
Qed.

Lemma col_mean_float (c : column) :
  col_dtype c = Float64 -> col_mean c = Ok (SNum <$> series_mean (col_cells c)).
Proof. intros Ht. unfold col_mean. by rewrite Ht. Qed.

Lemma nums_nil_all_nan (cells : list (option scalar)) :
  float_cells cells -> nums cells = [] -> forall o, o ∈ cells -> o = None.
Proof.
  induction 1 as [|o cells Ho Hcells IH]; [set_solver|].
  rewrite nums_cons. destruct o as [[s|q|d]|]; try discriminate Ho; cbn [cell_num]; [done|].
  intros Hn o' [->|Ho']%elem_of_cons; [done | by apply IH].
Qed.

(** Filling a well-formed column with a value of its dtype, or filling
    a column without NaN, keeps it well formed. *)
Lemma fillna_column_wf (n : nat) (t : dtype) (cells : list (option scalar)) (v : option scalar) :
  column_wf n (mkColumn t cells) -> (None ∈ cells -> cell_ok t v = true) ->
  column_wf n (mkColumn t (fillna_cells v cells)).
Proof.
  intros [Hl Hok] Hv. split; cbn [col_cells col_dtype] in *; [by rewrite length_fillna|].
  apply Forall_fmap, Forall_forall. intros [x|] Hx; cbn.
  - rewrite Forall_forall in Hok. by apply (Hok (Some x)).
  - by apply Hv.
Qed.

(** [df[name].fillna(v, inplace=True)] on a well-formed frame, with a
    fill value the column can hold, succeeds under both pandas versions;
    it keeps the frame well formed and touches no other column. *)
Lemma fillna_chained_ok (cow : bool) (f : frame) (name : string) (c : column) (v : option scalar) :
  frame_wf f -> getitem f name = Ok c -> (None ∈ col_cells c -> cell_ok (col_dtype c) v = true) ->
  exists f', fillna_chained cow f name v = Ok f' /\ frame_wf f' /\ nrows f' = nrows f /\
    (exists c', getitem f' name = Ok c' /\ col_dtype c' = col_dtype c) /\
    forall n, n <> name -> getitem f' n = getitem f n.
Proof.
  intros Hwf Hc Hv. unfold fillna_chained. rewrite Hc. cbn [res_bind].
  destruct cow; [exists f; split_and!; eauto|].
  pose proof (getitem_wf f name c Hwf Hc) as Hw. destruct c as [t cells].
  pose proof (fillna_column_wf _ t cells v Hw Hv) as Hw'.
  destruct (setitem_ok f name (mkColumn t (fillna_cells v cells))) as (f' & Hs & Hn & Hg);
    [by destruct Hw' |].
  exists f'. split_and!; [done | by apply (setitem_wf f f' name (mkColumn t (fillna_cells v cells))) | done | |].
  - eexists. by rewrite Hg, decide_True.
  - intros n Hne. by rewrite Hg, decide_False.
Qed.

Lemma series_mean_red (cells : list (option scalar)) (q : Q) :
  series_mean cells = Some q -> Qred q = q.
Proof.
  unfold series_mean. destruct (nums cells); [done|]. intros [= <-]. apply Qred_complete, Qred_correct.
Qed.

Lemma col_mean_num (c : column) :
  col_dtype c = Float64 \/ col_dtype c = Int64 -> col_mean c = Ok (SNum <$> series_mean (col_cells c)).
Proof. intros [Ht|Ht]; unfold col_mean; by rewrite Ht. Qed.

(** ** Names and KeyErrors of the cleaning stage *)

Lemma col_mean_Err (c : column) (e : exn) : col_mean c = Err e -> forall k, e <> KeyError k.
Proof. unfold col_mean. repeat case_match; congruence. Qed.

Lemma fillna_chained_names (cow : bool) (f f' : frame) (name : string) (v : option scalar) :
  fillna_chained cow f name v = Ok f' ->
  name ∈ col_names f /\ forall x, x ∈ col_names f' <-> x ∈ col_names f.
Proof.
  unfold fillna_chained. intros H. res_inv.
  match goal with Hg : getitem _ _ = Ok _ |- _ => pose proof (getitem_Ok_elem _ _ _ Hg) end.
  split; [done|]. destruct cow; res_inv; [by subst|].
  intros y. rewrite (setitem_names _ _ _ _ H y). naive_solver.
Qed.

Lemma fillna_chained_keyerror (cow : bool) (f : frame) (name k : string) (v : option scalar) :
  fillna_chained cow f name v = Err (KeyError k) -> k = name /\ name ∉ col_names f.
Proof.
  unfold fillna_chained. intros H. res_inv.
  - apply getitem_Err in H as [[= ->] ?]. done.
  - destruct cow; [done|]. by apply setitem_Err in H.
Qed.

(** Cleaning reads both imputed columns and keeps every name but the
    two dropped. *)
Lemma clean_names (cow : bool) (f f' : frame) :
  clean cow f = Ok f' ->
  TFI ∈ col_names f /\ WEATHER ∈ col_names f /\
  forall y, y ∈ col_names f' <-> y ∈ col_names f /\ y ∉ ["Aircraft.damage"; "Registration.Number"].
Proof.
  unfold clean, impute_fatalities, impute_weather. intros H. res_inv. subst.
  match goal with
  | H1 : fillna_chained _ (drop_unreliable f) _ _ = Ok ?g, H2 : fillna_chained _ ?g _ _ = Ok f' |- _ =>
      apply fillna_chained_names in H1 as [Ht Hn1]; apply fillna_chained_names in H2 as [Hw Hn2]
  end.
  unfold drop_unreliable in *. rewrite drop_columns_names in Ht. rewrite Hn1, drop_columns_names in Hw.
  split_and!; [tauto | tauto |]. intros y. by rewrite Hn2, Hn1, drop_columns_names.
Qed.

(** Cleaning raises a [KeyError] only for a missing imputed column, or
    the [KeyError: 0] of [mode()[0]]. *)
Lemma clean_keyerror (cow : bool) (f : frame) (k : string) :
  clean cow f = Err (KeyError k) -> k = "0" \/ (k ∈ [TFI; WEATHER] /\ k ∉ col_names f).
Proof.
  unfold clean, impute_fatalities, impute_weather. intros H. res_inv; subst;
  repeat match goal with
  | Hg : getitem _ _ = Err _ |- _ => apply getitem_Err in Hg as [[= ->] ?Hn]
  | Hm : col_mean _ = Err (KeyError _) |- _ => exfalso; by eapply (col_mean_Err _ _ Hm)
  | Hf : fillna_chained _ _ _ _ = Err _ |- _ => apply fillna_chained_keyerror in Hf as [-> ?Hn]
  | Hk : first_or_keyerror _ = Err _ |- _ =>
      unfold first_or_keyerror in Hk; case_match; simplify_eq; by left
  | Hf : fillna_chained _ _ _ _ = Ok ?g, Hn : _ ∉ col_names ?g |- _ =>
      let Hn' := fresh in apply fillna_chained_names in Hf as [_ Hn']; rewrite Hn' in Hn; clear Hn'
  end;
  right; unfold drop_unreliable in *;
  match goal with Hn : _ ∉ col_names (drop_columns _ _) |- _ => rewrite drop_columns_names in Hn end;
  unfold TFI, WEATHER in *; set_solver.
Qed.

(** Line 86 succeeds on a numeric [Total.Fatal.Injuries]. *)
Lemma impute_fatalities_ok (cow : bool) (f : frame) (t : column) :
  frame_wf f -> getitem f TFI = Ok t -> col_dtype t = Float64 \/ col_dtype t = Int64 ->
  exists f', impute_fatalities cow f = Ok f' /\ frame_wf f' /\ nrows f' = nrows f /\
    (exists t', getitem f' TFI = Ok t' /\ col_dtype t' = col_dtype t) /\
    forall n, n <> TFI -> getitem f' n = getitem f n.
Proof.
  intros Hwf Ht Hd. unfold impute_fatalities. rewrite Ht. cbn [res_bind].
  rewrite col_mean_num by done. cbn [res_bind]. apply fillna_chained_ok; [done | done |].
  intros Hnone. destruct Hd as [Hd|Hd]; rewrite Hd.
  - destruct (series_mean (col_cells t)) as [q|] eqn:Hm; [|reflexivity].
    cbn. apply bool_decide_eq_true. by apply (series_mean_red (col_cells t)).
  - exfalso. destruct (getitem_wf f TFI t Hwf Ht) as [_ Hok]. rewrite Forall_forall in Hok.
    specialize (Hok None Hnone). by rewrite Hd in Hok.
Qed.

(** Line 89 succeeds on a [Weather.Condition] with a value. *)
Lemma impute_weather_ok (cow : bool) (f : frame) (w : column) :
  frame_wf f -> getitem f WEATHER = Ok w -> present (col_cells w) <> [] ->
  exists f', impute_weather cow f = Ok f' /\ frame_wf f' /\ nrows f' = nrows f /\
    forall n, n <> WEATHER -> getitem f' n = getitem f n.
Proof.
  intros Hwf Hw Hp. unfold impute_weather. rewrite Hw. cbn [res_bind].
  destruct (mode (col_cells w)) as [|v rest] eqn:Em; [by apply mode_nil in Em|]. cbn [first_or_keyerror res_bind].
  assert (Some v ∈ col_cells w) as Hv.
  { assert (v ∈ mode (col_cells w)) as Hm by (rewrite Em; by left). by apply elem_of_mode in Hm as [? _]. }
  destruct (fillna_chained_ok cow f WEATHER w (Some v)) as (f' & Hf & Hwf' & Hn & _ & Hg); [done | done | |].
  - intros _. destruct (getitem_wf f WEATHER w Hwf Hw) as [_ Hok]. rewrite Forall_forall in Hok.
    by apply (Hok (Some v)).
  - exists f'. split_and!; done.
Qed.

(** Lines 83 to 89 succeed on a frame with a numeric fatality column
    and a weather column with a value; the other columns they keep read
    as before. *)
Lemma clean_ok (cow : bool) (f : frame) (t w : column) :
  frame_wf f -> getitem f TFI = Ok t -> col_dtype t = Float64 \/ col_dtype t = Int64 ->
  getitem f WEATHER = Ok w -> present (col_cells w) <> [] ->
  exists f', clean cow f = Ok f' /\ frame_wf f' /\ nrows f' = nrows f /\
    (exists t', getitem f' TFI = Ok t' /\ col_dtype t' = col_dtype t) /\
    forall n, n ∉ [TFI; WEATHER; "Aircraft.damage"; "Registration.Number"] -> getitem f' n = getitem f n.
Proof.
  intros Hwf Ht Hd Hw Hp. unfold clean. cbn [res_bind].
  assert (forall n, n ∉ ["Aircraft.damage"; "Registration.Number"] ->
    getitem (drop_unreliable f) n = getitem f n) as Hdrop by (intros; by apply getitem_drop_columns).
  pose proof (drop_columns_wf ["Aircraft.damage"; "Registration.Number"] f Hwf) as Hwf1.
  destruct (impute_fatalities_ok cow (drop_unreliable f) t) as (f2 & E2 & Hwf2 & Hn2 & Ht2 & Hg2);
    [done | rewrite Hdrop; [done | unfold TFI; set_solver] | done |].
  rewrite E2. cbn [res_bind].
  destruct (impute_weather_ok cow f2 w) as (f3 & E3 & Hwf3 & Hn3 & Hg3); [done | | done |].
  { rewrite Hg2 by (unfold TFI, WEATHER; done). rewrite Hdrop; [done | unfold WEATHER; set_solver]. }
  exists f3. split_and!; [done | done | by rewrite Hn3, Hn2 | |].
  - destruct Ht2 as (t' & Ht' & Hd'). exists t'. by rewrite Hg3 by (unfold TFI, WEATHER; done).
  - intros n Hn. rewrite Hg3, Hg2, Hdrop; [done | set_solver | set_solver | set_solver].
Qed.

(** On a frame without rows whose imputed columns are empty object
    columns (the frame of a file holding only a header), the mean of
    line 86 is NaN and [mode()[0]] at line 89 raises [KeyError: 0]. *)
Lemma clean_no_rows (cow : bool) (f : frame) :
  nrows f = 0 -> getitem f TFI = Ok (mkColumn Object []) -> getitem f WEATHER = Ok (mkColumn Object []) ->
  clean cow f = Err (KeyError "0").
Proof.
  intros Hn Ht Hw. unfold clean, drop_unreliable, impute_fatalities, impute_weather, fillna_chained.
  set (g := drop_columns _ f).
  assert (getitem g TFI = Ok (mkColumn Object [])) as Gt
    by (unfold g; rewrite getitem_drop_columns; [done | unfold TFI; set_solver]).
  assert (getitem g WEATHER = Ok (mkColumn Object [])) as Gw
    by (unfold g; rewrite getitem_drop_columns; [done | unfold WEATHER; set_solver]).
  rewrite res_bind_Ok, !Gt, !res_bind_Ok. unfold col_mean. cbn [col_dtype col_cells present].
  rewrite decide_True by done. rewrite res_bind_Ok.
  destruct cow; cbn [res_bind].
  - rewrite Gw. reflexivity.
  - destruct (setitem_ok g TFI (mkColumn Object (fillna_cells None []))) as (g' & Eg' & _ & Hg');
      [by cbn; unfold g; cbn; rewrite Hn|].
    cbn [col_dtype col_cells]. rewrite Eg'. cbn [res_bind].
    rewrite Hg', decide_False by (unfold TFI, WEATHER; done). rewrite Gw. reflexivity.
Qed.

(** ** Properties of the cleaning stage *)

(** C1. When [Total.Fatal.Injuries] is a float64 column with at least one
    value, line 86 (pandas 2) replaces every NaN cell of it by the mean of
    its values, leaves no NaN in it and changes no other column. *)
Theorem impute_fatalities_fills (f : frame) (c : column) :
  frame_wf f -> getitem f TFI = Ok c -> col_dtype c = Float64 -> nums (col_cells c) <> [] ->
  exists m f', series_mean (col_cells c) = Some m /\
    impute_fatalities false f = Ok f' /\
    getitem f' TFI = Ok (mkColumn Float64 (fillna_cells (Some (SNum m)) (col_cells c))) /\
    None ∉ fillna_cells (Some (SNum m)) (col_cells c) /\
    (forall name, name <> TFI -> getitem f' name = getitem f name).
Proof.
  intros Hwf Hc Ht Hn. unfold series_mean.
  destruct (nums (col_cells c)) as [|q qs] eqn:E; [done|].
  set (m := Qred (Qsum (q :: qs) / inject_Z (Z.of_nat (length (q :: qs))))).
  destruct (fillna_chained_update f TFI c (Some (SNum m)) Hwf Hc) as (f' & Hf' & Hg).
  exists m, f'. split_and!; [done | | | apply fillna_no_nan |].
  - unfold impute_fatalities. rewrite Hc. simpl. rewrite col_mean_float by done.
    unfold series_mean. rewrite E. exact Hf'.
  - rewrite Hg, decide_True, <- Ht by done. done.
  - intros name Hne. rewrite Hg. by rewrite decide_False.
Qed.

(** C2. The fill value of line 86 is the mean of the originally present
    values only, and it does not move the mean: once the NaN cells hold
    it, the column's mean is the same (e.g. [0, 2, NaN] is filled with
    1, the mean of [0, 2], and [0, 2, 1] still has mean 1). *)
Theorem fillna_mean_preserves_mean (cells : list (option scalar)) (m : Q) :
  float_cells cells -> series_mean cells = Some m ->
  series_mean (fillna_cells (Some (SNum m)) cells) = Some m.
Proof.
  intros Hf Hm. destruct (fillna_nums m cells Hf) as [Hlen Hsum].
  unfold series_mean in *. destruct (nums cells) as [|q qs] eqn:E; [done|].
  injection Hm as <-.
  destruct (nums (fillna_cells _ cells)) as [|q' qs'] eqn:E'; [simpl in Hlen; lia|].
  f_equal. apply Qred_complete. rewrite Hsum, Qred_correct, Hlen.
  rewrite <- (Qsum_cons q qs). change (S (length qs)) with (length (q :: qs)).
  rewrite Nat2Z.inj_add, inject_Z_plus.
  apply mean_fill_arith; [apply inject_Z_nat_pos | apply inject_Z_nat_sum_pos]; simpl; lia.
Qed.

(** C18. When [Total.Fatal.Injuries] holds no value at all, its mean is
    NaN and line 86 fills NaN with NaN: the column is unchanged and every
    cell of it stays NaN, against the spec's claim that imputation
    leaves no absent value. *)
Theorem impute_fatalities_all_nan (f : frame) (c : column) :
  frame_wf f -> getitem f TFI = Ok c -> col_dtype c = Float64 -> nums (col_cells c) = [] ->
  exists f', impute_fatalities false f = Ok f' /\ getitem f' TFI = Ok c /\
    forall o, o ∈ col_cells c -> o = None.
Proof.
  intros Hwf Hc Ht Hn.
  destruct (fillna_chained_update f TFI c None Hwf Hc) as (f' & Hf' & Hg).
  exists f'. split_and!.
  - unfold impute_fatalities. rewrite Hc. simpl. rewrite col_mean_float by done.
    unfold series_mean. rewrite Hn. exact Hf'.
  - rewrite Hg, decide_True, fillna_none by done. by destruct c.
  - apply nums_nil_all_nan; [|done]. apply (float_cells_of_wf (nrows f)); [|done].
    by apply (getitem_wf f TFI).
Qed.

(** C3. When [Weather.Condition] has a value, line 89 (pandas 2) fills
    every NaN cell of it with a value [v] of the column that occurs at
    least as often as any other, and the least such value in the sort
    order, and leaves no NaN. *)
Theorem impute_weather_fills (f : frame) (c : column) :
  frame_wf f -> getitem f WEATHER = Ok c -> present (col_cells c) <> [] ->
  exists v f', impute_weather false f = Ok f' /\
    getitem f' WEATHER = Ok (mkColumn (col_dtype c) (fillna_cells (Some v) (col_cells c))) /\
    None ∉ fillna_cells (Some v) (col_cells c) /\
    Some v ∈ col_cells c /\
    (forall y, Some y ∈ col_cells c ->
       count_of y (present (col_cells c)) <= count_of v (present (col_cells c))) /\
    (forall y, y ∈ mode (col_cells c) -> key_leb v y = true).
Proof.
  intros Hwf Hc Hp.
  destruct (mode (col_cells c)) as [|v rest] eqn:Em; [by apply mode_nil in Em|].
  assert (v ∈ mode (col_cells c)) as Hv by (rewrite Em; by left).
  apply elem_of_mode in Hv as [Hv Hmax].
  destruct (fillna_chained_update f WEATHER c (Some v) Hwf Hc) as (f' & Hf' & Hg).
  exists v, f'. split_and!; [| | apply fillna_no_nan | done | done |].
  - unfold impute_weather. rewrite Hc. simpl. rewrite Em. exact Hf'.
  - by rewrite Hg, decide_True.
  - intros y Hy. apply (mode_head_least (col_cells c) v rest Em). by rewrite Em.
Qed.

(** C19. When [Weather.Condition] holds no value, [mode()] is empty and
    [mode()[0]] raises [KeyError: 0]: the script stops at line 89 with a
    key error, not with a diagnostic naming the column. *)
Theorem impute_weather_all_nan (cow : bool) (f : frame) (c : column) :
  getitem f WEATHER = Ok c -> present (col_cells c) = [] ->
  impute_weather cow f = Err (KeyError "0").
Proof.
  intros Hc Hp. unfold impute_weather. rewrite Hc. simpl.
  apply mode_nil in Hp. by rewrite Hp.
Qed.

(** The mode's tie-break is the sort order of the values, not their
    order of appearance: with VMC and IMC twice each, [mode()[0]] is IMC
    although VMC comes first in the column. *)
Example mode_tie_smallest :
  uniq (present [Some (SStr "VMC"); Some (SStr "IMC"); Some (SStr "IMC");
                 Some (SStr "VMC"); None]) = [SStr "VMC"; SStr "IMC"] /\
  first_or_keyerror (mode [Some (SStr "VMC"); Some (SStr "IMC"); Some (SStr "IMC");
                           Some (SStr "VMC"); None]) = Ok (SStr "IMC").
Proof. split; vm_compute; reflexivity. Qed.

(** ** Witnesses *)

Lemma impute_fatalities_fills_witness :
  exists f', impute_fatalities false impute_sample = Ok f' /\
    getitem f' TFI =
      Ok (mkColumn Float64 [Some (SNum 0%Q); Some (SNum 2%Q); Some (SNum 1%Q); Some (SNum 1%Q)]).
Proof.
  destruct (impute_fatalities_fills impute_sample tfi_sample) as (m & f' & Hm & Hf & Hg & _ & _).
  - apply (bool_decide_unpack _). vm_compute. exact I.
  - reflexivity.
  - reflexivity.
  - vm_compute. discriminate.
  - exists f'. split; [exact Hf|]. rewrite Hg. vm_compute in Hm. injection Hm as <-. reflexivity.
Defined.

Lemma fillna_mean_preserves_mean_witness :
  series_mean (col_cells tfi_sample) = Some 1%Q /\
  series_mean (fillna_cells (Some (SNum 1%Q)) (col_cells tfi_sample)) = Some 1%Q.
Proof.
  assert (series_mean (col_cells tfi_sample) = Some 1%Q) as Hm by reflexivity.
  split; [exact Hm|]. apply fillna_mean_preserves_mean; [repeat constructor | exact Hm].
Defined.

Lemma impute_fatalities_all_nan_witness :
  exists f', impute_fatalities false nan_sample = Ok f' /\
    getitem f' TFI = Ok (mkColumn Float64 [None; None]).
Proof.
  destruct (impute_fatalities_all_nan nan_sample (mkColumn Float64 [None; None]))
    as (f' & Hf & Hg & _).
  - apply (bool_decide_unpack _). vm_compute. exact I.
  - reflexivity.
  - reflexivity.
  - reflexivity.
  - exists f'. by split.
Defined.

Lemma impute_weather_fills_witness :
  exists f', impute_weather false impute_sample = Ok f' /\
    getitem f' WEATHER =
      Ok (mkColumn Object [Some (SStr "VMC"); Some (SStr "VMC"); Some (SStr "IMC");
                           Some (SStr "VMC")]).
Proof.
  destruct (impute_weather_fills impute_sample weather_sample) as (v & f' & Hf & _).
  - apply (bool_decide_unpack _). vm_compute. exact I.
  - reflexivity.
  - vm_compute. discriminate.
  - exists f'. split; [exact Hf|]. vm_compute in Hf. injection Hf as <-. reflexivity.
Defined.

Lemma impute_weather_all_nan_witness :
  impute_weather false nan_sample = Err (KeyError "0").
Proof. apply (impute_weather_all_nan false nan_sample (mkColumn Object [None; None])); reflexivity. Defined.
