(* ===== verification/Describe.v ===== *)
(** * Describe: the exploration statements of lines 52 to 80

    Line 52 ([df.head()]), line 58 ([df.describe()]) and line 80
    ([df.isnull().sum()]) are expression statements on the frame just
    read: the script computes each value and drops it.  [frame_head]
    ([Frame]) models the first; this file models the other two.

    [describe] follows [pandas/core/methods/describe.py]: a frame
    without columns raises [ValueError]; otherwise the numeric and
    datetime columns are described when there is one, every column
    when there is none.  A float64 or int64 column gets the rows of
    [describe_numeric_1d]: count, mean, std, min, the 25%, 50% and 75%
    quantiles and max, NaN skipped; an object or category column those
    of [describe_categorical_1d]: count, number of distinct values, the
    first entry of [value_counts()] (top) and its count (freq).  Numbers
    are exact rationals as everywhere in the development, so the std
    row is kept as its square, the sample variance (ddof = 1), whose
    square root pandas prints.  For a datetime column only count, min
    and max are modelled (the mean and quantiles of a datetime column
    are timestamps with a time of day, outside the [date] cells); the
    frame of line 58 comes from [read_csv], which gives no datetime
    column.

    The quantiles are numpy's [percentile] with [method='linear'] on the
    sorted values: the virtual index [q * (n - 1)], its floor [i] and
    fraction [g], and [_lerp] between the values at [i] and [i + 1],
    written as numpy writes it, with its two branches on [g >= 1/2]; at
    the last index both values are the last one. *)

From Stdlib Require Import Lqa Qround.
From S2P Require Import Prelude Series Frame Csv Header ReadCsv Impute.
Open Scope nat_scope.

(** ** Summaries *)

(** One column of the [describe()] table. *)
Inductive summary : Type :=
| NumSummary (count : nat) (mean var : option Q) (min p25 p50 p75 max : option Q)
| CatSummary (count unique : nat) (top : option scalar) (freq : option nat)
| DateSummary (count : nat) (min max : option date).

(** The non-NaN numbers of a column, sorted ascending. *)
Definition sorted_nums (cells : list (option scalar)) : list Q :=
  isort Qle_bool (nums cells).

(** numpy's [_lerp(a, b, t)]: [a + (b - a) * t], computed from [b] when
    [t >= 0.5]. *)
Definition lerp (a b t : Q) : Q :=
  if Qle_bool (1 # 2) t then (b - (b - a) * (1 - t))%Q else (a + (b - a) * t)%Q.

(** numpy's linear quantile [q] of sorted values. *)
Definition quantile (xs : list Q) (q : Q) : option Q :=
  match xs with
  | [] => None
  | x0 :: _ =>
      let v := (q * inject_Z (Z.of_nat (length xs - 1)))%Q in
      let i := Z.to_nat (Qfloor v) in
      if decide (S i < length xs) then
        Some (Qred (lerp (nth i xs x0) (nth (S i) xs x0) (v - inject_Z (Qfloor v))))
      else Some (nth (length xs - 1) xs x0)
  end.

(** [Series.var()] with [ddof=1]: NaN for fewer than two values. *)
Definition sample_var (xs : list Q) : option Q :=
  match xs with
  | [] | [_] => None
  | _ =>
      let n := inject_Z (Z.of_nat (length xs)) in
      let m := (Qsum xs / n)%Q in
      Some (Qred (Qsum ((fun x => (m - x) * (m - x))%Q <$> xs) / (n - 1)))
  end.

(** [describe_numeric_1d]. *)
Definition describe_numeric (cells : list (option scalar)) : summary :=
  let xs := sorted_nums cells in
  NumSummary (length xs) (series_mean cells) (sample_var (nums cells))
    (xs !! 0) (quantile xs (1 # 4)) (quantile xs (1 # 2)) (quantile xs (3 # 4)) (last xs).

(** [describe_categorical_1d]: top and freq from [value_counts()]. *)
Definition describe_categorical (cells : list (option scalar)) : summary :=
  let vc := value_counts (present cells) in
  CatSummary (length (present cells)) (length vc) (fst <$> vc !! 0) (snd <$> vc !! 0).

Definition cell_date (o : option scalar) : option date :=
  match o with Some (SDate d) => Some d | _ => None end.

(** [describe_timestamp_1d], its count, min and max rows. *)
Definition describe_date (cells : list (option scalar)) : summary :=
  let ds := isort date_leb (omap cell_date cells) in
  DateSummary (length ds) (ds !! 0) (last ds).

(** [select_describe_func]. *)
Definition describe_column (c : column) : summary :=
  match col_dtype c with
  | Float64 | Int64 => describe_numeric (col_cells c)
  | Datetime64 => describe_date (col_cells c)
  | Object | Category _ => describe_categorical (col_cells c)
  end.

(** [select_dtypes(include=[np.number, 'datetime'])]. *)
Definition numeric_or_datetime (t : dtype) : bool :=
  match t with Float64 | Int64 | Datetime64 => true | _ => false end.

(** [df.describe()], line 58. *)
Definition describe (f : frame) : result (list (string * summary)) :=
  if decide (cols f = []) then Err (ValueError "Cannot describe a DataFrame without columns")
  else
    let sel := filter (fun p => numeric_or_datetime (col_dtype p.2) = true) (cols f) in
    let data := if decide (sel = []) then cols f else sel in
    Ok ((fun p => (p.1, describe_column p.2)) <$> data).

(** A fatality column with a NaN, for the witnesses. *)
Definition fatal_sample : column :=
  mkColumn Float64 [Some (SNum 0); Some (SNum 2); None; Some (SNum 1); Some (SNum 10)].

(** [df.isnull().sum()], line 80: the number of NaN cells per column. *)
Definition isnull_sum (f : frame) : list (string * nat) :=
  (fun p => (p.1, nan_count (col_cells p.2))) <$> cols f.

(** The order of the sorted values. *)
Definition Qle_rel (a b : Q) : Prop := Qle_bool a b = true.

(** ** Linear interpolation *)

Open Scope Q_scope.

(** numpy's two-branch [_lerp] is the interpolation [a + (b - a) * t]
    on both branches. *)
Lemma lerp_ref (a b t : Q) : lerp a b t == a + (b - a) * t.
Proof. unfold lerp. destruct (Qle_bool _ _); ring. Qed.

Lemma lerp_between (a b t : Q) :
  a <= b -> 0 <= t <= 1 -> a <= lerp a b t /\ lerp a b t <= b.
Proof. rewrite lerp_ref. intros Hab [Ht0 Ht1]. split; nra. Qed.

Lemma lerp_mono (a b t t' : Q) : a <= b -> t <= t' -> lerp a b t <= lerp a b t'.
Proof. rewrite !lerp_ref. intros. nra. Qed.

(** ** Sorted values *)

Lemma sorted_nums_strongly (cells : list (option scalar)) :
  StronglySorted Qle_rel (sorted_nums cells).
Proof.
  apply sorted_strongly; [unfold Qle_rel; apply Qle_bool_trans|].
  apply isort_sorted, Qle_bool_total.
Qed.

Lemma sorted_nth_le (xs : list Q) (d : Q) (i j : nat) :
  StronglySorted Qle_rel xs -> (i <= j)%nat -> (j < length xs)%nat -> nth i xs d <= nth j xs d.
Proof.
  revert i j. induction xs as [|x xs IH]; intros i j Hs Hij Hj; cbn in Hj; [lia|].
  apply StronglySorted_inv in Hs as [Hs Hx].
  destruct i as [|i], j as [|j]; cbn; [apply Qle_refl | | lia | apply IH; auto with lia].
  rewrite Forall_forall in Hx. apply Qle_bool_iff, Hx, list_elem_of_In, nth_In. lia.
Qed.

(** ** The virtual index *)

Lemma inject_Z_nat_nonneg (k : nat) : 0 <= inject_Z (Z.of_nat k).
Proof. change 0 with (inject_Z 0). rewrite <- Zle_Qle. lia. Qed.


Section VirtualIndex.
Context (q : Q) (m : nat) (Hq : 0 <= q <= 1).

Lemma vindex_range : (0 <= Qfloor (q * inject_Z (Z.of_nat m)) <= Z.of_nat m)%Z.
Proof.
  pose proof (inject_Z_nat_nonneg m).
  split.
  - change 0%Z with (Qfloor 0). apply Qfloor_resp_le. nra.
  - rewrite <- (Qfloor_Z (Z.of_nat m)) at 2. apply Qfloor_resp_le. nra.
Qed.

Lemma vindex_frac :
  0 <= q * inject_Z (Z.of_nat m) - inject_Z (Qfloor (q * inject_Z (Z.of_nat m))) <= 1.
Proof.
  set (v := q * inject_Z (Z.of_nat m)). pose proof (Qfloor_le v). pose proof (Qlt_floor v).
  rewrite inject_Z_plus in *. change (inject_Z 1) with 1 in *. split; lra.
Qed.
End VirtualIndex.

Lemma vindex_mono (q q' : Q) (m : nat) :
  q <= q' -> 0 <= inject_Z (Z.of_nat m) ->
  (Qfloor (q * inject_Z (Z.of_nat m)) <= Qfloor (q' * inject_Z (Z.of_nat m)))%Z.
Proof. intros. apply Qfloor_resp_le. nra. Qed.

(** ** Quantiles of sorted values *)

(** [quantile] on a non-empty list, with any default for [nth]. *)
Lemma quantile_eq (xs : list Q) (q d : Q) :
  xs <> [] ->
  quantile xs q =
    let z := Qfloor (q * inject_Z (Z.of_nat (length xs - 1))) in
    if decide (S (Z.to_nat z) < length xs)%nat then
      Some (Qred (lerp (nth (Z.to_nat z) xs d) (nth (S (Z.to_nat z)) xs d)
        (q * inject_Z (Z.of_nat (length xs - 1)) - inject_Z z)))
    else Some (nth (length xs - 1) xs d).
Proof.
  destruct xs as [|x0 xs']; [done|]. intros _. unfold quantile. cbv zeta.
  case_decide; f_equal; [f_equal; f_equal|]; apply nth_indep; cbn in *; lia.
Qed.

Section Quantile.
Context (xs : list Q) (Hs : StronglySorted Qle_rel xs).

(** The quantile [q] lies between the values at its index [i] and at
    the next index (the last one at the end). *)
Lemma quantile_window (q : Q) (d : Q) :
  xs <> [] -> 0 <= q <= 1 ->
  let i := Z.to_nat (Qfloor (q * inject_Z (Z.of_nat (length xs - 1)))) in
  exists r, quantile xs q = Some r /\ (i < length xs)%nat /\
    nth i xs d <= r /\ r <= nth (Nat.min (S i) (length xs - 1)) xs d.
Proof.
  intros Hne Hq i. pose proof (vindex_range q (length xs - 1) Hq) as Hr.
  assert (i < length xs)%nat as Hi by (destruct xs; [done|]; cbn in *; lia).
  rewrite (quantile_eq xs q d Hne). cbv zeta. fold i. case_decide as Hin.
  - eexists. split; [reflexivity|]. split; [done|]. rewrite Qred_correct.
    replace (Nat.min (S i) (length xs - 1)) with (S i) by lia.
    apply lerp_between; [apply sorted_nth_le; auto with lia | apply vindex_frac].
  - eexists. split; [reflexivity|]. split; [done|].
    replace i with (length xs - 1)%nat by lia.
    replace (Nat.min (S (length xs - 1)) (length xs - 1)) with (length xs - 1)%nat by lia.
    split; apply Qle_refl.
Qed.

(** The quantile is monotone in [q]. *)
Lemma quantile_mono (q q' r r' : Q) :
  0 <= q -> q <= q' -> q' <= 1 -> quantile xs q = Some r -> quantile xs q' = Some r' -> r <= r'.
Proof.
  intros H0 Hqq H1 Er Er'. assert (xs <> []) as Hne by (by intros ->).
  destruct (quantile_window q 0 Hne (conj H0 (Qle_trans _ _ _ Hqq H1))) as (s & Es & Hi & Hs1 & Hs2).
  destruct (quantile_window q' 0 Hne (conj (Qle_trans _ _ _ H0 Hqq) H1)) as (s' & Es' & Hi' & Hs1' & Hs2').
  rewrite Er in Es. rewrite Er' in Es'. injection Es as <-. injection Es' as <-.
  set (m := (length xs - 1)%nat) in *.
  pose proof (inject_Z_nat_nonneg m).
  pose proof (vindex_mono q q' m Hqq ltac:(done)) as Hmono.
  pose proof (vindex_range q m (conj H0 (Qle_trans _ _ _ Hqq H1))).
  pose proof (vindex_range q' m (conj (Qle_trans _ _ _ H0 Hqq) H1)).
  set (z := Qfloor (q * inject_Z (Z.of_nat m))) in *.
  set (z' := Qfloor (q' * inject_Z (Z.of_nat m))) in *.
  destruct (decide (z = z')) as [Ez|Hz].
  - (* the same index: the same two values, interpolated at g <= g' *)
    revert Er Er'. rewrite !(quantile_eq xs _ 0 Hne). cbv zeta. fold m z z'. rewrite <- Ez.
    case_decide; intros [= <-] [= <-]; [|apply Qle_refl].
    rewrite !Qred_correct. apply lerp_mono; [apply sorted_nth_le; auto with lia|].
    nra.
  - (* a later index: r lies below the value at the next index *)
    apply (Qle_trans _ _ _ Hs2), (Qle_trans _ (nth (Z.to_nat z') xs 0)); [|done].
    apply sorted_nth_le; [done | lia | done].
Qed.
End Quantile.

(** ** Minimum, maximum, mean and variance *)

Lemma sorted_first_min (xs : list Q) (a : Q) :
  StronglySorted Qle_rel xs -> xs !! 0%nat = Some a -> Forall (fun x => a <= x) xs.
Proof.
  intros Hs Ha. apply Forall_forall. intros x (k & Hk)%list_elem_of_lookup.
  pose proof (lookup_lt_Some _ _ _ Hk).
  apply (nth_lookup_Some _ _ 0) in Ha, Hk. rewrite <- Ha, <- Hk.
  apply sorted_nth_le; [done | lia | done].
Qed.

Lemma sorted_last_max (xs : list Q) (e : Q) :
  StronglySorted Qle_rel xs -> last xs = Some e -> Forall (fun x => x <= e) xs.
Proof.
  intros Hs He. rewrite last_lookup in He. apply Forall_forall. intros x (k & Hk)%list_elem_of_lookup.
  pose proof (lookup_lt_Some _ _ _ Hk).
  apply (nth_lookup_Some _ _ 0) in He, Hk. rewrite <- He, <- Hk.
  apply sorted_nth_le; [done | lia | lia].
Qed.

Lemma Qsum_lower (a : Q) (qs : list Q) :
  Forall (fun x => a <= x) qs -> inject_Z (Z.of_nat (length qs)) * a <= Qsum qs.
Proof.
  induction 1 as [|x qs Hx _ IH]; [change (Qsum []) with 0; cbn [length]; change (inject_Z (Z.of_nat 0)) with 0; lra|].
  cbn [length]. rewrite inject_Z_S, Qsum_cons. lra.
Qed.

Lemma Qsum_upper (e : Q) (qs : list Q) :
  Forall (fun x => x <= e) qs -> Qsum qs <= inject_Z (Z.of_nat (length qs)) * e.
Proof.
  induction 1 as [|x qs Hx _ IH]; [change (Qsum []) with 0; cbn [length]; change (inject_Z (Z.of_nat 0)) with 0; lra|].
  cbn [length]. rewrite inject_Z_S, Qsum_cons. lra.
Qed.

Lemma Qsum_nonneg (qs : list Q) : Forall (fun x => 0 <= x) qs -> 0 <= Qsum qs.
Proof. induction 1; [apply Qle_refl|]. rewrite Qsum_cons. lra. Qed.

Lemma inject_Z_len_pos {A} (l : list A) : l <> [] -> 0 < inject_Z (Z.of_nat (length l)).
Proof.
  intros Hl. change 0 with (inject_Z 0). rewrite <- Zlt_Qlt.
  destruct l; [done|]. cbn [length]. lia.
Qed.

(** The mean of values between [a] and [e] lies between them. *)
Lemma series_mean_between (cells : list (option scalar)) (a e m : Q) :
  series_mean cells = Some m -> Forall (fun x => a <= x <= e) (nums cells) -> a <= m <= e.
Proof.
  unfold series_mean. destruct (nums cells) as [|x qs] eqn:Eq; [done|]. intros [= <-] Hb.
  pose proof (inject_Z_len_pos (x :: qs) ltac:(done)). rewrite Qred_correct. split.
  - apply Qle_shift_div_l; [done|]. rewrite Qmult_comm. apply (Qsum_lower a (x :: qs)).
    by apply (Forall_impl _ _ _ Hb); intros ? [].
  - apply Qle_shift_div_r; [done|]. rewrite Qmult_comm. apply (Qsum_upper e (x :: qs)).
    by apply (Forall_impl _ _ _ Hb); intros ? [].
Qed.

Lemma Qsq_nonneg (a : Q) : 0 <= a * a.
Proof. nra. Qed.

Lemma sample_var_eq (xs : list Q) :
  (1 < length xs)%nat ->
  sample_var xs = Some (Qred (Qsum ((fun x => (Qsum xs / inject_Z (Z.of_nat (length xs)) - x) *
    (Qsum xs / inject_Z (Z.of_nat (length xs)) - x)) <$> xs) / (inject_Z (Z.of_nat (length xs)) - 1))).
Proof. destruct xs as [|x [|y xs]]; cbn [length]; [lia..|reflexivity]. Qed.

(** The sample variance is defined from two values on and is not negative. *)
Lemma sample_var_spec (xs : list Q) :
  (forall v, sample_var xs = Some v -> 0 <= v) /\ (is_Some (sample_var xs) <-> (1 < length xs)%nat).
Proof.
  destruct (decide (1 < length xs)%nat) as [Hl|Hl].
  - rewrite (sample_var_eq xs Hl). split; [|split; [lia | by eexists]]. intros v [= <-].
    rewrite Qred_correct. apply Qle_shift_div_l.
    + assert (1 + 1 <= inject_Z (Z.of_nat (length xs))); [|lra].
      change (1 + 1) with (inject_Z 2). rewrite <- Zle_Qle. lia.
    + rewrite Qmult_0_l. apply Qsum_nonneg, Forall_fmap, Forall_forall. intros z _. apply Qsq_nonneg.
  - destruct xs as [|x [|y xs]]; cbn [length] in Hl; [..|lia];
      (split; [done | split; [by intros [] | cbn; lia]]).
Qed.


(** ** Counts *)

Definition num_or_nan (o : option scalar) : Prop :=
  o = None \/ exists q, o = Some (SNum q).

Lemma numeric_cell (t : dtype) (o : option scalar) :
  t = Float64 \/ t = Int64 -> cell_ok t o = true -> num_or_nan o.
Proof.
  unfold num_or_nan. intros [-> | ->]; destruct o as [[]|]; cbn; try done; eauto.
Qed.

Lemma nan_count_None (cells : list (option scalar)) : nan_count (None :: cells) = S (nan_count cells).
Proof. unfold nan_count. by rewrite filter_cons_True. Qed.

Lemma nan_count_Some (v : scalar) (cells : list (option scalar)) :
  nan_count (Some v :: cells) = nan_count cells.
Proof. unfold nan_count. by rewrite filter_cons_False. Qed.

(** A numeric column's values and NaN cells make up its length. *)
Lemma nums_nan_count (cells : list (option scalar)) :
  Forall num_or_nan cells -> (length (nums cells) + nan_count cells = length cells)%nat.
Proof.
  induction 1 as [|o cells [-> | [q ->]] _ IH]; [done|..];
    rewrite nums_cons; cbn [cell_num length]; [rewrite nan_count_None | rewrite nan_count_Some]; lia.
Qed.

(** ** The numeric summary *)

Lemma sorted_nums_perm (cells : list (option scalar)) : sorted_nums cells ≡ₚ nums cells.
Proof. apply isort_perm. Qed.

(** Every quantile lies between the first and the last sorted value. *)
Lemma quantile_between (xs : list Q) (q a e r : Q) :
  StronglySorted Qle_rel xs -> xs !! 0%nat = Some a -> last xs = Some e ->
  0 <= q <= 1 -> quantile xs q = Some r -> a <= r <= e.
Proof.
  intros Hs Ha He Hq Hr. assert (xs <> []) as Hne by (by intros ->).
  destruct (quantile_window xs Hs q 0 Hne Hq) as (r' & Er & Hi & H1 & H2).
  rewrite Hr in Er. injection Er as <-.
  apply (nth_lookup_Some _ _ 0) in Ha. rewrite last_lookup in He. apply (nth_lookup_Some _ _ 0) in He.
  assert (0 < length xs)%nat by (destruct xs; [done | cbn; lia]).
  split; [rewrite <- Ha | rewrite <- He]; (eapply Qle_trans; [|done]) || (eapply Qle_trans; [done|]);
    apply sorted_nth_le; auto with lia.
Qed.

Lemma describe_numeric_column (c : column) :
  col_dtype c = Float64 \/ col_dtype c = Int64 -> describe_column c = describe_numeric (col_cells c).
Proof. unfold describe_column. by intros [-> | ->]. Qed.

(** C7. [describe()] on a float64 or int64 column: the count and the
    NaN cells make up the column; the variance (the square of the std
    row) is defined from two values on and is not negative; a column
    without values has NaN in every other row; otherwise min and max
    are values of the column that bound all of them, and
    min <= 25% <= 50% <= 75% <= max, with the mean between min and max. *)
Theorem describe_numeric_bounds (n : nat) (c : column) :
  column_wf n c -> col_dtype c = Float64 \/ col_dtype c = Int64 ->
  exists k mean var mn p25 p50 p75 mx,
    describe_column c = NumSummary k mean var mn p25 p50 p75 mx /\
    (k + nan_count (col_cells c) = n)%nat /\
    (forall v, var = Some v -> 0 <= v) /\ (is_Some var <-> (1 < k)%nat) /\
    (k = 0%nat -> mean = None /\ mn = None /\ p25 = None /\ p50 = None /\ p75 = None /\ mx = None) /\
    ((0 < k)%nat -> exists a b c' d e m,
       mn = Some a /\ p25 = Some b /\ p50 = Some c' /\ p75 = Some d /\ mx = Some e /\
       mean = Some m /\
       a <= b /\ b <= c' /\ c' <= d /\ d <= e /\ a <= m /\ m <= e /\
       a ∈ nums (col_cells c) /\ e ∈ nums (col_cells c) /\
       Forall (fun x => a <= x <= e) (nums (col_cells c))).
Proof.
  intros [Hlen Hok] Ht. rewrite (describe_numeric_column c Ht). unfold describe_numeric.
  set (cells := col_cells c) in *. pose proof (sorted_nums_strongly cells) as Hs.
  pose proof (sorted_nums_perm cells) as Hp. set (xs := sorted_nums cells) in *.
  assert (length xs = length (nums cells)) as Hl by (by rewrite Hp).
  destruct (sample_var_spec (nums cells)) as [Hv1 Hv2].
  do 8 eexists. split; [reflexivity|]. split_and!.
  - rewrite Hl, nums_nan_count; [done|].
    apply (Forall_impl _ _ _ Hok). intros o. by apply numeric_cell.
  - done.
  - by rewrite Hl.
  - intros Hk. assert (xs = []) as Exs by (by apply length_zero_iff_nil).
    assert (nums cells = []) as En by (apply length_zero_iff_nil; lia).
    unfold series_mean. rewrite En, Exs. done.
  - intros Hk. assert (xs <> []) as Hne by (intros E; rewrite E in Hk; cbn in Hk; lia).
    destruct (xs !! 0%nat) as [a|] eqn:Ea; [|by destruct xs].
    destruct (last xs) as [e|] eqn:Ee; [|by apply last_None in Ee].
    assert (nums cells <> []) as Hne' by (intros E; rewrite E in Hl; destruct xs; [done | cbn in Hl; lia]).
    destruct (series_mean cells) as [m|] eqn:Em;
      [|unfold series_mean in Em; by destruct (nums cells)].
    assert (Forall (fun x => a <= x <= e) (nums cells)) as Hb.
    { rewrite <- Hp. apply Forall_and; split; [by apply sorted_first_min | by apply sorted_last_max]. }
    assert (forall q, 0 <= q <= 1 -> exists r, quantile xs q = Some r /\ a <= r <= e) as Hq.
    { intros q Hq. destruct (quantile_window xs Hs q 0 Hne Hq) as (r & Er & _).
      exists r. split; [done|]. by eapply quantile_between. }
    destruct (Hq (1 # 4)) as (b & Eb & Hb1 & _); [split; discriminate|].
    destruct (Hq (1 # 2)) as (c' & Ec & _); [split; discriminate|].
    destruct (Hq (3 # 4)) as (d & Ed & _ & Hd2); [split; discriminate|].
    exists a, b, c', d, e, m. rewrite Eb, Ec, Ed. split_and!; try done.
    + eapply (quantile_mono xs Hs (1 # 4) (1 # 2)); [discriminate.. | done | done].
    + eapply (quantile_mono xs Hs (1 # 2) (3 # 4)); [discriminate.. | done | done].
    + by apply (series_mean_between cells a e m).
    + by apply (series_mean_between cells a e m).
    + rewrite <- Hp. by apply list_elem_of_lookup_2 with 0%nat.
    + rewrite <- Hp. rewrite last_lookup in Ee. by apply list_elem_of_lookup_2 in Ee.
Qed.

(** C34. [describe()] on an object or category column: count is the number
    of values, unique the number of distinct ones, and top and freq are
    NaN when there is no value; otherwise top is a value of highest
    count and freq that count.  pandas takes them from the first entry
    of [value_counts()], whose order of ties numpy's quicksort leaves
    open; the statement holds for any of them. *)
Theorem describe_categorical_spec (cells : list (option scalar)) :
  exists k u top freq, describe_categorical cells = CatSummary k u top freq /\
    k = length (present cells) /\ u = length (uniq (present cells)) /\
    (present cells = [] -> top = None /\ freq = None) /\
    (present cells <> [] -> exists v n, top = Some v /\ freq = Some n /\ Some v ∈ cells /\
       n = count_of (Some v) cells /\ forall w, Some w ∈ cells -> (count_of (Some w) cells <= n)%nat).
Proof.
  unfold describe_categorical. do 4 eexists. split; [reflexivity|].
  assert (forall w m, (w, m) ∈ value_counts (present cells) <->
    Some w ∈ cells /\ m = count_of (Some w) cells) as Hvc.
  { intros w m. unfold value_counts. by rewrite elem_of_isort, elem_of_count_pairs, present_elem, count_of_present. }
  assert (length (value_counts (present cells)) = length (uniq (present cells))) as Hlen
    by (unfold value_counts, count_pairs; by rewrite length_isort, length_fmap).
  split_and!; [done | done | |].
  - intros E. unfold value_counts, count_pairs. by rewrite E.
  - intros Hne. pose proof (isort_desc_sorted snd (count_pairs (present cells))) as Hs.
    fold (value_counts (present cells)) in Hs.
    destruct (value_counts (present cells)) as [|[v n] rest] eqn:Evc.
    + exfalso. apply Hne, uniq_nil, length_zero_iff_nil. by rewrite <- Hlen.
    + assert ((v, n) ∈ (v, n) :: rest) as [Hv Hn]%Hvc by by left.
      exists v, n. split_and!; [done | done | done | done |].
      intros w Hw. apply (sorted_desc_max snd (v, n) rest Hs (w, count_of (Some w) cells)).
      by apply Hvc.
Qed.

(** ** [describe()] on the frame [read_csv] returns (line 58) *)

Definition read_dtype (t : dtype) : Prop := t = Object \/ t = Float64 \/ t = Int64.

Lemma infer_column_dtype (fields : list string) : read_dtype (col_dtype (infer_column fields)).
Proof. unfold infer_column, read_dtype. repeat case_match; cbn; tauto. Qed.

(** [read_csv] gives at least one column, each object, float64 or int64. *)
Lemma read_csv_columns (text : string) (f : frame) :
  read_csv text = Ok f -> cols f <> [] /\ Forall (fun p => read_dtype (col_dtype p.2)) (cols f).
Proof.
  unfold read_csv. destruct (tokenize text) as [rows|e] eqn:Et; cbn [res_bind]; [|done].
  destruct rows as [|header data]; [done|]. intros [= <-]. cbn [cols].
  apply tokenize_nonempty, Forall_inv in Et.
  destruct (header_names_distinct header) as [_ Hlen]. split.
  - intros E%(f_equal length). rewrite length_zip, length_fmap, length_seq, Hlen in E.
    destruct header; [done | cbn in E; lia].
  - apply Forall_forall. intros p Hp. destruct p as [nm c]. apply elem_of_zip_r in Hp.
    apply list_elem_of_fmap in Hp as (j & -> & _). apply infer_column_dtype.
Qed.

Lemma describe_column_not_date (c : column) :
  read_dtype (col_dtype c) -> match describe_column c with DateSummary _ _ _ => False | _ => True end.
Proof. unfold describe_column. by intros [-> | [-> | ->]]. Qed.

(** [describe()] at line 58 does not raise: it describes the numeric
    columns of the frame read when there is one, every column
    otherwise, and meets no datetime column. *)
Lemma describe_read_csv (text : string) (f : frame) :
  read_csv text = Ok f ->
  exists d, describe f = Ok d /\
    Forall (fun p => match p.2 with DateSummary _ _ _ => False | _ => True end) d.
Proof.
  intros (Hne & Hdt)%read_csv_columns. unfold describe. rewrite decide_False by done.
  eexists. split; [reflexivity|]. apply Forall_fmap.
  assert (Forall (fun p => read_dtype (col_dtype p.2))
    (let sel := filter (fun p => numeric_or_datetime (col_dtype p.2) = true) (cols f) in
     if decide (sel = []) then cols f else sel)) as Hsel.
  { cbv zeta. case_decide; [done|]. by apply Forall_filter_sub. }
  apply (Forall_impl _ _ _ Hsel). intros p Hp. apply describe_column_not_date, Hp.
Qed.

(** The summary pandas prints for [fatal_sample]: count 4, mean 3.25,
    std 4.573474 (the square root of 251/12), min 0, 25% 0.75,
    50% 1.5, 75% 4.0, max 10. *)
Example describe_fatal_sample :
  describe_column fatal_sample =
    NumSummary 4 (Some (13 # 4)) (Some (251 # 12)) (Some 0) (Some (3 # 4)) (Some (3 # 2))
      (Some 4) (Some 10).
Proof. vm_compute. reflexivity. Qed.

Lemma describe_numeric_bounds_witness :
  column_wf 5 fatal_sample /\ col_dtype fatal_sample = Float64 /\
  exists k mean var mn p25 p50 p75 mx,
    describe_column fatal_sample = NumSummary k mean var mn p25 p50 p75 mx /\
    (k + nan_count (col_cells fatal_sample) = 5)%nat.
Proof.
  assert (column_wf 5 fatal_sample) as Hwf by (apply (bool_decide_unpack _); vm_compute; exact I).
  split; [done|]. split; [reflexivity|].
  destruct (describe_numeric_bounds 5 fatal_sample Hwf (or_introl eq_refl))
    as (k & mean & var & mn & p25 & p50 & p75 & mx & E & Hk & _).
  exists k, mean, var, mn, p25, p50, p75, mx. by split.
Defined.

Lemma describe_categorical_spec_witness :
  exists k u top freq,
    describe_categorical [Some (SStr "VMC"); None; Some (SStr "VMC")] =
      CatSummary k u top freq /\ top = Some (SStr "VMC") /\ freq = Some 2%nat.
Proof.
  destruct (describe_categorical_spec [Some (SStr "VMC"); None; Some (SStr "VMC")])
    as (k & u & top & freq & E & _ & _ & _ & Hne).
  exists k, u, top, freq. split; [done|].
  destruct Hne as (v & n & -> & -> & Hv & -> & _); [discriminate|].
  apply list_elem_of_In in Hv. simpl in Hv.
  destruct Hv as [[= <-] | [[=] | [[= <-] | []]]]; split; reflexivity.
Defined.
