(* ===== verification/Cut.v ===== *)
(** * Cut: [pd.cut], the severity buckets of line 155

    [pd.cut(df['Total.Fatal.Injuries'], bins=[0, 1, 5, 100],
    labels=['Low', 'Medium', 'High'])] checks its arguments in the order of [cut] and
    [_bins_to_cuts]: bins increasing; bin edges unique, unless there are
    exactly two; a numeric column (searchsorted raises [TypeError] on
    strings); labels unique, and only for unique labels one label fewer
    than edges.  It places each value with numpy's binary search
    [bins.searchsorted(x, side='left')] (right-closed intervals, no
    [include_lowest]): index [i] in [1, len bins - 1] gives label
    [i - 1], index [0] or [len bins] gives NaN, and NaN stays NaN.  The
    result is a categorical column whose categories are the labels.

    [bsearch_left] is numpy's loop, run with fuel; [searchsorted_left]
    gives it [length bins] steps, enough since every step shrinks the
    window [lo, hi) by one at least; the section [BsearchFuel] shows
    that [log2 n + 1] steps, the bound of the C loop, already suffice. *)

From S2P Require Import Prelude Series Frame.
From Stdlib Require Import Lqa.
Open Scope nat_scope.

(** ** Binary search *)

(** numpy's [<] on float64 edges. *)
Definition Qlt_bool (a b : Q) : bool := negb (Qle_bool b a).

(** numpy's [searchsorted(side='left')] loop on the window [lo, hi). *)
Fixpoint bsearch_left (fuel : nat) (bins : list Q) (x : Q) (lo hi : nat) : nat :=
  match fuel with
  | O => lo
  | S fuel' =>
      if lo <? hi then
        let mid := (lo + hi) / 2 in
        match bins !! mid with
        | Some b =>
            if Qlt_bool b x then bsearch_left fuel' bins x (S mid) hi
            else bsearch_left fuel' bins x lo mid
        | None => lo
        end
      else lo
  end.

Definition searchsorted_left (bins : list Q) (x : Q) : nat :=
  bsearch_left (length bins) bins x 0 (length bins).

(** The reference: how many edges lie below [x]. *)
Definition count_below (bins : list Q) (x : Q) : nat :=
  length (filter (fun b => Qlt_bool b x = true) bins).

(** ** Argument checks *)

(** [Index.is_monotonic_increasing]. *)
Fixpoint monotonic_inc (bins : list Q) : bool :=
  match bins with
  | b1 :: (b2 :: _) as rest => Qle_bool b1 b2 && monotonic_inc rest
  | _ => true
  end.

(** On increasing edges, no two equal edges means no two equal neighbours. *)
Fixpoint adjacent_distinct (bins : list Q) : bool :=
  match bins with
  | b1 :: (b2 :: _) as rest => negb (Qeq_bool b1 b2) && adjacent_distinct rest
  | _ => true
  end.

(** ** The cut *)

(** One cell: NaN and values outside [(bins[0], bins[last]]] give NaN. *)
Definition cut_cell (bins : list Q) (labels : list string) (o : option scalar)
    : option scalar :=
  match o with
  | Some (SNum x) =>
      let i := searchsorted_left bins x in
      if (i =? 0) || (i =? length bins) then None else SStr <$> labels !! (i - 1)
  | _ => None
  end.

(** [pd.cut(col, bins, labels)] with the default [right=True],
    [include_lowest=False], [duplicates='raise'] and [ordered=True], in
    the order of [cut] and [_bins_to_cuts]: increasing edges; unique
    edges unless there are exactly two ([len(bins) != 2]); the search
    [bins.searchsorted(x_idx)], where a column that is not numeric raises
    [TypeError]; then, in one [elif] chain, unique labels and only then
    their number, [len(labels) != len(bins) - 1] on Python integers. *)
Definition pd_cut (c : column) (bins : list Q) (labels : list string) : result column :=
  if negb (monotonic_inc bins) then Err (ValueError "bins must increase monotonically.")
  else if negb (adjacent_distinct bins) && negb (length bins =? 2)
  then Err (ValueError "Bin edges must be unique")
  else match col_dtype c with
       | Float64 | Int64 =>
           if decide (¬ NoDup labels) then Err (ValueError "labels must be unique if ordered=True")
           else if decide (length labels + 1 <> length bins)
           then Err (ValueError "Bin labels must be one fewer than the number of bin edges")
           else Ok (mkColumn (Category labels) (cut_cell bins labels <$> col_cells c))
       | _ => Err (TypeError "cut of a non-numeric column")
       end.

Definition SEVERITY_BINS : list Q := [0; 1; 5; 100]%Q.
Definition SEVERITY_LABELS : list string := ["Low"; "Medium"; "High"].

(** Line 155: [df['severity'] = pd.cut(df['Total.Fatal.Injuries'], ...)]. *)
Definition add_severity (f : frame) : result frame :=
  c <- getitem f "Total.Fatal.Injuries" ;;
  s <- pd_cut c SEVERITY_BINS SEVERITY_LABELS ;;
  setitem f "severity" s.

(** The buckets as the analysis states them: (0, 1] is Low, (1, 5]
    Medium, (5, 100] High, anything else none. *)
Definition severity_of (x : Q) : option string :=
  if Qle_bool x 0 then None
  else if Qle_bool x 1 then Some "Low"
  else if Qle_bool x 5 then Some "Medium"
  else if Qle_bool x 100 then Some "High"
  else None.

(** A frame with a fatality column, for the witnesses. *)
Definition cut_sample : frame :=
  mkFrame 3 [("Total.Fatal.Injuries", mkColumn Float64 [Some (SNum 0%Q); Some (SNum 3%Q); None])].

(** ** Lemmas *)

Lemma Qlt_bool_iff (a b : Q) : Qlt_bool a b = true <-> (a < b)%Q.
Proof.
  unfold Qlt_bool. rewrite negb_true_iff. split.
  - intros H. apply Qnot_le_lt. intros Hle. apply Qle_bool_iff in Hle. congruence.
  - intros H. destruct (Qle_bool b a) eqn:E; [|done]. apply Qle_bool_iff in E. lra.
Qed.

Lemma monotonic_inc_sorted (bins : list Q) :
  monotonic_inc bins = true -> StronglySorted Qle bins.
Proof.
  intros H. apply sorted_strongly; [intros ???; apply Qle_trans|].
  induction bins as [|b1 [|b2 bins] IH]; [constructor | repeat constructor |].
  simpl in H. apply andb_true_iff in H as [H12 H].
  constructor; [by apply IH | constructor; by apply Qle_bool_iff].
Qed.

(** [is_monotonic_increasing] is sortedness, neighbour by neighbour. *)
Lemma monotonic_inc_iff (bins : list Q) : monotonic_inc bins = true <-> Sorted Qle bins.
Proof.
  induction bins as [|b1 [|b2 bins] IH]; [split; constructor | split; repeat constructor |].
  cbn [monotonic_inc]. rewrite andb_true_iff, Sorted_cons2_iff, Qle_bool_iff, IH. done.
Qed.

(** On increasing edges, no two equal neighbours means strictly
    increasing edges, hence no two equal edges anywhere. *)
Lemma adjacent_distinct_iff (bins : list Q) :
  Sorted Qle bins -> adjacent_distinct bins = true <-> StronglySorted Qlt bins.
Proof.
  intros Hs. rewrite <- (sorted_strongly_iff Qlt_trans).
  induction bins as [|b1 [|b2 bins] IH]; [split; constructor | split; repeat constructor |].
  apply Sorted_cons2_iff in Hs as [H12 Hs].
  cbn [adjacent_distinct]. rewrite andb_true_iff, Sorted_cons2_iff, IH by done.
  rewrite negb_true_iff. split; intros [Hn Hr]; split; try done.
  - apply Qle_lteq in H12 as [|E]; [done|]. by rewrite (proj2 (Qeq_bool_iff _ _) E) in Hn.
  - apply not_true_iff_false. rewrite Qeq_bool_iff. intros E. rewrite E in Hn. by apply (Qlt_irrefl b2).
Qed.

Lemma count_below_cons (b : Q) (bins : list Q) (x : Q) :
  count_below (b :: bins) x = (if Qlt_bool b x then 1 else 0) + count_below bins x.
Proof. unfold count_below. rewrite filter_cons. by destruct (Qlt_bool b x). Qed.

Lemma count_below_le (bins : list Q) (x : Q) : count_below bins x <= length bins.
Proof. apply length_filter. Qed.

Lemma count_below_zero (bins : list Q) (x : Q) :
  (forall b, b ∈ bins -> Qlt_bool b x = false) -> count_below bins x = 0.
Proof.
  induction bins as [|b bins IH]; intros Hb; [done|].
  rewrite count_below_cons, Hb, IH by set_solver. done.
Qed.

Lemma Qlt_bool_false_mono (b0 b x : Q) :
  Qlt_bool b0 x = false -> (b0 <= b)%Q -> Qlt_bool b x = false.
Proof.
  intros H0 Hle. destruct (Qlt_bool b x) eqn:E; [|done].
  apply Qlt_bool_iff in E. assert (Qlt_bool b0 x = true) as H1 by (apply Qlt_bool_iff; lra).
  congruence.
Qed.

(** On increasing edges the edges below [x] are a prefix: edge [i] is
    below [x] exactly when [i] is less than their number. *)
Lemma count_below_prefix (bins : list Q) (x : Q) (i : nat) (b : Q) :
  StronglySorted Qle bins -> bins !! i = Some b ->
  Qlt_bool b x = true <-> i < count_below bins x.
Proof.
  intros Hs. revert i. induction Hs as [|b0 bins Hs IH Hall]; intros i Hi; [done|].
  rewrite count_below_cons. destruct (Qlt_bool b0 x) eqn:E0.
  - destruct i as [|i]; simpl in Hi.
    + injection Hi as <-. rewrite E0. split; lia.
    + rewrite (IH i Hi). lia.
  - rewrite Forall_forall in Hall.
    rewrite count_below_zero by (intros b' Hb'; apply (Qlt_bool_false_mono b0); auto).
    destruct i as [|i]; simpl in Hi.
    + injection Hi as <-. rewrite E0. split; [done | lia].
    + rewrite (Qlt_bool_false_mono b0 b x E0); [split; [done | lia]|].
      apply Hall. by apply list_elem_of_lookup_2 in Hi.
Qed.

(** numpy's loop keeps [lo <= count_below <= hi] and so returns the
    number of edges below [x] once the window is empty.  A window of
    [n] entries leaves one of [n / 2] or [n - n / 2 - 1]; the fuel is
    enough when a bound [B] on the window for each amount of fuel shrinks
    that way and is [0] without fuel. *)
Section BsearchFuel.
Context (B : nat -> nat) (B0 : B 0 = 0)
  (Bstep : forall f n, 0 < n -> n <= B (S f) -> n / 2 <= B f /\ n - n / 2 - 1 <= B f).

Lemma bsearch_left_fuel (fuel : nat) (bins : list Q) (x : Q) (lo hi : nat) :
  StronglySorted Qle bins -> lo <= count_below bins x <= hi -> hi <= length bins ->
  hi - lo <= B fuel -> bsearch_left fuel bins x lo hi = count_below bins x.
Proof.
  intros Hs. revert lo hi. induction fuel as [|fuel IH]; intros lo hi Hc Hhi Hf; cbn [bsearch_left].
  - rewrite B0 in Hf. lia.
  - destruct (Nat.ltb_spec lo hi) as [Hlt|Hge]; [|lia]. cbv zeta.
    assert ((lo + hi) / 2 = lo + (hi - lo) / 2) as Emid.
    { replace (lo + hi) with ((hi - lo) + lo * 2) by lia. rewrite Nat.div_add by lia. lia. }
    destruct (Bstep fuel (hi - lo)) as [B1 B2]; [lia | done |].
    assert ((hi - lo) / 2 < hi - lo) by (apply Nat.div_lt; lia).
    destruct (lookup_lt_is_Some_2 bins ((lo + hi) / 2)) as [b Hb]; [lia|]. rewrite Hb.
    pose proof (count_below_prefix bins x _ b Hs Hb) as Hp.
    destruct (Qlt_bool b x) eqn:E.
    + apply IH; [| lia | lia]. destruct Hp as [Hp _]. specialize (Hp eq_refl). lia.
    + apply IH; [| lia | lia]. assert (¬ (lo + hi) / 2 < count_below bins x) by
        (intros Hlt'; apply Hp in Hlt'; discriminate). lia.
Qed.
End BsearchFuel.

(** One step of fuel per entry of the window is enough. *)
Lemma bsearch_left_correct (fuel : nat) (bins : list Q) (x : Q) (lo hi : nat) :
  StronglySorted Qle bins -> lo <= count_below bins x <= hi -> hi <= length bins ->
  hi - lo <= fuel -> bsearch_left fuel bins x lo hi = count_below bins x.
Proof.
  apply (bsearch_left_fuel (fun f => f)); [done|]. intros f n Hn Hf.
  assert (n / 2 < n) by (apply Nat.div_lt; lia). lia.
Qed.

Lemma searchsorted_count (bins : list Q) (x : Q) :
  monotonic_inc bins = true -> searchsorted_left bins x = count_below bins x.
Proof.
  intros Hm. apply bsearch_left_correct; [by apply monotonic_inc_sorted | | done | lia].
  pose proof (count_below_le bins x). lia.
Qed.

Lemma Qle_bool_false (x y : Q) : Qle_bool x y = false -> (y < x)%Q.
Proof.
  intros H. apply Qnot_le_lt. intros Hle. apply Qle_bool_iff in Hle. congruence.
Qed.

(** Case analysis on the comparisons [Qle_bool x c] of the goal. *)
Ltac qle_cases x :=
  repeat match goal with
  | |- context [Qle_bool x ?c] =>
      let E := fresh "E" in
      destruct (Qle_bool x c) eqn:E;
      [apply Qle_bool_iff in E | apply Qle_bool_false in E]
  end.

Lemma cut_cell_ok (bins : list Q) (labels : list string) (o : option scalar) :
  cell_ok (Category labels) (cut_cell bins labels o) = true.
Proof.
  unfold cut_cell. destruct o as [[s|q|d]|]; try done.
  destruct (_ || _); [done|].
  destruct (labels !! _) as [l|] eqn:El; [|done]. simpl.
  apply bool_decide_eq_true. by apply list_elem_of_lookup_2 in El.
Qed.

Lemma pd_cut_float (c : column) (bins : list Q) (labels : list string) :
  monotonic_inc bins = true -> adjacent_distinct bins = true ->
  length labels + 1 = length bins -> NoDup labels -> col_dtype c = Float64 \/ col_dtype c = Int64 ->
  pd_cut c bins labels = Ok (mkColumn (Category labels) (cut_cell bins labels <$> col_cells c)).
Proof.
  intros Hm Hd Hl Hnd Ht. unfold pd_cut. rewrite Hm, Hd. simpl.
  destruct Ht as [-> | ->]; (rewrite decide_False by tauto; rewrite decide_False by lia; done).
Qed.

Lemma pd_cut_Err (c : column) (bins : list Q) (labels : list string) (e : exn) :
  pd_cut c bins labels = Err e -> forall k, e <> KeyError k.
Proof. unfold pd_cut. intros H k ->. repeat case_match; discriminate. Qed.

(** Line 155 reads [Total.Fatal.Injuries] and adds [severity]. *)
Lemma add_severity_names (f f' : frame) :
  add_severity f = Ok f' ->
  "Total.Fatal.Injuries" ∈ col_names f /\ forall y, y ∈ col_names f' <-> y ∈ col_names f \/ y = "severity".
Proof.
  unfold add_severity. intros H. res_inv.
  match goal with Hg : getitem f _ = Ok _ |- _ => pose proof (getitem_Ok_elem _ _ _ Hg) end.
  split; [done|]. by apply (setitem_names _ _ _ _ H).
Qed.

(** It changes no other column. *)
Lemma add_severity_getitem (f f' : frame) (n : string) :
  add_severity f = Ok f' -> n <> "severity" -> getitem f' n = getitem f n.
Proof.
  unfold add_severity. intros H Hn. res_inv.
  apply setitem_Ok in H as (_ & _ & H). by rewrite H, decide_False by congruence.
Qed.

(** It raises a [KeyError] only when the fatality column is missing. *)
Lemma add_severity_keyerror (f : frame) (k : string) :
  add_severity f = Err (KeyError k) -> k = "Total.Fatal.Injuries" /\ k ∉ col_names f.
Proof.
  unfold add_severity. intros H. res_inv.
  - apply getitem_Err in H as [[= ->] ?]. by split.
  - exfalso. by eapply (pd_cut_Err _ _ _ _ H).
  - by apply setitem_Err in H.
Qed.

(** Line 155 on a well-formed frame with a numeric fatality column adds
    the [severity] column and touches no other. *)
Lemma add_severity_ok (f : frame) (c : column) :
  frame_wf f -> getitem f "Total.Fatal.Injuries" = Ok c -> col_dtype c = Float64 \/ col_dtype c = Int64 ->
  exists f', add_severity f = Ok f' /\ frame_wf f' /\ nrows f' = nrows f /\
    getitem f' "severity" =
      Ok (mkColumn (Category SEVERITY_LABELS) (cut_cell SEVERITY_BINS SEVERITY_LABELS <$> col_cells c)) /\
    forall name, name <> "severity" -> getitem f' name = getitem f name.
Proof.
  intros Hwf Hc Ht. pose proof (getitem_wf f _ c Hwf Hc) as [Hl _].
  set (s := mkColumn (Category SEVERITY_LABELS) (cut_cell SEVERITY_BINS SEVERITY_LABELS <$> col_cells c)).
  assert (column_wf (nrows f) s) as Hs.
  { split; simpl; [by rewrite length_fmap|].
    apply Forall_fmap, Forall_forall. intros o _. apply cut_cell_ok. }
  destruct (setitem_ok f "severity" s) as (f' & Hf' & Hn & Hg); [by destruct Hs|].
  exists f'. split_and!; [| by apply (setitem_wf f f' "severity" s) | done | by rewrite Hg, decide_True |].
  - unfold add_severity. rewrite Hc. cbn [res_bind].
    rewrite pd_cut_float by (reflexivity || (repeat constructor; set_solver) || done). exact Hf'.
  - intros name Hne. by rewrite Hg, decide_False.
Qed.

(** ** Properties of the cut *)

(** C21. Refinement: on increasing edges with one label fewer than edges,
    [pd.cut] gives a value the label [l] exactly when [l] is the label of
    an interval [(bins[i], bins[i+1]]] that contains it; numpy's binary
    search finds that interval. *)
Theorem cut_cell_interval (bins : list Q) (labels : list string) (x : Q) (l : string) :
  monotonic_inc bins = true -> length labels = length bins - 1 ->
  cut_cell bins labels (Some (SNum x)) = Some (SStr l) <->
  exists i lo hi, labels !! i = Some l /\ bins !! i = Some lo /\ bins !! S i = Some hi /\
    (lo < x)%Q /\ (x <= hi)%Q.
Proof.
  intros Hm Hl. pose proof (monotonic_inc_sorted bins Hm) as Hs.
  pose proof (count_below_le bins x) as Hle.
  unfold cut_cell. rewrite searchsorted_count by done.
  set (k := count_below bins x) in *. split.
  - destruct (Nat.eqb_spec k 0), (Nat.eqb_spec k (length bins)); simpl; try done.
    destruct (labels !! (k - 1)) as [l'|] eqn:El; simpl; [intros [= ->]|done].
    destruct (lookup_lt_is_Some_2 bins (k - 1)) as [lo Hlo]; [lia|].
    destruct (lookup_lt_is_Some_2 bins k) as [hi Hhi]; [lia|].
    exists (k - 1), lo, hi. split_and!; [done | done | by replace (S (k - 1)) with k by lia | |].
    + apply Qlt_bool_iff. apply (count_below_prefix bins x (k - 1) lo Hs Hlo). lia.
    + apply Qnot_lt_le. intros Hlt. apply Qlt_bool_iff in Hlt.
      apply (count_below_prefix bins x k hi Hs Hhi) in Hlt. lia.
  - intros (i & lo & hi & Hli & Hlo & Hhi & Hx1 & Hx2).
    apply Qlt_bool_iff in Hx1. apply (count_below_prefix bins x i lo Hs Hlo) in Hx1.
    assert (¬ S i < k) as Hk.
    { intros Hk. apply (count_below_prefix bins x (S i) hi Hs Hhi) in Hk.
      apply Qlt_bool_iff in Hk. lra. }
    assert (S i < length bins) by (by apply lookup_lt_Some in Hhi).
    replace k with (S i) by lia.
    destruct (Nat.eqb_spec (S i) 0), (Nat.eqb_spec (S i) (length bins)); try lia.
    simpl. rewrite Nat.sub_0_r, Hli. done.
Qed.

(** C22. The severity buckets of line 155: a fatality count [x] gets Low
    on (0, 1], Medium on (1, 5], High on (5, 100] and no bucket
    otherwise; so 0 and 150 get none, 1 is Low, 3 Medium, 10 High. *)
Theorem severity_spec (x : Q) :
  cut_cell SEVERITY_BINS SEVERITY_LABELS (Some (SNum x)) = SStr <$> severity_of x.
Proof.
  unfold cut_cell. rewrite searchsorted_count by reflexivity.
  unfold SEVERITY_BINS, SEVERITY_LABELS, severity_of. rewrite !count_below_cons.
  unfold count_below, Qlt_bool. rewrite filter_nil.
  qle_cases x; simpl; try reflexivity; exfalso; lra.
Qed.

(** C23. The argument checks of [pd.cut], in pandas' order: edges that
    are not increasing raise [ValueError] first; increasing edges with two
    equal ones raise [ValueError] unless there are exactly two edges; on
    a numeric column with strictly increasing edges (or two increasing
    ones), repeated labels raise the uniqueness [ValueError] whatever
    their number, and distinct labels not one fewer than the edges raise
    the label-count [ValueError]. *)
Theorem pd_cut_arg_errors (c : column) (bins : list Q) (labels : list string) :
  (~ Sorted Qle bins -> pd_cut c bins labels = Err (ValueError "bins must increase monotonically.")) /\
  (Sorted Qle bins -> ~ StronglySorted Qlt bins -> length bins <> 2 ->
     pd_cut c bins labels = Err (ValueError "Bin edges must be unique")) /\
  ((StronglySorted Qlt bins \/ Sorted Qle bins /\ length bins = 2) ->
   col_dtype c = Float64 \/ col_dtype c = Int64 ->
     (~ NoDup labels -> pd_cut c bins labels = Err (ValueError "labels must be unique if ordered=True")) /\
     (NoDup labels -> length labels + 1 <> length bins ->
        pd_cut c bins labels =
          Err (ValueError "Bin labels must be one fewer than the number of bin edges"))).
Proof.
  unfold pd_cut. split_and!.
  - intros Hs. destruct (monotonic_inc bins) eqn:Hm; [|done]. by apply monotonic_inc_iff in Hm.
  - intros Hs Hss H2. apply monotonic_inc_iff in Hs as Hm. rewrite Hm.
    rewrite (proj2 (Nat.eqb_neq _ _) H2).
    destruct (adjacent_distinct bins) eqn:Hd; [|done]. by apply adjacent_distinct_iff in Hd.
  - intros Hb Ht. assert (monotonic_inc bins && (adjacent_distinct bins || (length bins =? 2)) = true)
      as Hok.
    { destruct Hb as [Hss | [Hs H2]]; [|by rewrite (proj2 (monotonic_inc_iff _) Hs), H2, orb_true_r].
      pose proof (StronglySorted_Sorted Hss) as Hs.
      assert (Sorted Qle bins) as Hle by (eapply Sorted_weaken; [|exact Hs]; intros; by apply Qlt_le_weak).
      by rewrite (proj2 (monotonic_inc_iff _) Hle), (proj2 (adjacent_distinct_iff _ Hle) Hss). }
    apply andb_true_iff in Hok as [-> Hd]. simpl.
    replace (negb (adjacent_distinct bins) && negb (length bins =? 2)) with false
      by (destruct (adjacent_distinct bins), (length bins =? 2); done).
    destruct Ht as [-> | ->]; (split; [intros Hn; by rewrite decide_True |]);
      intros Hn Hl; rewrite decide_False by tauto; by rewrite decide_True.
Qed.

(** C24. Line 155 on a well-formed frame whose fatality column is
    float64 or int64 succeeds and adds a categorical [severity] column, with
    categories Low, Medium, High, holding the bucket of each row's
    count; the frame stays well formed and no other column changes. *)
Theorem add_severity_spec (f : frame) (c : column) :
  frame_wf f -> getitem f "Total.Fatal.Injuries" = Ok c -> col_dtype c = Float64 \/ col_dtype c = Int64 ->
  exists f' s, add_severity f = Ok f' /\ frame_wf f' /\
    getitem f' "severity" = Ok s /\ col_dtype s = Category SEVERITY_LABELS /\
    col_cells s = cut_cell SEVERITY_BINS SEVERITY_LABELS <$> col_cells c /\
    (forall name, name <> "severity" -> getitem f' name = getitem f name).
Proof.
  intros Hwf Hc Ht. destruct (add_severity_ok f c Hwf Hc Ht) as (f' & Hf & Hwf' & _ & Hs & Hg).
  by eexists f', _.
Qed.

(** C25. Termination in logarithmic time: numpy's search loop on [n]
    increasing edges has finished after [log2 n + 1] halvings of its
    window, [searchsorted] giving the same index with that fuel as with
    the [n] steps [searchsorted_left] allows. *)
Theorem searchsorted_log_steps (bins : list Q) (x : Q) :
  monotonic_inc bins = true ->
  bsearch_left (S (Nat.log2 (length bins))) bins x 0 (length bins) = searchsorted_left bins x.
Proof.
  intros Hm. rewrite searchsorted_count by done.
  pose proof (count_below_le bins x).
  apply (bsearch_left_fuel (fun f => 2 ^ f - 1)); [done | | by apply monotonic_inc_sorted | lia | done |].
  - intros f n Hn Hf. rewrite Nat.pow_succ_r' in Hf.
    assert (n / 2 < 2 ^ f) by (apply Nat.Div0.div_lt_upper_bound; lia).
    assert (n - n / 2 - 1 <= n / 2) by (pose proof (Nat.div_mod_eq n 2);
      pose proof (Nat.mod_upper_bound n 2); lia). lia.
  - destruct (length bins) as [|n] eqn:En; [simpl; lia|].
    pose proof (Nat.log2_spec (S n)) as [_ Hlt]; [lia|]. lia.
Qed.

(** ** Witnesses *)

Lemma cut_cell_interval_witness :
  exists i lo hi, SEVERITY_LABELS !! i = Some "Medium" /\ SEVERITY_BINS !! i = Some lo /\
    SEVERITY_BINS !! S i = Some hi /\ (lo < 3)%Q /\ (3 <= hi)%Q.
Proof. apply (cut_cell_interval SEVERITY_BINS SEVERITY_LABELS 3%Q "Medium"); reflexivity. Defined.

Lemma add_severity_spec_witness :
  exists f' s, add_severity cut_sample = Ok f' /\ getitem f' "severity" = Ok s /\
    col_cells s = [None; Some (SStr "Medium"); None].
Proof.
  destruct (add_severity_spec cut_sample
    (mkColumn Float64 [Some (SNum 0%Q); Some (SNum 3%Q); None])) as (f' & s & Hf & _ & Hg & _ & Hc & _).
  - apply (bool_decide_unpack _). vm_compute. exact I.
  - reflexivity.
  - by left.
  - exists f', s. split_and!; [done | done |]. rewrite Hc. reflexivity.
Defined.

Lemma pd_cut_arg_errors_witness :
  pd_cut (mkColumn Float64 []) [0; 1; 2]%Q ["a"; "a"; "a"; "a"] =
    Err (ValueError "labels must be unique if ordered=True").
Proof.
  apply (pd_cut_arg_errors (mkColumn Float64 []) [0; 1; 2]%Q ["a"; "a"; "a"; "a"]).
  - left. repeat constructor; vm_compute; done.
  - by left.
  - intros Hnd. apply NoDup_cons in Hnd as [Hn _]. apply Hn. by left.
Defined.

Lemma searchsorted_log_steps_witness :
  bsearch_left (S (Nat.log2 (length SEVERITY_BINS))) SEVERITY_BINS 3%Q 0 (length SEVERITY_BINS) =
  searchsorted_left SEVERITY_BINS 3%Q.
Proof. apply searchsorted_log_steps. reflexivity. Defined.
