(* ===== verification/Dates.v ===== *)
(** * Dates: [pd.to_datetime] and [.dt.year], lines 113 to 117

    Line 113 converts the object column [Event.Date] with
    [pd.to_datetime]; line 116 adds [year] from [.dt.year]; line 117
    counts accidents per year with [groupby('year').size()].

    The NTSB file writes dates as [YYYY-MM-DD]; the model parses exactly
    that format ([parse_date]), checks the calendar with [valid_date] of
    [Frame] (months 1 to 12, days within the month, Gregorian leap
    years), and checks that the day fits pandas' datetime64[ns],
    nanoseconds since 1970-01-01 in a signed 64-bit integer ([in_bounds]
    of [Frame], with [days_from_civil] the proleptic Gregorian day
    number).  [.dt.year] gives an int64 column when no cell is NaT and a
    float64 column otherwise.  With the default [errors='raise'],
    an unparseable string raises [ValueError] and an unrepresentable day
    [OutOfBoundsDatetime]; NaN stays NaT.  Other spellings that pandas'
    format inference would accept are outside this model: the file does
    not use them. *)

From S2P Require Import Prelude Series Frame.
From Stdlib Require Import Ascii.
Open Scope nat_scope.

(** ** The format YYYY-MM-DD *)

Definition digit_of (a : ascii) : option Z :=
  let n := nat_of_ascii a in
  if (48 <=? n) && (n <=? 57) then Some (Z.of_nat (n - 48)) else None.

Definition digit_char (k : Z) : ascii := ascii_of_nat (48 + Z.to_nat k).

Definition parse_date (s : string) : option date :=
  match s with
  | String y1 (String y2 (String y3 (String y4 (String s1
      (String m1 (String m2 (String s2 (String d1 (String d2 EmptyString))))))))) =>
      if decide (s1 = "-"%char /\ s2 = "-"%char) then
        match digit_of y1, digit_of y2, digit_of y3, digit_of y4,
              digit_of m1, digit_of m2, digit_of d1, digit_of d2 with
        | Some a1, Some a2, Some a3, Some a4, Some b1, Some b2, Some c1, Some c2 =>
            let d := mkDate (1000 * a1 + 100 * a2 + 10 * a3 + a4)
                            (10 * b1 + b2) (10 * c1 + c2) in
            if valid_date d then Some d else None
        | _, _, _, _, _, _, _, _ => None
        end
      else None
  | _ => None
  end.

(** How pandas prints a day of years 0 to 9999. *)
Definition print_date (d : date) : string :=
  let y := ts_year d in
  let m := ts_month d in
  let dd := ts_day d in
  String (digit_char (y / 1000)) (String (digit_char (y / 100 mod 10))
  (String (digit_char (y / 10 mod 10)) (String (digit_char (y mod 10))
  (String "-" (String (digit_char (m / 10)) (String (digit_char (m mod 10))
  (String "-" (String (digit_char (dd / 10)) (String (digit_char (dd mod 10))
  EmptyString))))))))).

(** ** The conversions *)

(** One cell of [pd.to_datetime(col)]. *)
Definition to_datetime_cell (o : option scalar) : result (option scalar) :=
  match o with
  | None => Ok None
  | Some (SStr s) =>
      match parse_date s with
      | Some d =>
          if in_bounds d then Ok (Some (SDate d))
          else Err (OutOfBoundsDatetime ("Out of bounds nanosecond timestamp: " ++ s))
      | None => Err (ValueError ("time data " ++ s ++ " does not match format %Y-%m-%d"))
      end
  | Some (SDate d) => Ok (Some (SDate d))
  | Some _ => Err (TypeError "not a date string")
  end.

(** The cells are converted in order; the first failure is raised. *)
Fixpoint map_result {A B} (g : A -> result B) (l : list A) : result (list B) :=
  match l with
  | [] => Ok []
  | x :: l' => y <- g x ;; ys <- map_result g l' ;; Ok (y :: ys)
  end.

(** [pd.to_datetime(col)] on an object or datetime64 column; numbers as
    epoch offsets are not modelled (the script converts strings). *)
Definition to_datetime (c : column) : result column :=
  match col_dtype c with
  | Object => cells <- map_result to_datetime_cell (col_cells c) ;; Ok (mkColumn Datetime64 cells)
  | Datetime64 => Ok c
  | _ => Err (TypeError "to_datetime of a non-string column")
  end.

Definition year_cell (o : option scalar) : option scalar :=
  match o with
  | Some (SDate d) => Some (SNum (inject_Z (ts_year d)))
  | _ => None
  end.

(** [col.dt.year]: integer years when no cell is NaT, else float64
    years with NaN for NaT. *)
Definition dt_year (c : column) : result column :=
  match col_dtype c with
  | Datetime64 =>
      Ok (mkColumn (if decide (None ∈ col_cells c) then Float64 else Int64)
            (year_cell <$> col_cells c))
  | _ => Err (AttributeError "Can only use .dt accessor with datetimelike values")
  end.

(** Lines 113 and 116. *)
Definition add_year (f : frame) : result frame :=
  c <- getitem f "Event.Date" ;;
  d <- to_datetime c ;;
  f1 <- setitem f "Event.Date" d ;;
  c1 <- getitem f1 "Event.Date" ;;
  y <- dt_year c1 ;;
  setitem f1 "year" y.

(** Line 117: [df.groupby('year').size()]. *)
Definition accidents_per_year (f : frame) : result (list (scalar * nat)) :=
  c <- getitem f "year" ;;
  Ok (groupby_size (col_cells c)).

(** The year the specification derives from a date cell: the year of
    the day a date string denotes, none for NaN or a string that is no
    date. *)
Definition date_year (o : option scalar) : option Z :=
  match o with
  | Some (SStr s) => ts_year <$> parse_date s
  | Some (SDate d) => Some (ts_year d)
  | _ => None
  end.

(** A frame with a date column, for the witnesses. *)
Definition date_sample : frame :=
  mkFrame 2 [("Event.Date", mkColumn Object [Some (SStr "1948-10-24"); None])].

(** ** Lemmas *)

Lemma digit_of_char (k : Z) : (0 <= k <= 9)%Z -> digit_of (digit_char k) = Some k.
Proof.
  intros Hk.
  assert (k = 0 \/ k = 1 \/ k = 2 \/ k = 3 \/ k = 4 \/ k = 5 \/ k = 6 \/ k = 7 \/ k = 8 \/ k = 9)%Z
    as Hc by lia.
  repeat destruct Hc as [->|Hc]; try reflexivity. subst. reflexivity.
Qed.

Lemma digit_of_Some (a : ascii) (k : Z) :
  digit_of a = Some k -> (0 <= k <= 9)%Z /\ digit_char k = a.
Proof.
  unfold digit_of, digit_char. destruct (48 <=? nat_of_ascii a) eqn:E1,
    (nat_of_ascii a <=? 57) eqn:E2; simpl; try discriminate.
  apply Nat.leb_le in E1, E2. intros [= <-]. split; [lia|].
  rewrite Nat2Z.id. rewrite <- (ascii_nat_embedding a) at 2. f_equal. lia.
Qed.

Lemma days_in_month_le (y m : Z) : (days_in_month y m <= 31)%Z.
Proof. unfold days_in_month. repeat case_match; lia. Qed.

Lemma valid_date_bounds (d : date) :
  valid_date d = true -> (1 <= ts_month d <= 12)%Z /\ (1 <= ts_day d <= 31)%Z.
Proof.
  unfold valid_date. rewrite !andb_true_iff, !Z.leb_le.
  pose proof (days_in_month_le (ts_year d) (ts_month d)). lia.
Qed.

Lemma days_from_civil_range (d : date) :
  (1 <= ts_month d <= 12)%Z -> (1 <= ts_day d <= 31)%Z ->
  ((1678 <= ts_year d <= 2261 -> -106700 <= days_from_civil d <= 106700) /\
   (ts_year d <= 1676 -> days_from_civil d <= -106800) /\
   (2263 <= ts_year d -> 106800 <= days_from_civil d))%Z.
Proof.
  destruct d as [y m dd]. unfold days_from_civil. cbn [ts_year ts_month ts_day].
  intros Hm Hd. zbool_cases; Z.div_mod_to_equations; split_and!; intros; lia.
Qed.

Lemma map_result_length {A B} (g : A -> result B) (l : list A) (l' : list B) :
  map_result g l = Ok l' -> length l' = length l.
Proof.
  revert l'. induction l as [|x l IH]; intros l'; simpl; [by intros [= <-]|].
  destruct (g x); simpl; [|done]. destruct (map_result g l) as [ys|e] eqn:E; simpl; [|done].
  intros [= <-]. simpl. by rewrite (IH ys).
Qed.

Lemma map_result_Forall {A B} (g : A -> result B) (Q : A -> Prop) (P : B -> Prop)
    (l : list A) (l' : list B) :
  (forall x y, Q x -> g x = Ok y -> P y) -> Forall Q l -> map_result g l = Ok l' -> Forall P l'.
Proof.
  intros Hg HQ. revert l'. induction HQ as [|x l Hx HQ IH]; intros l'; simpl; [by intros [= <-]|].
  destruct (g x) eqn:Ex; simpl; [|done]. destruct (map_result g l) as [ys|e] eqn:E; simpl; [|done].
  intros [= <-]. constructor; [by apply (Hg x) | by apply IH].
Qed.

Lemma map_result_elem_Err {A B} (g : A -> result B) (l : list A) (x : A) (e : exn) :
  x ∈ l -> g x = Err e -> is_ok (map_result g l) = false.
Proof.
  induction l as [|y l IH]; intros Hx Hg; [set_solver|]. simpl.
  apply elem_of_cons in Hx as [->|Hx]; [by rewrite Hg|].
  destruct (g y); simpl; [|done]. destruct (map_result g l) as [ys|e'] eqn:E; simpl; [|done].
  by specialize (IH Hx Hg).
Qed.

(** Every string the model parses has the separator [-]. *)
Lemma parse_date_dash (s : string) (d : date) :
  parse_date s = Some d -> "-"%char ∈ String.list_ascii_of_string s.
Proof.
  unfold parse_date. repeat case_match; try congruence. intros _. destruct_and!. subst.
  simpl. rewrite !elem_of_cons. tauto.
Qed.

Lemma parse_date_valid (s : string) (d : date) : parse_date s = Some d -> valid_date d = true.
Proof. unfold parse_date. repeat case_match; congruence. Qed.

Lemma to_datetime_cell_ok (o o' : option scalar) :
  cell_ok Object o = true -> to_datetime_cell o = Ok o' -> cell_ok Datetime64 o' = true.
Proof.
  unfold to_datetime_cell. destruct o as [[s|q|d]|]; try discriminate.
  - intros _. destruct (parse_date s) as [d|] eqn:E; [|done].
    destruct (in_bounds d) eqn:B; [|done]. intros [= <-]. simpl.
    by rewrite (parse_date_valid s d E), B.
  - intros _ [= <-]. reflexivity.
Qed.

Lemma digits4 (a1 a2 a3 a4 : Z) :
  (0 <= a1 <= 9 -> 0 <= a2 <= 9 -> 0 <= a3 <= 9 -> 0 <= a4 <= 9 ->
   let y := 1000 * a1 + 100 * a2 + 10 * a3 + a4 in
   y / 1000 = a1 /\ y / 100 mod 10 = a2 /\ y / 10 mod 10 = a3 /\ y mod 10 = a4)%Z.
Proof. intros. simpl. Z.div_mod_to_equations. split_and!; lia. Qed.

Lemma digits2 (b1 b2 : Z) :
  (0 <= b1 <= 9 -> 0 <= b2 <= 9 -> (10 * b1 + b2) / 10 = b1 /\ (10 * b1 + b2) mod 10 = b2)%Z.
Proof. intros. Z.div_mod_to_equations. split; lia. Qed.

Lemma undigits4 (y : Z) :
  (0 <= y <= 9999 ->
   1000 * (y / 1000) + 100 * (y / 100 mod 10) + 10 * (y / 10 mod 10) + y mod 10 = y /\
   0 <= y / 1000 <= 9 /\ 0 <= y / 100 mod 10 <= 9 /\ 0 <= y / 10 mod 10 <= 9 /\
   0 <= y mod 10 <= 9)%Z.
Proof. intros. Z.div_mod_to_equations. split_and!; lia. Qed.

Lemma undigits2 (m : Z) :
  (0 <= m <= 99 -> 10 * (m / 10) + m mod 10 = m /\ 0 <= m / 10 <= 9 /\ 0 <= m mod 10 <= 9)%Z.
Proof. intros. Z.div_mod_to_equations. split_and!; lia. Qed.

Lemma to_datetime_wf (n : nat) (c d : column) :
  column_wf n c -> to_datetime c = Ok d -> column_wf n d.
Proof.
  intros [Hl Hok]. unfold to_datetime. destruct (col_dtype c) eqn:Ht; try done.
  - destruct (map_result to_datetime_cell (col_cells c)) as [cells|e] eqn:E; [|done].
    intros [= <-]. split; simpl.
    + by rewrite (map_result_length _ _ _ E).
    + apply (map_result_Forall _ _ _ _ _ to_datetime_cell_ok Hok E).
  - intros [= <-]. split; [done|]. by rewrite Ht.
Qed.

Lemma year_cell_ok (o : option scalar) : cell_ok Float64 (year_cell o) = true.
Proof.
  destruct o as [[s|q|d]|]; try reflexivity. simpl. apply bool_decide_eq_true, inject_Z_Qred.
Qed.

(** A day of datetime64[ns] lies in the years 1677 to 2262. *)
Lemma in_bounds_year (d : date) :
  valid_date d = true -> in_bounds d = true -> (1677 <= ts_year d <= 2262)%Z.
Proof.
  intros Hv Hb. destruct (valid_date_bounds d Hv) as [Hm Hd].
  destruct (days_from_civil_range d Hm Hd) as (_ & R2 & R3).
  unfold in_bounds, int64_ok, INT64_MIN, INT64_MAX, NS_PER_DAY in Hb.
  apply andb_true_iff in Hb as [B1 B2]. apply Z.leb_le in B1, B2.
  destruct (Z_le_gt_dec (ts_year d) 1676); [specialize (R2 l); lia|].
  destruct (Z_le_gt_dec 2263 (ts_year d)); [specialize (R3 l); lia | lia].
Qed.

Lemma year_cell_int_ok (d : date) :
  cell_ok Datetime64 (Some (SDate d)) = true -> cell_ok Int64 (year_cell (Some (SDate d))) = true.
Proof.
  cbn [cell_ok scalar_has_dtype year_cell]. intros [Hv Hb]%andb_true_iff.
  pose proof (in_bounds_year d Hv Hb). cbn [Qden Qnum inject_Z].
  rewrite bool_decide_eq_true_2 by done. simpl. unfold int64_ok.
  apply andb_true_iff. split; apply Z.leb_le; unfold INT64_MIN, INT64_MAX; lia.
Qed.

Lemma dt_year_wf (n : nat) (c y : column) :
  column_wf n c -> dt_year c = Ok y -> column_wf n y.
Proof.
  intros [Hl Hok]. unfold dt_year. destruct (col_dtype c); try done. intros [= <-].
  split; simpl; [by rewrite length_fmap|]. apply Forall_fmap. case_decide as Hn.
  - apply Forall_forall. intros o _. apply year_cell_ok.
  - rewrite Forall_forall in Hok |- *. intros [[s|q|dd]|] Ho; specialize (Hok _ Ho);
      try discriminate; [by apply year_cell_int_ok | done].
Qed.

(** [.dt.year] on a well-formed datetime64 column: a year of a cell is
    NaN exactly when the cell is NaT, and otherwise a whole year of the
    datetime64[ns] range. *)
Lemma year_cells_none (cells : list (option scalar)) :
  Forall (fun o => cell_ok Datetime64 o = true) cells ->
  None ∈ year_cell <$> cells <-> None ∈ cells.
Proof.
  intros Hok. rewrite Forall_forall in Hok. rewrite list_elem_of_fmap. split; [|by exists None].
  intros ([[s|q|dd]|] & E & Ho); specialize (Hok _ Ho); done.
Qed.

Lemma dt_year_spec (n : nat) (c y : column) :
  column_wf n c -> dt_year c = Ok y ->
  col_dtype y = (if decide (None ∈ col_cells y) then Float64 else Int64) /\
  forall o, o ∈ col_cells y -> o = None \/ exists z, o = Some (SNum (inject_Z z)) /\ (1677 <= z <= 2262)%Z.
Proof.
  intros [_ Hok]. unfold dt_year. destruct (col_dtype c) eqn:Ht; try done. intros [= <-].
  cbn [col_dtype col_cells]. split.
  - destruct (decide (None ∈ col_cells c)) as [Hn|Hn], (decide (None ∈ year_cell <$> col_cells c))
      as [Hn'|Hn']; try done; exfalso; by rewrite year_cells_none in Hn'.
  - intros o (o0 & -> & Ho)%list_elem_of_fmap. rewrite Forall_forall in Hok.
    specialize (Hok _ Ho). destruct o0 as [[s|q|dd]|]; try discriminate; [|by left].
    right. apply andb_true_iff in Hok as [Hv Hb]. exists (ts_year dd).
    split; [done | by apply in_bounds_year].
Qed.

Lemma to_datetime_dtype (c d : column) : to_datetime c = Ok d -> col_dtype d = Datetime64.
Proof.
  unfold to_datetime. destruct (col_dtype c) eqn:Ht; try discriminate.
  - destruct (map_result _ _); cbn [res_bind]; [|done]. by intros [= <-].
  - by intros [= <-].
Qed.

(** Lines 113 and 116 once the dates convert: the frame keeps its rows,
    stays well formed, gains the [year] column of [.dt.year] and keeps
    every column but [Event.Date] and [year]. *)
Lemma add_year_ok (f : frame) (c d : column) :
  frame_wf f -> getitem f "Event.Date" = Ok c -> to_datetime c = Ok d ->
  exists f' y, add_year f = Ok f' /\ dt_year d = Ok y /\ frame_wf f' /\ nrows f' = nrows f /\
    getitem f' "year" = Ok y /\ column_wf (nrows f) d /\
    forall n, n <> "Event.Date" -> n <> "year" -> getitem f' n = getitem f n.
Proof.
  intros Hwf Hc Hd. pose proof (to_datetime_wf _ _ _ (getitem_wf f _ c Hwf Hc) Hd) as Hdw.
  destruct (setitem_ok f "Event.Date" d) as (f1 & E1 & Hn1 & Hg1); [by destruct Hdw|].
  pose proof (setitem_wf f f1 _ d Hwf Hdw E1) as Hwf1.
  assert (dt_year d = Ok (mkColumn (if decide (None ∈ col_cells d) then Float64 else Int64)
    (year_cell <$> col_cells d))) as Ey by (unfold dt_year; by rewrite (to_datetime_dtype c d Hd)).
  set (y := mkColumn _ _) in Ey.
  assert (column_wf (nrows f1) y) as Hyw by (rewrite Hn1; by apply (dt_year_wf _ d)).
  destruct (setitem_ok f1 "year" y) as (f' & E' & Hn' & Hg'); [by destruct Hyw|].
  exists f', y. split_and!; [| done | by apply (setitem_wf f1 f' "year" y) | lia | by rewrite Hg', decide_True | done |].
  - unfold add_year. rewrite Hc. cbn [res_bind]. rewrite Hd. cbn [res_bind]. rewrite E1. cbn [res_bind].
    rewrite Hg1, decide_True by done. cbn [res_bind]. rewrite Ey. cbn [res_bind]. exact E'.
  - intros n H1 H2. by rewrite Hg', decide_False, Hg1, decide_False.
Qed.

(** ** Names and KeyErrors of lines 113 and 116 *)

Lemma map_result_Err {A B} (g : A -> result B) (l : list A) (e : exn) :
  map_result g l = Err e -> exists x, x ∈ l /\ g x = Err e.
Proof.
  induction l as [|y l IH]; cbn; [done|]. intros H. res_inv.
  - exists y. split; [set_solver | done].
  - destruct (IH H) as (z & Hz & Hg). exists z. split; [set_solver | done].
Qed.

Lemma to_datetime_Err (c : column) (e : exn) : to_datetime c = Err e -> forall k, e <> KeyError k.
Proof.
  unfold to_datetime. intros H k ->. case_match; res_inv; try discriminate.
  apply map_result_Err in H as (o & _ & Ho). unfold to_datetime_cell in Ho.
  repeat case_match; discriminate.
Qed.

Lemma dt_year_Err (c : column) (e : exn) : dt_year c = Err e -> forall k, e <> KeyError k.
Proof. unfold dt_year. case_match; congruence. Qed.

(** Lines 113 and 116 read [Event.Date] and add [year]. *)
Lemma add_year_names (f f' : frame) :
  add_year f = Ok f' ->
  "Event.Date" ∈ col_names f /\ forall y, y ∈ col_names f' <-> y ∈ col_names f \/ y = "year".
Proof.
  unfold add_year. intros H. res_inv.
  match goal with Hg : getitem f _ = Ok _ |- _ => pose proof (getitem_Ok_elem _ _ _ Hg) as Hd end.
  split; [done|]. intros y.
  repeat match goal with Hs : setitem _ _ _ = Ok _ |- _ => setoid_rewrite (setitem_names _ _ _ _ Hs); clear Hs end.
  naive_solver.
Qed.

(** They change no other column. *)
Lemma add_year_getitem (f f' : frame) (n : string) :
  add_year f = Ok f' -> n <> "Event.Date" -> n <> "year" -> getitem f' n = getitem f n.
Proof.
  unfold add_year. intros H Hd Hy. res_inv.
  repeat match goal with Hs : setitem _ _ _ = Ok _ |- _ =>
    apply setitem_Ok in Hs as (_ & _ & Hs); rewrite Hs, decide_False by congruence; clear Hs end.
  done.
Qed.

(** They raise a [KeyError] only when [Event.Date] is missing. *)
Lemma add_year_keyerror (f : frame) (k : string) :
  add_year f = Err (KeyError k) -> k = "Event.Date" /\ k ∉ col_names f.
Proof.
  unfold add_year. intros H. res_inv;
  repeat match goal with
  | Hg : getitem f _ = Err _ |- _ => apply getitem_Err in Hg as [[= ->] ?]; by split
  | Hs : setitem _ _ _ = Err _ |- _ => by apply setitem_Err in Hs
  | Ht : to_datetime _ = Err _ |- _ => exfalso; by eapply (to_datetime_Err _ _ Ht)
  | Ht : dt_year _ = Err _ |- _ => exfalso; by eapply (dt_year_Err _ _ Ht)
  | Hs : setitem _ _ _ = Ok ?g, Hg : getitem ?g _ = Err _ |- _ =>
      apply getitem_Err in Hg as [_ Hg]; exfalso; apply Hg, (setitem_names _ _ _ _ Hs); by right
  end.
Qed.

(** ** Years of the converted cells *)

Lemma map_result_Forall2 {A B} (g : A -> result B) (l : list A) (l' : list B) :
  map_result g l = Ok l' -> Forall2 (fun x y => g x = Ok y) l l'.
Proof.
  revert l'. induction l as [|x l IH]; intros l'; cbn; [by intros [= <-]|].
  intros H. res_inv. subst. constructor; [done | by apply IH].
Qed.

(** The year of a converted cell is the year of the date it was, and a
    converted cell is present exactly when it has a year. *)
Definition year_of_cell (o o' : option scalar) : Prop :=
  year_cell o' = (fun y => SNum (inject_Z y)) <$> date_year o /\ (is_Some o <-> is_Some (date_year o)).

Lemma to_datetime_cell_year (o o' : option scalar) : to_datetime_cell o = Ok o' -> year_of_cell o o'.
Proof.
  unfold to_datetime_cell, year_of_cell. destruct o as [[s|q|d]|]; try discriminate.
  - destruct (parse_date s) as [d|] eqn:E; [|done]. destruct (in_bounds d); [|done].
    intros [= <-]. cbn. rewrite E. split; [done | split; eauto].
  - intros [= <-]. split; [done | split; eauto].
  - intros [= <-]. split; [done | split; intros [? ?]; discriminate].
Qed.

Lemma to_datetime_years (n : nat) (c d : column) :
  column_wf n c -> to_datetime c = Ok d -> Forall2 year_of_cell (col_cells c) (col_cells d).
Proof.
  intros [_ Hok]. unfold to_datetime. destruct (col_dtype c) eqn:Ht; try discriminate.
  - destruct (map_result _ _) as [cells|e] eqn:E; cbn [res_bind]; [|done]. intros [= <-].
    eapply Forall2_impl; [by apply map_result_Forall2 | apply to_datetime_cell_year].
  - intros [= <-]. apply Forall_Forall2_diag, (Forall_impl _ _ _ Hok).
    intros [[s|q|dd]|] Hc; try discriminate; split; try done; cbn;
      split; try (intros [? ?]; discriminate); eauto.
Qed.

(** Counting the rows of year [y] among the years of the cells. *)
Lemma count_year (y : Z) (cells : list (option scalar)) :
  count_of (Some (SNum (inject_Z y))) ((fun o => (fun z => SNum (inject_Z z)) <$> date_year o) <$> cells) =
  length (filter (fun o => date_year o = Some y) cells).
Proof.
  induction cells as [|o cells IH]; [done|]. rewrite fmap_cons, count_of_cons, filter_cons, IH.
  destruct (date_year o) as [z|]; cbn [fmap option_fmap option_map].
  - destruct (decide (z = y)) as [->|Hne]; [by rewrite !decide_True|].
    rewrite !decide_False; [done | congruence |]. intros [= Hq]. by apply Hne.
  - rewrite !decide_False; [done | congruence | congruence].
Qed.

(** The year column is the list of the years of the date cells, and it
    has as many present cells as the date column. *)
Lemma year_cells_of (l l' : list (option scalar)) :
  Forall2 year_of_cell l l' ->
  year_cell <$> l' = (fun o => (fun y => SNum (inject_Z y)) <$> date_year o) <$> l /\
  length (present (year_cell <$> l')) = length (present l).
Proof.
  induction 1 as [|o o' l l' [Hy Hs] _ [IHe IHl]]; [done|].
  rewrite !fmap_cons, Hy. split; [by rewrite IHe|]. unfold present in *.
  destruct o as [o|], (date_year _) as [z|]; cbn; rewrite ?IHl; try done.
  - destruct (proj1 Hs) as [? [=]]; eauto.
  - destruct (proj2 Hs) as [? [=]]; eauto.
Qed.

(** ** Properties of the date conversion *)

(** Round trip, parse then print: every string [parse_date]
    accepts is the printed form of the day it denotes. *)
Theorem parse_print_roundtrip (s : string) (d : date) :
  parse_date s = Some d -> print_date d = s.
Proof.
  destruct s as [|y1 [|y2 [|y3 [|y4 [|s1 [|m1 [|m2 [|s2 [|d1 [|d2 [|? ?]]]]]]]]]]];
    try discriminate.
  unfold parse_date. destruct (decide _) as [[-> ->]|]; [|discriminate].
  destruct (digit_of y1) as [a1|] eqn:E1, (digit_of y2) as [a2|] eqn:E2,
    (digit_of y3) as [a3|] eqn:E3, (digit_of y4) as [a4|] eqn:E4,
    (digit_of m1) as [b1|] eqn:E5, (digit_of m2) as [b2|] eqn:E6,
    (digit_of d1) as [c1|] eqn:E7, (digit_of d2) as [c2|] eqn:E8; try discriminate.
  destruct (valid_date _); [intros [= <-] | discriminate].
  apply digit_of_Some in E1 as [R1 <-], E2 as [R2 <-], E3 as [R3 <-], E4 as [R4 <-],
    E5 as [R5 <-], E6 as [R6 <-], E7 as [R7 <-], E8 as [R8 <-].
  unfold print_date. cbv zeta. cbn [ts_year ts_month ts_day].
  destruct (digits4 a1 a2 a3 a4 R1 R2 R3 R4) as (-> & -> & -> & ->).
  destruct (digits2 b1 b2 R5 R6) as [-> ->]. destruct (digits2 c1 c2 R7 R8) as [-> ->].
  reflexivity.
Qed.

(** Round trip, print then parse: a valid day of a four-digit year
    prints to a string that parses back to it. *)
Theorem print_parse_roundtrip (d : date) :
  valid_date d = true -> (0 <= ts_year d <= 9999)%Z -> parse_date (print_date d) = Some d.
Proof.
  intros Hv Hy. pose proof (valid_date_bounds d Hv) as [Hm Hd].
  destruct (undigits4 (ts_year d) Hy) as (Ey & Y1 & Y2 & Y3 & Y4).
  destruct (undigits2 (ts_month d)) as (Em & M1 & M2); [lia|].
  destruct (undigits2 (ts_day d)) as (Ed & D1 & D2); [lia|].
  unfold print_date, parse_date. rewrite decide_True by done.
  rewrite !digit_of_char by done. rewrite Ey, Em, Ed.
  destruct d as [y m dd]. simpl in *. by rewrite Hv.
Qed.

(** C28. [pd.to_datetime] takes its format from the first non-NaN string:
    when that string is a [YYYY-MM-DD] date, pandas parses every cell
    with [%Y-%m-%d], by its ISO parser and then by [strptime], and a
    string with digits but no [-] (such as [10/24/1948]) matches
    neither: the conversion raises, so the analysis never gets a NaT year
    for such a row, against the spec's "unparseable date gives an absent
    year".  Strings without digits are left out: pandas reads some of
    them ([NaT], [now], [today]) as dates. *)
Theorem to_datetime_unparseable_raises (c : column) (s0 s : string) (d0 : date) :
  col_dtype c = Object -> present (col_cells c) !! 0 = Some (SStr s0) -> parse_date s0 = Some d0 ->
  Some (SStr s) ∈ col_cells c -> "-"%char ∉ String.list_ascii_of_string s ->
  (exists ch, ch ∈ String.list_ascii_of_string s /\ is_Some (digit_of ch)) ->
  is_ok (to_datetime c) = false.
Proof.
  intros Ht _ _ Hin Hdash _. unfold to_datetime. rewrite Ht.
  destruct (map_result to_datetime_cell (col_cells c)) eqn:E; [exfalso|done].
  destruct (parse_date s) as [d|] eqn:Hp; [by apply Hdash, (parse_date_dash s d)|].
  pose proof (map_result_elem_Err to_datetime_cell (col_cells c) (Some (SStr s))
    (ValueError ("time data " ++ s ++ " does not match format %Y-%m-%d")) Hin) as H.
  rewrite E in H. simpl in H. unfold to_datetime_cell in H. rewrite Hp in H.
  specialize (H eq_refl). discriminate.
Qed.

(** The int64 nanosecond range of datetime64[ns] on days. *)
Lemma in_bounds_range (d : date) :
  valid_date d = true ->
  ((1678 <= ts_year d <= 2261)%Z -> in_bounds d = true) /\
  ((ts_year d <= 1676 \/ 2263 <= ts_year d)%Z -> in_bounds d = false) /\
  in_bounds (mkDate 1677 9 21) = false /\ in_bounds (mkDate 1677 9 22) = true /\
  in_bounds (mkDate 2262 4 11) = true /\ in_bounds (mkDate 2262 4 12) = false.
Proof.
  intros Hv. destruct (valid_date_bounds d Hv) as [Hm Hd].
  destruct (days_from_civil_range d Hm Hd) as (R1 & R2 & R3).
  unfold in_bounds, int64_ok, INT64_MIN, INT64_MAX, NS_PER_DAY. split_and!; try reflexivity.
  - intros Hy. specialize (R1 Hy). apply andb_true_iff. rewrite !Z.leb_le. lia.
  - intros [Hy|Hy]; [specialize (R2 Hy) | specialize (R3 Hy)];
      apply andb_false_iff; rewrite !Z.leb_gt; lia.
Qed.

(** C29. The range of datetime64[ns] at line 113: [pd.to_datetime]
    converts the date string of every valid day of the years 1678 to
    2261 to that day, raises [OutOfBoundsDatetime] on every day of a
    year up to 1676 or from 2263, and the edges are 1677-09-22 and
    2262-04-11. *)
Theorem in_bounds_years (d : date) :
  valid_date d = true -> (0 <= ts_year d <= 9999)%Z ->
  ((1678 <= ts_year d <= 2261)%Z ->
     to_datetime_cell (Some (SStr (print_date d))) = Ok (Some (SDate d))) /\
  ((ts_year d <= 1676 \/ 2263 <= ts_year d)%Z ->
     exists msg, to_datetime_cell (Some (SStr (print_date d))) = Err (OutOfBoundsDatetime msg)) /\
  in_bounds (mkDate 1677 9 21) = false /\ in_bounds (mkDate 1677 9 22) = true /\
  in_bounds (mkDate 2262 4 11) = true /\ in_bounds (mkDate 2262 4 12) = false.
Proof.
  intros Hv Hy. destruct (in_bounds_range d Hv) as (H1 & H2 & Hedges).
  unfold to_datetime_cell. rewrite print_parse_roundtrip by done.
  split; [intros Hr; by rewrite H1|]. split; [|exact Hedges].
  intros Hr. rewrite H2 by done. by eexists.
Qed.

(** C30. Lines 113 and 116 keep the frame well formed and add a [year]
    column of whole years between 1677 and 2262 or NaN: integer when no
    date is NaT, float64 (NaN for NaT) otherwise. *)
Theorem add_year_wf (f f' : frame) :
  frame_wf f -> add_year f = Ok f' ->
  frame_wf f' /\ exists c, getitem f' "year" = Ok c /\
    col_dtype c = (if decide (None ∈ col_cells c) then Float64 else Int64) /\
    forall o, o ∈ col_cells c -> o = None \/ exists y, o = Some (SNum (inject_Z y)) /\ (1677 <= y <= 2262)%Z.
Proof.
  intros Hwf E. pose proof E as E0. unfold add_year in E0.
  destruct (getitem f "Event.Date") as [c|e] eqn:Ec; cbn [res_bind] in E0; [|done].
  destruct (to_datetime c) as [d|e] eqn:Ed; cbn [res_bind] in E0; [|done].
  destruct (add_year_ok f c d Hwf Ec Ed) as (f'' & y & E'' & Ey & Hwf'' & _ & Hg & Hdw & _).
  rewrite E in E''. injection E'' as <-. split; [done|]. exists y. split; [done|].
  by apply (dt_year_spec (nrows f) d).
Qed.

(** C33. Lines 113 to 117: after the conversion, [groupby('year').size()]
    has one entry per year some date of [Event.Date] falls in, with the
    number of rows whose date is in that year, in increasing order of
    year; no row is lost: the counts add up to the number of rows with a
    date. *)
Theorem accidents_per_year_spec (f f' : frame) (c : column) :
  frame_wf f -> getitem f "Event.Date" = Ok c -> add_year f = Ok f' ->
  exists py, accidents_per_year f' = Ok py /\
    (forall k n, (k, n) ∈ py <-> exists y, k = SNum (inject_Z y) /\
       n = length (filter (fun o => date_year o = Some y) (col_cells c)) /\ 0 < n) /\
    Sorted (fun a b => key_leb a.1 b.1 = true) py /\
    sum_list_with snd py = length (present (col_cells c)).
Proof.
  intros Hwf Hc Hf. pose proof Hf as Hf0. unfold add_year in Hf0. rewrite Hc in Hf0. cbn [res_bind] in Hf0.
  destruct (to_datetime c) as [d|e] eqn:Ed; cbn [res_bind] in Hf0; [clear Hf0|done].
  destruct (add_year_ok f c d Hwf Hc Ed) as (f'' & y & E & Ey & _ & _ & Hy & _).
  rewrite Hf in E. injection E as <-.
  destruct (year_cells_of _ _ (to_datetime_years _ c d (getitem_wf f _ c Hwf Hc) Ed)) as [Hys Hlen].
  assert (col_cells y = year_cell <$> col_cells d) as Hcy.
  { unfold dt_year in Ey. destruct (col_dtype d); try discriminate. by injection Ey as <-. }
  unfold accidents_per_year. rewrite Hy. eexists; split; [reflexivity|]. unfold groupby_size.
  rewrite Hcy, Hys. split_and!.
  - intros k n. rewrite elem_of_isort, elem_of_count_pairs, present_elem, count_of_present. split.
    + intros [(o & Ho & Hin)%list_elem_of_fmap ->]. destruct (date_year o) as [z|] eqn:Hz; [|done].
      injection Ho as ->. exists z. split_and!; [done | by rewrite count_year |].
      apply count_of_pos, list_elem_of_fmap. exists o. by rewrite Hz.
    + intros (z & -> & -> & Hn). rewrite <- count_year in Hn |- *. split; [by apply count_of_elem | done].
  - apply isort_sorted, key_pair_leb_total.
  - rewrite isort_sum, count_pairs_total, <- Hys. done.
Qed.

(** ** Witnesses *)

Lemma accidents_per_year_spec_witness :
  exists f' py, add_year date_sample = Ok f' /\ accidents_per_year f' = Ok py /\
    sum_list_with snd py = 1.
Proof.
  destruct (add_year date_sample) as [f'|e] eqn:E; [|vm_compute in E; discriminate].
  destruct (accidents_per_year_spec date_sample f' (mkColumn Object [Some (SStr "1948-10-24"); None]))
    as (py & Hpy & _ & _ & Hs); [apply (bool_decide_unpack _); vm_compute; exact I | reflexivity | exact E |].
  exists f', py. split_and!; [done | done |]. rewrite Hs. reflexivity.
Defined.

Lemma parse_print_roundtrip_witness : print_date (mkDate 1948 10 24) = "1948-10-24".
Proof. apply parse_print_roundtrip. reflexivity. Defined.

Lemma print_parse_roundtrip_witness :
  parse_date (print_date (mkDate 2024 2 29)) = Some (mkDate 2024 2 29).
Proof. apply print_parse_roundtrip; [reflexivity | simpl; lia]. Defined.

Lemma to_datetime_unparseable_raises_witness :
  is_ok (to_datetime (mkColumn Object [None; Some (SStr "1948-10-24"); Some (SStr "10/24/1948")])) = false.
Proof.
  apply (to_datetime_unparseable_raises _ "1948-10-24" "10/24/1948" (mkDate 1948 10 24));
    [reflexivity | reflexivity | reflexivity | | |].
  - apply list_elem_of_In. simpl. tauto.
  - apply (bool_decide_unpack _). vm_compute. exact I.
  - exists "1"%char. split; [apply list_elem_of_In; simpl; tauto | by eexists].
Defined.

Lemma in_bounds_years_witness :
  to_datetime_cell (Some (SStr "2000-02-29")) = Ok (Some (SDate (mkDate 2000 2 29))).
Proof.
  apply (proj1 (in_bounds_years (mkDate 2000 2 29) eq_refl ltac:(simpl; lia))). simpl. lia.
Defined.

Lemma add_year_wf_witness :
  exists f', add_year date_sample = Ok f' /\ frame_wf f'.
Proof.
  destruct (add_year date_sample) as [f'|e] eqn:E; [|vm_compute in E; discriminate].
  exists f'. split; [done|]. apply (add_year_wf date_sample f'); [|exact E].
  apply (bool_decide_unpack _). vm_compute. exact I.
Defined.
