(* ===== verification/CrossTab.v ===== *)
(** * CrossTab: the two-key grouping of line 158

    [df.groupby(['Aircraft.Category', 'severity']).size().unstack().fillna(0)]
    counts the rows of each (category, severity) pair.  Rows where
    either key is NaN are left out (groupby's [dropna=True]).  Because
    [severity] is categorical and pandas 2 groups with [observed=False],
    the index is the product of the two keys' levels: every non-NaN
    value of [Aircraft.Category] (sorted) against every category of
    [severity] (in category order), unobserved pairs counting 0; then
    [unstack] turns the second level into columns.  When neither key is
    categorical only observed pairs exist, and [unstack] spreads them
    over the observed values of each key, [fillna(0)] filling the holes.
    [crosstab] models both cases as a table of row labels, column labels
    and counts; [severity_by_aircraft] is line 158, and its theorem
    reads the table off the frame that line 155 ([Cut]) leaves. *)

From S2P Require Import Prelude Series Frame Cut.
Open Scope nat_scope.

(** The rows where both keys are present, as pairs. *)
Definition both_present (k1 k2 : list (option scalar)) : list (scalar * scalar) :=
  omap (fun p => match p with (Some a, Some b) => Some (a, b) | _ => None end) (zip k1 k2).

Definition is_categorical (c : column) : bool :=
  match col_dtype c with Category _ => true | _ => false end.

(** The levels of a grouping key: the categories of a categorical key,
    else its sorted distinct non-NaN values. *)
Definition levels (c : column) : list scalar :=
  match col_dtype c with
  | Category cats => SStr <$> cats
  | _ => isort key_leb (uniq (present (col_cells c)))
  end.

Record table := mkTable {
  tbl_rows : list scalar;
  tbl_cols : list scalar;
  tbl_counts : list (list nat)
}.

(** [groupby([k1, k2]).size().unstack().fillna(0)]. *)
Definition crosstab (k1 k2 : column) : table :=
  let pairs := both_present (col_cells k1) (col_cells k2) in
  let rows := if is_categorical k1 || is_categorical k2 then levels k1
              else isort key_leb (uniq (fst <$> pairs)) in
  let cols := if is_categorical k1 || is_categorical k2 then levels k2
              else isort key_leb (uniq (snd <$> pairs)) in
  mkTable rows cols ((fun r => (fun c => count_of (r, c) pairs) <$> cols) <$> rows).

(** Line 158. *)
Definition severity_by_aircraft (f : frame) : result table :=
  k1 <- getitem f "Aircraft.Category" ;;
  k2 <- getitem f "severity" ;;
  Ok (crosstab k1 k2).

(** The categories of a categorical column are distinct, as pandas
    requires of a [Categorical]; other columns satisfy it trivially. *)
Definition cats_distinct (c : column) : Prop :=
  match col_dtype c with Category cats => NoDup cats | _ => True end.

#[export] Instance cats_distinct_dec c : Decision (cats_distinct c).
Proof. unfold cats_distinct. destruct (col_dtype c); apply _. Defined.

(** Two key columns, for the witnesses. *)
Definition category_sample : column :=
  mkColumn Object [Some (SStr "Airplane"); Some (SStr "Helicopter"); None; Some (SStr "Airplane")].
Definition severity_sample : column :=
  mkColumn (Category ["Low"; "Medium"; "High"])
    [Some (SStr "Low"); None; Some (SStr "High"); Some (SStr "Low")].

(** ** Lemmas *)

Lemma count_pair_split (r c : scalar) (pairs : list (scalar * scalar)) :
  count_of (r, c) pairs = count_of c (snd <$> filter (fun p => p.1 = r) pairs).
Proof.
  induction pairs as [|[a b] pairs IH]; [done|].
  rewrite count_of_cons, filter_cons. cbn [fst snd].
  destruct (decide (a = r)) as [->|Hne].
  - rewrite fmap_cons, count_of_cons, IH. cbn [snd].
    destruct (decide (b = c)) as [->|]; [by rewrite decide_True|].
    rewrite decide_False; [done|]. congruence.
  - rewrite decide_False by congruence. done.
Qed.

Lemma count_first (r : scalar) (pairs : list (scalar * scalar)) :
  length (filter (fun p => p.1 = r) pairs) = count_of r (fst <$> pairs).
Proof.
  induction pairs as [|[a b] pairs IH]; [done|].
  rewrite filter_cons, fmap_cons, count_of_cons. cbn [fst].
  case_decide; simpl; by rewrite IH.
Qed.

(** Summing a table whose rows and columns are duplicate-free and cover
    every pair counts every pair once. *)
Lemma sum_table (rows cols : list scalar) (pairs : list (scalar * scalar)) :
  NoDup rows -> NoDup cols ->
  (forall a b, (a, b) ∈ pairs -> a ∈ rows /\ b ∈ cols) ->
  sum_list_with (fun r => sum_list_with (fun c => count_of (r, c) pairs) cols) rows =
  length pairs.
Proof.
  intros Hr Hc Hcov.
  rewrite (sum_list_with_ext _ (fun r => count_of r (fst <$> pairs))).
  - rewrite sum_counts_NoDup; [by rewrite length_fmap | done |].
    intros a (p & -> & Hp)%list_elem_of_fmap. destruct p. by apply (Hcov _ s0).
  - intros r. rewrite <- count_first.
    rewrite (sum_list_with_ext _ (fun c => count_of c (snd <$> filter (fun p => p.1 = r) pairs)))
      by (intros c; apply count_pair_split).
    rewrite sum_counts_NoDup; [by rewrite length_fmap | done |].
    intros b (p & -> & Hp)%list_elem_of_fmap. apply list_elem_of_filter in Hp as [_ Hp].
    destruct p. by apply (Hcov s).
Qed.

Lemma both_present_elem (k1 k2 : list (option scalar)) (a b : scalar) :
  (a, b) ∈ both_present k1 k2 -> Some a ∈ k1 /\ Some b ∈ k2.
Proof.
  unfold both_present. rewrite list_elem_of_omap.
  intros ([[a'|] [b'|]] & Hin & E); try discriminate. injection E as -> ->.
  split; [by apply elem_of_zip_l in Hin | by apply elem_of_zip_r in Hin].
Qed.

(** A present cell of a well-formed column is one of its levels. *)
Lemma levels_cover (n : nat) (c : column) (a : scalar) :
  column_wf n c -> Some a ∈ col_cells c -> a ∈ levels c.
Proof.
  intros [_ Hok] Hin. rewrite Forall_forall in Hok. specialize (Hok _ Hin).
  unfold levels. destruct (col_dtype c) eqn:Et.
  4: { destruct a; simpl in Hok; try discriminate. apply bool_decide_eq_true in Hok.
       by apply list_elem_of_fmap_2. }
  all: by apply elem_of_isort, elem_of_uniq, present_elem.
Qed.

Lemma NoDup_levels (c : column) : cats_distinct c -> NoDup (levels c).
Proof.
  unfold cats_distinct, levels. destruct (col_dtype c); intros Hd.
  4: { apply NoDup_fmap; [congruence | done]. }
  all: rewrite isort_perm; apply NoDup_uniq.
Qed.

(** ** Properties of the cross tabulation *)

(** The table is rectangular, and the count at row [r] and column [c]
    is the number of pairs [(r, c)]. *)
Lemma crosstab_lookup (k1 k2 : column) :
  let t := crosstab k1 k2 in
  length (tbl_counts t) = length (tbl_rows t) /\
  Forall (fun row => length row = length (tbl_cols t)) (tbl_counts t) /\
  forall i j r c, tbl_rows t !! i = Some r -> tbl_cols t !! j = Some c ->
    (tbl_counts t !! i ≫= (.!! j)) = Some (count_of (r, c) (both_present (col_cells k1) (col_cells k2))).
Proof.
  unfold crosstab. cbv zeta. cbn [tbl_rows tbl_cols tbl_counts]. split_and!.
  - by rewrite length_fmap.
  - apply Forall_fmap, Forall_forall. intros r _. simpl. by rewrite length_fmap.
  - intros i j r c Hr Hc. rewrite list_lookup_fmap, Hr. cbn [fmap option_fmap option_map stdpp.base.mbind option_bind].
    rewrite list_lookup_fmap, Hc. reflexivity.
Qed.

(** Counting the pairs of present keys counts the rows. *)
Lemma count_both_present (k1 k2 : list (option scalar)) (r c : scalar) :
  count_of (r, c) (both_present k1 k2) = count_of (Some r, Some c) (zip k1 k2).
Proof.
  unfold both_present. generalize (zip k1 k2) as ps. intros ps.
  induction ps as [|[[a|] [b|]] ps IH]; [done|..]; csimpl; rewrite ?count_of_cons, IH.
  all: repeat case_decide; simplify_eq; done.
Qed.

(** The rows of a non-categorical key crossed with a categorical one:
    its distinct present values, in increasing order. *)
Lemma crosstab_rows_levels (k1 k2 : column) :
  is_categorical k1 = false -> is_categorical k2 = true ->
  tbl_rows (crosstab k1 k2) = isort key_leb (uniq (present (col_cells k1))) /\
  tbl_cols (crosstab k1 k2) = levels k2.
Proof.
  unfold crosstab, levels, is_categorical. intros H1 H2. cbn [tbl_rows tbl_cols].
  destruct (col_dtype k2); try discriminate. rewrite orb_true_r.
  destruct (col_dtype k1); done.
Qed.




(** C32. On well-formed key columns whose categories are distinct, the
    counts of the table add up to the number of rows where both keys are
    present: with [observed=False] no such row is lost and none counted
    twice, and rows with a NaN key are the only ones left out. *)
Theorem crosstab_total (n : nat) (k1 k2 : column) :
  column_wf n k1 -> column_wf n k2 -> cats_distinct k1 -> cats_distinct k2 ->
  sum_list_with sum_list (tbl_counts (crosstab k1 k2)) =
  length (both_present (col_cells k1) (col_cells k2)).
Proof.
  intros W1 W2 D1 D2. unfold crosstab. cbv zeta. cbn [tbl_counts].
  rewrite sum_list_with_fmap.
  rewrite (sum_list_with_ext _ (fun r => sum_list_with
    (fun c => count_of (r, c) (both_present (col_cells k1) (col_cells k2))) _))
    by (intros r; by rewrite sum_list_with_fmap).
  apply sum_table.
  - destruct (_ || _); [by apply NoDup_levels|rewrite isort_perm; apply NoDup_uniq].
  - destruct (_ || _); [by apply NoDup_levels|rewrite isort_perm; apply NoDup_uniq].
  - intros a b Hab. pose proof (both_present_elem _ _ _ _ Hab) as [Ha Hb].
    destruct (_ || _); split; try by eapply levels_cover.
    + apply elem_of_isort, elem_of_uniq, list_elem_of_fmap. by exists (a, b).
    + apply elem_of_isort, elem_of_uniq, list_elem_of_fmap. by exists (a, b).
Qed.

(** ** Witnesses *)

(** A frame with a category and a fatality column. *)
Definition crosstab_frame : frame :=
  mkFrame 4 [("Aircraft.Category", category_sample);
             ("Total.Fatal.Injuries",
               mkColumn Float64 [Some (SNum 1%Q); Some (SNum 3%Q); Some (SNum 0%Q); None])].


Lemma crosstab_total_witness :
  sum_list_with sum_list (tbl_counts (crosstab category_sample severity_sample)) = 2.
Proof.
  rewrite (crosstab_total 4 category_sample severity_sample); [reflexivity | ..];
    apply (bool_decide_unpack _); vm_compute; exact I.
Defined.
