(* ===== verification/Script.v ===== *)
(** * Script: the analysis run top to bottom, with its output

    The script's statements run once, in order, on the frame that
    [pd.read_csv] (line 45) loads.  Its visible effects are two prints
    and five charts; an exception stops it after whatever it already
    showed.  [script] is the run from line 82 on in the writer-and-error
    monad [M] of [Prelude]: it emits [output]s and returns or raises.
    [program] is the whole file: [read_csv] on the text of the file, the
    table [df.info()] prints ([info]), [df.describe()], then [script].
    A chart is everything the plotting calls hand to matplotlib or
    seaborn ([chart]): the figure size, the kind, the line marker, the
    title, axis labels and grid, the index along the category axis, one
    list of values per index entry (one value, or one per stacked
    segment), the legend of the stacked chart and the tick rotation.
    [pipeline] is the staged order of the specification, which the
    script refines. *)

From S2P Require Import Prelude Series Frame Csv Header ReadCsv Impute Describe Cut Dates CrossTab.
Open Scope nat_scope.

Inductive plot_kind : Type :=
| LinePlot          (** [plt.plot(x, y, marker='o')] *)
| BarPlot           (** [Series.plot(kind='bar')] *)
| StackedBarPlot    (** [DataFrame.plot(kind='bar', stacked=True)] *)
| HorizontalBarPlot (** [sns.barplot(x=values, y=index)] *).

(** A shown figure: the size of the figure it is drawn on
    ([plt.figure(figsize=...)], or the [figsize] of [DataFrame.plot],
    which opens a figure of its own; a Series plot draws on the current
    figure), its kind, the marker of a line plot, title, axis labels,
    whether the grid is on, the index along the category axis, one list
    of values per index entry (one value, or one per stacked segment),
    the legend of the stacked chart and the rotation of the x ticks. *)
Record chart := mkChart {
  chart_figsize : nat * nat;
  chart_kind : plot_kind;
  chart_marker : option string;
  chart_title : string;
  chart_xlabel : string;
  chart_ylabel : string;
  chart_grid : bool;
  chart_index : list (option scalar);
  chart_values : list (list nat);
  chart_legend : list scalar;
  chart_xtick_rotation : option Z
}.

(** What [df.info()] prints: the number of entries and, for every
    column, its name, its number of non-null cells and its dtype. *)
Record frame_info := mkInfo {
  info_entries : nat;
  info_columns : list (string * nat * dtype)
}.

Definition info (f : frame) : frame_info :=
  mkInfo (nrows f) ((fun p => (p.1, length (present (col_cells p.2)), col_dtype p.2)) <$> cols f).

Inductive output : Type :=
| PrintInfo (i : frame_info)                       (** [df.info()] *)
| PrintFrame (f : frame)                           (** [print(df.head())] *)
| PrintCounts (counts : list (option scalar * nat)) (** [print(severity_counts)] *)
| ShowChart (c : chart)                            (** [plt.show()] *).

(** Lines 120 to 126. *)
Definition year_chart (per_year : list (scalar * nat)) : chart :=
  mkChart (10, 6) LinePlot (Some "o") "Aviation Accidents Over Time (1962–2023)" "Year"
    "Number of Accidents" true ((fun p => Some p.1) <$> per_year) ((fun p => [p.2]) <$> per_year) [] None.

(** Lines 139 to 145. *)
Definition make_chart (top : list (scalar * nat)) : chart :=
  mkChart (10, 6) BarPlot None "Top 10 Aircraft Manufacturers by Accident Count"
    "Manufacturer/Make" "Number of Accidents" false ((fun p => Some p.1) <$> top) ((fun p => [p.2]) <$> top) [] (Some 45%Z).

(** Lines 161 to 166. *)
Definition severity_chart (t : table) : chart :=
  mkChart (12, 8) StackedBarPlot None "Accident Severity by Aircraft Type" "Aircraft Type"
    "Number of Accidents" false (Some <$> tbl_rows t) (tbl_counts t) (tbl_cols t) (Some 90%Z).

(** Lines 177 to 182. *)
Definition location_chart (top : list (option scalar * nat)) : chart :=
  mkChart (10, 6) HorizontalBarPlot None "Top 10 States by Number of Incidents"
    "Number of Incidents" "State" false (fst <$> top) ((fun p => [p.2]) <$> top) [] None.

(** Lines 192 to 197. *)
Definition injury_chart (top : list (option scalar * nat)) : chart :=
  mkChart (10, 6) HorizontalBarPlot None "Top 10 Severity of Injuries" "Number of Incidents"
    "Severity of Injuries" false (fst <$> top) ((fun p => [p.2]) <$> top) [] None.

(** Line 136: [df.groupby('Make').size().sort_values(ascending=False).head(10)]. *)
Definition top_manufacturers (f : frame) : result (list (scalar * nat)) :=
  c <- getitem f "Make" ;;
  Ok (head 10 (sort_values_desc (groupby_size (col_cells c)))).

(** Lines 175 and 190: [df[name].value_counts().head(10)]. *)
Definition top_values (f : frame) (name : string) : result (list (option scalar * nat)) :=
  c <- getitem f name ;;
  Ok (head 10 (series_value_counts true (col_cells c))).

(** The script from line 83 on, run on the loaded frame [df0]; [cow]
    says whether pandas runs with copy-on-write. *)
Definition script (cow : bool) (df0 : frame) : M output unit :=
  df1 <-- mlift (clean cow df0) ;;;
  _ <-- emit (PrintFrame (frame_head 5 df1)) ;;;
  sev <-- mlift (getitem df1 "Injury.Severity") ;;;
  _ <-- emit (PrintCounts (series_value_counts false (col_cells sev))) ;;;
  df2 <-- mlift (add_year df1) ;;;
  per_year <-- mlift (accidents_per_year df2) ;;;
  _ <-- emit (ShowChart (year_chart per_year)) ;;;
  top <-- mlift (top_manufacturers df2) ;;;
  _ <-- emit (ShowChart (make_chart top)) ;;;
  df3 <-- mlift (add_severity df2) ;;;
  t <-- mlift (severity_by_aircraft df3) ;;;
  _ <-- emit (ShowChart (severity_chart t)) ;;;
  locs <-- mlift (top_values df3 "Location") ;;;
  _ <-- emit (ShowChart (location_chart locs)) ;;;
  injs <-- mlift (top_values df3 "Injury.Severity") ;;;
  emit (ShowChart (injury_chart injs)).

(** The whole script: line 45 reads the file, line 55 prints
    [df.info()], line 58 evaluates [df.describe()], which raises on a
    frame without columns, and the rest runs on the frame read.  Lines
    52 and 80 ([df.head()] and [df.isnull().sum()], [frame_head] and
    [isnull_sum]) are total; like line 58 they are expression
    statements whose values the script drops. *)
Definition program (cow : bool) (text : string) : M output unit :=
  df <-- mlift (read_csv text) ;;;
  _ <-- emit (PrintInfo (info df)) ;;;
  _ <-- mlift (describe df) ;;;
  script cow df.

(** The columns the run needs, in the state it needs them: a numeric
    fatality column, a weather column with a value, dates that convert,
    and the four columns it reads. *)
Definition script_ready (df : frame) : bool :=
  match getitem df TFI, getitem df WEATHER, getitem df "Event.Date" with
  | Ok t, Ok w, Ok d =>
      bool_decide (col_dtype t = Float64 \/ col_dtype t = Int64) &&
      bool_decide (present (col_cells w) <> []) && is_ok (to_datetime d)
  | _, _, _ => false
  end &&
  forallb (fun n => is_ok (getitem df n)) ["Injury.Severity"; "Make"; "Aircraft.Category"; "Location"].

(** ** A sample of the NTSB table *)

Definition obj (l : list (option string)) : column :=
  mkColumn Object (map (option_map SStr) l).
Definition num (l : list (option Z)) : column :=
  mkColumn Float64 (map (option_map (fun z => SNum (inject_Z z))) l).

Definition sample_frame : frame :=
  mkFrame 4
    [("Event.Date", obj [Some "2001-05-03"; Some "2001-07-09"; Some "1999-01-01"; Some "2001-12-12"]);
     ("Make", obj [Some "Boeing"; Some "Boeing"; Some "Cessna"; None]);
     ("Aircraft.Category", obj [Some "Airplane"; Some "Airplane"; Some "Helicopter"; None]);
     ("Injury.Severity", obj [Some "Fatal(2)"; Some "Non-Fatal"; Some "Non-Fatal"; None]);
     ("Total.Fatal.Injuries", num [Some 2%Z; Some 0%Z; None; Some 7%Z]);
     ("Weather.Condition", obj [Some "VMC"; Some "IMC"; Some "VMC"; None]);
     ("Location", obj [Some "DALLAS, TX"; Some "MIAMI, FL"; Some "DALLAS, TX"; Some "RENO, NV"]);
     ("Aircraft.damage", obj [Some "Destroyed"; None; None; None]);
     ("Registration.Number", obj [Some "N123"; None; None; None])].

(** The same table as a CSV file, every field quoted, one record per
    line; the empty fields are NaN. *)
Definition sample_csv : string :=
  render [LF]
    [["Event.Date"; "Make"; "Aircraft.Category"; "Injury.Severity"; "Total.Fatal.Injuries";
      "Weather.Condition"; "Location"; "Aircraft.damage"; "Registration.Number"];
     ["2001-05-03"; "Boeing"; "Airplane"; "Fatal(2)"; "2"; "VMC"; "DALLAS, TX"; "Destroyed"; "N123"];
     ["2001-07-09"; "Boeing"; "Airplane"; "Non-Fatal"; "0"; "IMC"; "MIAMI, FL"; ""; ""];
     ["1999-01-01"; "Cessna"; "Helicopter"; "Non-Fatal"; ""; "VMC"; "DALLAS, TX"; ""; ""];
     ["2001-12-12"; ""; ""; ""; "7"; ""; "RENO, NV"; ""; ""]].

(** The sample with its first date written the American way. *)
Definition bad_date_frame : frame :=
  mkFrame 4 (col_assign "Event.Date"
    (obj [Some "05/03/2001"; Some "2001-07-09"; Some "1999-01-01"; Some "2001-12-12"])
    (cols sample_frame)).

(** ** The staged pipeline of the specification

    Section 2 of the specification orders the run as load, clean,
    derive (year and severity), then five independent aggregations,
    each a pure function of the derived frame.  [pipeline] computes the
    five views in that order; the script interleaves the derivation of
    [severity] (line 155) after the first two charts. *)
Record views := mkViews {
  v_per_year : list (scalar * nat);
  v_top_makes : list (scalar * nat);
  v_severity : table;
  v_locations : list (option scalar * nat);
  v_injuries : list (option scalar * nat)
}.

Definition pipeline (cow : bool) (df : frame) : result views :=
  df1 <- clean cow df ;;
  df2 <- add_year df1 ;;
  df3 <- add_severity df2 ;;
  py <- accidents_per_year df3 ;;
  top <- top_manufacturers df3 ;;
  t <- severity_by_aircraft df3 ;;
  locs <- top_values df3 "Location" ;;
  injs <- top_values df3 "Injury.Severity" ;;
  Ok (mkViews py top t locs injs).

(** The charts drawn from the views, in the script's order. *)
Definition views_charts (v : views) : list chart :=
  [year_chart (v_per_year v); make_chart (v_top_makes v); severity_chart (v_severity v);
   location_chart (v_locations v); injury_chart (v_injuries v)].

(** The charts among the outputs of a run. *)
Definition shown_charts (outs : list output) : list chart :=
  omap (fun o => match o with ShowChart c => Some c | _ => None end) outs.

(** The sample without its [Make] column. *)
Definition no_make_frame : frame := drop_columns ["Make"] sample_frame.

(** The columns the script reads from the frame it loads, in the order
    it first reads them. *)
Definition script_columns : list string :=
  [TFI; WEATHER; "Injury.Severity"; "Event.Date"; "Make"; "Aircraft.Category"; "Location"].

(** The chart kind of an output, none for a print. *)
Definition output_kind (o : output) : option plot_kind :=
  match o with ShowChart c => Some (chart_kind c) | _ => None end.

(** ** Lemmas *)

Lemma mbind_mlift {A B} (r : result A) (k : A -> M output B) :
  mbind (mlift r) k = match r with Ok a => k a | Err e => ([], Err e) end.
Proof. destruct r as [a|e]; simpl; [by destruct (k a)|done]. Qed.

Lemma mbind_emit {B} (o : output) (k : unit -> M output B) :
  mbind (emit o) k = ((o :: (k tt).1), (k tt).2).
Proof. simpl. by destruct (k tt). Qed.

#[export] Hint Rewrite @mbind_mlift @mbind_emit : pandas.

(** Case analysis on the steps of [script], in order. *)
Ltac run_script :=
  unfold script; autorewrite with pandas;
  repeat match goal with
  | |- context [match ?r with Ok _ => _ | Err _ => _ end] =>
      let E := fresh "E" in destruct r eqn:E; simpl
  end.

(** The facts each stage of a run gives about the names of its frames
    and, for a step that raised a [KeyError], about the missing name. *)
Ltac stage_facts :=
  repeat match goal with
  | E : clean _ _ = Ok _ |- _ => apply clean_names in E as (? & ? & ?)
  | E : add_year _ = Ok _ |- _ => apply add_year_names in E as [? ?]
  | E : add_severity _ = Ok _ |- _ => apply add_severity_names in E as [? ?]
  | E : getitem _ _ = Ok _ |- _ => apply getitem_Ok_elem in E
  | E : clean _ _ = Err (KeyError _) |- _ => apply clean_keyerror in E
  | E : add_year _ = Err (KeyError _) |- _ => apply add_year_keyerror in E as [-> ?]
  | E : add_severity _ = Err (KeyError _) |- _ => apply add_severity_keyerror in E as [-> ?]
  | E : getitem _ _ = Err _ |- _ => apply getitem_Err in E as [[= ->] ?]
  | E : accidents_per_year _ = _ |- _ => unfold accidents_per_year in E; res_inv
  | E : top_manufacturers _ = _ |- _ => unfold top_manufacturers in E; res_inv
  | E : severity_by_aircraft _ = _ |- _ => unfold severity_by_aircraft in E; res_inv
  | E : top_values _ _ = _ |- _ => unfold top_values in E; res_inv
  | E : _ = Ok _ |- _ => clear E
  end.

Ltac solve_by_eval := apply (bool_decide_unpack _); vm_compute; exact I.

(** Prove that a name is a column of a frame by following the name
    facts of the stages back to a known column. *)
Ltac reach :=
  match goal with
  | H : ?n ∈ col_names ?g |- ?n ∈ col_names ?g => exact H
  | |- ?n ∈ col_names ?g =>
      match goal with
      | H : forall y, y ∈ col_names g <-> _ |- _ =>
          apply H; first [by right | left; reach | split; [reach | solve_by_eval]]
      end
  end.

(** Two equations for the same step give the same value, or the branch
    is contradictory. *)
Ltac same_results :=
  repeat match goal with
  | H1 : ?r = Ok ?a, H2 : ?r = Ok ?b |- _ =>
      assert (a = b) by congruence; subst; clear H2
  | H1 : ?r = Ok _, H2 : ?r = Err _ |- _ => congruence
  | H : Ok _ = Ok _ |- _ => injection H as H; subst
  | H : Err _ = Ok _ |- _ => discriminate H
  end.

(** ** Properties of the whole run *)

(** C20. Line 136 on a frame with a [Make] column: the bar chart gets
    the ten makes with most accidents, all of them when there are fewer:
    each make once, with its number of rows, in decreasing order of that
    number, and no make left out has more rows than one shown.  This
    holds whatever order numpy's quicksort gives to tied makes. *)
Theorem top_manufacturers_spec (f : frame) (c : column) :
  getitem f "Make" = Ok c ->
  exists top, top_manufacturers f = Ok top /\
    length top = Nat.min 10 (length (uniq (present (col_cells c)))) /\
    NoDup (fst <$> top) /\
    StronglySorted (fun a b => b.2 <= a.2) top /\
    (forall k n, (k, n) ∈ top -> Some k ∈ col_cells c /\ n = count_of (Some k) (col_cells c)) /\
    (forall k n k', (k, n) ∈ top -> Some k' ∈ col_cells c -> k' ∉ fst <$> top ->
       count_of (Some k') (col_cells c) <= n).
Proof.
  intros Hc. unfold top_manufacturers, head. rewrite Hc. eexists; split; [reflexivity|].
  set (g := groupby_size (col_cells c)). set (l := sort_values_desc g).
  assert (l ≡ₚ g) as Hp by apply isort_perm.
  assert (sorted_desc snd l) as Hs by apply isort_desc_sorted.
  assert (forall k n, (k, n) ∈ l <-> Some k ∈ col_cells c /\ n = count_of (Some k) (col_cells c)) as Hg.
  { intros k n. rewrite Hp. unfold g, groupby_size.
    by rewrite elem_of_isort, elem_of_count_pairs, present_elem, count_of_present. }
  assert (forall x, x ∈ take 10 l -> x ∈ l) as Htk.
  { intros x Hx. rewrite <- (take_drop 10 l). apply elem_of_app. by left. }
  split_and!.
  - rewrite length_take, Hp. unfold g, groupby_size, count_pairs. by rewrite length_isort, length_fmap.
  - rewrite fmap_take. apply NoDup_take. rewrite Hp. apply isort_keys_NoDup.
  - apply StronglySorted_take, sorted_strongly; [intros; lia | done].
  - intros k n Hin. by apply Hg, Htk.
  - intros k n k' Hin Hk' Hnot.
    assert ((k', count_of (Some k') (col_cells c)) ∈ l) as Hl by (by apply Hg).
    rewrite <- (take_drop 10 l) in Hl. apply elem_of_app in Hl as [Ht | Hd].
    + exfalso. apply Hnot. by apply (list_elem_of_fmap_2 fst) in Ht.
    + exact (sorted_desc_take_drop snd l 10 (k, n) _ Hs Hin Hd).
Qed.

(** A run that ends without an exception prints twice (the head of
    the cleaned frame, then the severity counts) and shows five charts,
    in the order of the script: a line chart, a bar chart, a stacked bar
    chart and two horizontal bar charts. *)
Theorem script_outputs (cow : bool) (df : frame) :
  (script cow df).2 = Ok tt ->
  output_kind <$> (script cow df).1 =
  [None; None; Some LinePlot; Some BarPlot; Some StackedBarPlot;
   Some HorizontalBarPlot; Some HorizontalBarPlot].
Proof. run_script; done. Qed.

(** When the date conversion raises, the script stops there, and
    what it printed before (the frame head and the severity counts)
    is all it showed. *)
Theorem script_date_error (cow : bool) (df df1 : frame) (sev : column) (e : exn) :
  clean cow df = Ok df1 -> getitem df1 "Injury.Severity" = Ok sev -> add_year df1 = Err e ->
  script cow df =
    ([PrintFrame (frame_head 5 df1); PrintCounts (series_value_counts false (col_cells sev))],
     Err e).
Proof. intros H1 H2 H3. unfold script. autorewrite with pandas. by rewrite H1, H2, H3. Qed.

(** The whole program on the CSV text of the sample: the run
    succeeds, prints the info, the head and the counts and shows five
    charts; the manufacturer chart shows Boeing 2 then Cessna 1 (the row
    without a make is not counted); and the stacked severity chart shows
    the copy-on-write loss: without copy-on-write the helicopter's
    imputed fatality count (the mean, 3) is Medium, with it the count
    stays NaN and the helicopter has no severity at all. *)
Example program_sample_run :
  (program false sample_csv).2 = Ok tt /\
  output_kind <$> (program false sample_csv).1 =
    [None; None; None; Some LinePlot; Some BarPlot; Some StackedBarPlot;
     Some HorizontalBarPlot; Some HorizontalBarPlot] /\
  (exists c, (program false sample_csv).1 !! 4 = Some (ShowChart c) /\
    chart_index c = [Some (SStr "Boeing"); Some (SStr "Cessna")] /\ chart_values c = [[2]; [1]]) /\
  (exists c, (program false sample_csv).1 !! 5 = Some (ShowChart c) /\
    chart_index c = [Some (SStr "Airplane"); Some (SStr "Helicopter")] /\
    chart_values c = [[0; 1; 0]; [0; 1; 0]]) /\
  (exists c, (program true sample_csv).1 !! 5 = Some (ShowChart c) /\
    chart_values c = [[0; 1; 0]; [0; 0; 0]]).
Proof. vm_compute. split_and!; try reflexivity; eexists; split_and!; reflexivity. Qed.

(** ** Witnesses *)

Lemma top_manufacturers_spec_witness :
  exists top, top_manufacturers sample_frame = Ok top /\ length top = 2.
Proof.
  destruct (top_manufacturers_spec sample_frame
    (obj [Some "Boeing"; Some "Boeing"; Some "Cessna"; None])) as (top & E & Hl & _);
    [reflexivity|].
  exists top. split; [done|]. rewrite Hl. reflexivity.
Defined.

Lemma script_date_error_witness :
  exists df1 sev e, script false bad_date_frame =
    ([PrintFrame (frame_head 5 df1); PrintCounts (series_value_counts false (col_cells sev))], Err e).
Proof.
  destruct (clean false bad_date_frame) as [df1|] eqn:E1; [|vm_compute in E1; discriminate].
  destruct (getitem df1 "Injury.Severity") as [sev|] eqn:E2;
    [|vm_compute in E1; injection E1 as <-; vm_compute in E2; discriminate].
  destruct (add_year df1) as [|e] eqn:E3;
    [vm_compute in E1; injection E1 as <-; vm_compute in E3; discriminate|].
  exists df1, sev, e. by apply script_date_error.
Defined.

Lemma is_ok_Ok {A} (r : result A) : is_ok r = true -> exists a, r = Ok a.
Proof. destruct r; [eauto | done]. Qed.

Lemma script_ready_spec (df : frame) :
  script_ready df = true ->
  exists t w d d', getitem df TFI = Ok t /\ (col_dtype t = Float64 \/ col_dtype t = Int64) /\
    getitem df WEATHER = Ok w /\ present (col_cells w) <> [] /\
    getitem df "Event.Date" = Ok d /\ to_datetime d = Ok d' /\
    forall n, n ∈ ["Injury.Severity"; "Make"; "Aircraft.Category"; "Location"] ->
      exists c, getitem df n = Ok c.
Proof.
  unfold script_ready. intros [H1 H2]%andb_true_iff.
  destruct (getitem df TFI) as [t|], (getitem df WEATHER) as [w|], (getitem df "Event.Date") as [d|];
    try discriminate.
  apply andb_true_iff in H1 as [[Ht Hw]%andb_true_iff Hd].
  apply bool_decide_eq_true in Ht, Hw. destruct (is_ok_Ok _ Hd) as [d' Hd'].
  exists t, w, d, d'. split_and!; try done.
  intros n Hn. rewrite forallb_forall in H2. apply is_ok_Ok, H2. by apply list_elem_of_In.
Qed.



(** C15. The stages compose: on any text [read_csv] loads, the
    exploration statements of lines 52 to 80 neither raise nor change
    the frame, so the program prints the [df.info()] table and then
    runs the script on the frame read, with the script's outputs and
    outcome. *)
Theorem program_runs_script (cow : bool) (text : string) (df : frame) :
  read_csv text = Ok df ->
  program cow text = (PrintInfo (info df) :: (script cow df).1, (script cow df).2).
Proof.
  intros Hr. destruct (describe_read_csv text df Hr) as (d & Hd & _).
  unfold program. rewrite mbind_mlift, Hr, mbind_emit. cbv beta.
  rewrite mbind_mlift, Hd. reflexivity.
Qed.

Lemma program_runs_script_witness :
  exists df, read_csv sample_csv = Ok df /\
    program true sample_csv = (PrintInfo (info df) :: (script true df).1, (script true df).2).
Proof.
  destruct (read_csv sample_csv) as [df|e] eqn:E; [|vm_compute in E; discriminate].
  exists df. split; [done|]. by apply program_runs_script.
Defined.

(** C5. Spec section 7 asks that a missing expected column stop the
    run with a diagnostic naming it.  Every [KeyError] the script
    raises names one of the columns it reads that the loaded frame
    lacks, except the [KeyError: 0] of [mode()[0]] on a weather column
    without values ([impute_weather_all_nan]); the derived [year] and [severity] columns
    and the columns read twice never cause one. *)
Theorem script_keyerror (cow : bool) (df : frame) (k : string) :
  (script cow df).2 = Err (KeyError k) -> k = "0" \/ (k ∈ script_columns /\ k ∉ col_names df).
Proof.
  run_script; intros [= ->]; stage_facts;
  first
  [ match goal with H : _ = "0" \/ _ |- _ =>
      destruct H as [-> | [? ?]]; [by left | right; split; [unfold script_columns; set_solver | done]]
    end
  | match goal with Hn : _ ∉ col_names _ |- _ => exfalso; apply Hn; reach end
  | right; split; [solve_by_eval |];
    intros ?; match goal with Hn : _ ∉ col_names _ |- _ => apply Hn; reach end ].
Qed.

Lemma script_keyerror_witness :
  (script false no_make_frame).2 = Err (KeyError "Make") /\
  ("Make" = "0" \/ ("Make" ∈ script_columns /\ "Make" ∉ col_names no_make_frame)).
Proof.
  assert ((script false no_make_frame).2 = Err (KeyError "Make")) as H by (vm_compute; reflexivity).
  split; [done|]. by apply (script_keyerror false no_make_frame "Make").
Defined.

(** C16. A run that completes had every column the script reads: the
    columns of [script_ready] are necessary as well as sufficient ([script_completes])
    for a run to reach its end. *)
Theorem script_needs_columns (cow : bool) (df : frame) :
  (script cow df).2 = Ok tt -> Forall (fun n => n ∈ col_names df) script_columns.
Proof.
  run_script; intros; try discriminate. stage_facts.
  repeat match goal with
  | H : ?n ∈ col_names ?g, I : forall y, y ∈ col_names ?g <-> _ |- _ =>
      apply I in H; first [destruct H as [H|H]; [|discriminate H] | destruct H as [H _]]
  end.
  repeat constructor; done.
Qed.

Lemma script_needs_columns_witness :
  (script true sample_frame).2 = Ok tt /\ Forall (fun n => n ∈ col_names sample_frame) script_columns.
Proof.
  assert ((script true sample_frame).2 = Ok tt) as H by (vm_compute; reflexivity).
  split; [done|]. by apply (script_needs_columns true sample_frame).
Defined.

(** C17. Boundary of the load: a file holding only a header that names
    the fatality and weather columns is read as a frame without rows;
    the program prints its [df.info()] and stops at line 89 with
    [KeyError: 0]: the mean of the empty fatality column is NaN, so
    line 86 fills nothing, and the mode of the empty weather column has
    no entry 0. *)
Theorem program_header_only (cow : bool) (header : list string) :
  header <> [] -> TFI ∈ header_names header -> WEATHER ∈ header_names header ->
  exists df, read_csv (render [LF] [header]) = Ok df /\ nrows df = 0 /\
    program cow (render [LF] [header]) = ([PrintInfo (info df)], Err (KeyError "0")).
Proof.
  intros Hh Ht Hw. pose proof (read_csv_header_only header Hh) as Hr.
  eexists. split; [exact Hr|]. split; [done|].
  set (df := mkFrame 0 _) in Hr.
  assert (forall n, n ∈ header_names header -> getitem df n = Ok (mkColumn Object [])) as Hg.
  { intros n Hn. destruct (header_names_distinct header) as [_ Hlen].
    destruct (getitem_elem df n) as [c Hc].
    { unfold col_names. cbn [cols df]. rewrite fst_zip; [done|]. rewrite length_fmap, length_seq. lia. }
    rewrite Hc. unfold getitem in Hc. case_match eqn:E; [|done]. injection Hc as <-.
    apply col_lookup_elem, elem_of_zip_r, list_elem_of_fmap in E as (j & -> & _). done. }
  destruct (describe_read_csv _ df Hr) as (d & Hd & _).
  unfold program. rewrite mbind_mlift, Hr, mbind_emit. cbv beta. rewrite mbind_mlift, Hd.
  unfold script. rewrite mbind_mlift, clean_no_rows; [reflexivity | done | by apply Hg..].
Qed.

Lemma program_header_only_witness :
  exists df, read_csv (render [LF] [[TFI; WEATHER]]) = Ok df /\ nrows df = 0 /\
    program false (render [LF] [[TFI; WEATHER]]) = ([PrintInfo (info df)], Err (KeyError "0")).
Proof.
  apply (program_header_only false [TFI; WEATHER]); [done | solve_by_eval | solve_by_eval].
Defined.

(** The aggregations of lines 117 and 136 read columns that line 155
    does not change. *)
Lemma accidents_per_year_add_severity (f f' : frame) :
  add_severity f = Ok f' -> accidents_per_year f' = accidents_per_year f.
Proof. intros H. unfold accidents_per_year. by rewrite (add_severity_getitem f f'). Qed.

Lemma top_manufacturers_add_severity (f f' : frame) :
  add_severity f = Ok f' -> top_manufacturers f' = top_manufacturers f.
Proof. intros H. unfold top_manufacturers. by rewrite (add_severity_getitem f f'). Qed.


